(** * GreyRock listings scraper: a shallow embedding of [scraper/scrape.mjs]

    The repository ships two generations of the scraper script.  The first
    one reads every listing from its card on the index page
    ([parseListings], [findCardContainer], [extractListingData]); the second
    one reads only the identifiers from the index page ([parseIndexPage])
    and one detail page per listing ([parseDetailPage]).  Both share
    [validateListings] and [simpleHash].  They are embedded below as the
    modules [V1] and [V2], over common models of JavaScript strings, regular
    expressions, numbers and the parsed DOM tree.

    Conventions of the embedding:
    - a JavaScript string is a [string]: a sequence of code units, here
      restricted to the 8-bit range;
    - a JavaScript number is a binary64 value, [spec_float] with precision
      53 and maximal exponent 1024;
    - [null] and [undefined] are [None];
    - a function that can raise returns [result]: [Ok v] or [Throw msg];
    - the input of the parsers is the tree that jsdom builds from the
      markup, not the markup itself, with the mode, quirks or not, in
      which the markup puts the document;
    - what a run meets outside the script, the pages it fetches and the
      answers of the file system to its writes, is a [Host.t]. *)

From Stdlib Require Import Bool Ascii String List ZArith Lia.
From Corelib Require Import SpecFloat.
Import ListNotations.

#[local] Set Warnings "-register-all".

Local Open Scope string_scope.
Local Open Scope list_scope.

(* ------------------------------------------------------------------ *)
(** * Exceptions *)

Inductive result (A : Type) : Type :=
| Ok (a : A)
| Throw (message : string).
Arguments Ok {A} a.
Arguments Throw {A} message.

Definition bind {A B : Type} (m : result A) (k : A -> result B) : result B :=
  match m with
  | Ok a => k a
  | Throw e => Throw e
  end.

Notation "'let*' x ':=' m 'in' k" := (bind m (fun x => k))
  (at level 10, x pattern, m at level 100, k at level 200).

(** [o.method(...)] where [o] may be [null] or [undefined]. *)
Definition deref {A B : Type} (o : option A) (method : A -> B) : result B :=
  match o with
  | Some a => Ok (method a)
  | None => Throw "TypeError: Cannot read properties of undefined"
  end.

(** JavaScript truthiness of a possibly-null string, and [a || b]. *)
Definition truthy_str (o : option string) : bool :=
  match o with
  | Some (String _ _) => true
  | _ => false
  end.

Definition or_else (a b : option string) : option string :=
  if truthy_str a then a else b.

(* ------------------------------------------------------------------ *)
(** * Strings *)

Module JsString.

Definition code (c : ascii) : N := N_of_ascii c.

Definition in_range (lo hi : N) (c : ascii) : bool :=
  (N.leb lo (code c) && N.leb (code c) hi)%bool.

Definition is_digit : ascii -> bool := in_range 48 57.
Definition is_upper : ascii -> bool := in_range 65 90.
Definition is_lower : ascii -> bool := in_range 97 122.
Definition is_alpha (c : ascii) : bool := (is_upper c || is_lower c)%bool.

(** [\w] *)
Definition is_word (c : ascii) : bool :=
  (is_alpha c || is_digit c || N.eqb (code c) 95)%bool.

(** White space and line terminators, as [\s] and [trim] see them:
    TAB, LF, VT, FF, CR, SP and NBSP. *)
Definition is_space (c : ascii) : bool :=
  (in_range 9 13 c || N.eqb (code c) 32 || N.eqb (code c) 160)%bool.

(** Line terminators excluded by [.]: LF and CR. *)
Definition is_line_terminator (c : ascii) : bool :=
  (N.eqb (code c) 10 || N.eqb (code c) 13)%bool.

Definition to_upper (c : ascii) : ascii :=
  if is_lower c then ascii_of_N (code c - 32) else c.

Definition to_lower (c : ascii) : ascii :=
  if is_upper c then ascii_of_N (code c + 32) else c.

(** [hay.includes(needle)] *)
Fixpoint includes (needle hay : string) : bool :=
  match hay with
  | EmptyString => prefix needle hay
  | String _ hay' => (prefix needle hay || includes needle hay')%bool
  end.

Fixpoint trimStart (s : string) : string :=
  match s with
  | EmptyString => EmptyString
  | String c s' => if is_space c then trimStart s' else s
  end.

Fixpoint trimEnd (s : string) : string :=
  match s with
  | EmptyString => EmptyString
  | String c s' =>
      match trimEnd s' with
      | EmptyString => if is_space c then EmptyString else String c EmptyString
      | t => String c t
      end
  end.

Definition trim (s : string) : string := trimEnd (trimStart s).

(** [s.slice(0, n)] *)
Fixpoint take (n : nat) (s : string) : string :=
  match n, s with
  | S n', String c s' => String c (take n' s')
  | _, _ => EmptyString
  end.

(** [s.slice(n)] *)
Fixpoint drop (n : nat) (s : string) : string :=
  match n, s with
  | S n', String _ s' => drop n' s'
  | _, _ => s
  end.

(** [s.charAt(0).toUpperCase() + s.slice(1)]; the first code unit of the
    text it is applied to is an ASCII letter, digit or underscore. *)
Definition capitalize (s : string) : string :=
  match s with
  | EmptyString => EmptyString
  | String c s' => String (to_upper c) s'
  end.

Fixpoint remove_chars (p : ascii -> bool) (s : string) : string :=
  match s with
  | EmptyString => EmptyString
  | String c s' => if p c then remove_chars p s' else String c (remove_chars p s')
  end.

(** [s] with the letters [A] to [Z] in lower case. *)
Fixpoint lower (s : string) : string :=
  match s with
  | EmptyString => EmptyString
  | String c s' => String (to_lower c) (lower s')
  end.

(** The double quote, code unit 34. *)
Definition dquote : ascii := ascii_of_N 34.

End JsString.

(* ------------------------------------------------------------------ *)
(** * Regular expressions

    A backtracking matcher in the style of the ECMAScript specification.
    [run r s] lists the states in which a match of [r] started in [s] can
    end, in the order in which a backtracking engine tries them; the head
    of the list is the match JavaScript reports.  No pattern of the program
    has a capture group under a quantifier, so captures are not reset
    between iterations. *)

Module Regex.
Import JsString.

Inductive re : Type :=
| Cls (neg : bool) (p : ascii -> bool)
| Eps
| Seq (r1 r2 : re)
| Alt (r1 r2 : re)
| Rep (min : nat) (max : option nat) (greedy : bool) (r : re)
| Grp (n : nat) (r : re)
| Bol
| Eol
| WordB.

Record state : Type := mkState {
  prev : option ascii;          (* the code unit before the position *)
  rest : string;                (* the input from the position on *)
  caps : list (nat * string)    (* captures, latest first *)
}.

(** A class under the [i] flag matches [c] when some member of the class
    has the canonical form of [c]. *)
Definition cls_hit (ic : bool) (p : ascii -> bool) (c : ascii) : bool :=
  if ic then (p c || p (to_upper c) || p (to_lower c))%bool else p c.

Definition word_opt (o : option ascii) : bool :=
  match o with
  | Some c => is_word c
  | None => false
  end.

Definition next (s : state) : option ascii :=
  match rest s with
  | EmptyString => None
  | String c _ => Some c
  end.

Definition progress (s s' : state) : bool :=
  Nat.ltb (String.length (rest s')) (String.length (rest s)).

Definition consumed (s s' : state) : string :=
  take (String.length (rest s) - String.length (rest s')) (rest s).

Definition dec_max (max : option nat) : option nat :=
  match max with
  | Some k => Some (Nat.pred k)
  | None => None
  end.

Definition exhausted (max : option nat) : bool :=
  match max with
  | Some 0 => true
  | _ => false
  end.

Fixpoint rep_loop (step : state -> list state) (greedy : bool)
    (fuel min : nat) (max : option nat) (s : state) : list state :=
  match fuel with
  | 0 => [s]
  | S fuel' =>
      if exhausted max then [s]
      else
        match min with
        | S min' =>
            flat_map (rep_loop step greedy fuel' min' (dec_max max)) (step s)
        | 0 =>
            let more :=
              flat_map (fun s' =>
                          if progress s s'
                          then rep_loop step greedy fuel' 0 (dec_max max) s'
                          else [])
                       (step s) in
            if greedy then more ++ [s] else s :: more
        end
  end.

Fixpoint run (ic : bool) (r : re) (s : state) : list state :=
  match r with
  | Cls neg p =>
      match rest s with
      | EmptyString => []
      | String c t =>
          if xorb neg (cls_hit ic p c)
          then [mkState (Some c) t (caps s)]
          else []
      end
  | Eps => [s]
  | Seq r1 r2 => flat_map (run ic r2) (run ic r1 s)
  | Alt r1 r2 => run ic r1 s ++ run ic r2 s
  | Rep min max greedy r' =>
      rep_loop (run ic r') greedy (min + String.length (rest s) + 1) min max s
  | Grp n r' =>
      map (fun s' => mkState (prev s') (rest s') ((n, consumed s s') :: caps s'))
          (run ic r' s)
  | Bol => match prev s with None => [s] | Some _ => [] end
  | Eol => match rest s with EmptyString => [s] | String _ _ => [] end
  | WordB => if xorb (word_opt (prev s)) (word_opt (next s)) then [s] else []
  end.

(** The array that [exec] returns: element 0 and the capture groups. *)
Record match_result : Type := mkMatch {
  matched : string;
  groups : list (nat * string)
}.

Fixpoint lookup (g : nat) (l : list (nat * string)) : option string :=
  match l with
  | [] => None
  | (n, t) :: l' => if Nat.eqb n g then Some t else lookup g l'
  end.

(** [m[g]] for [g >= 1]; [undefined] when the group took no part. *)
Definition group (g : nat) (m : match_result) : option string :=
  lookup g (groups m).

Definition match_at (ic : bool) (r : re) (p : option ascii) (t : string)
  : option match_result :=
  let s := mkState p t [] in
  match run ic r s with
  | s' :: _ => Some (mkMatch (consumed s s') (caps s'))
  | [] => None
  end.

Fixpoint exec_from (ic : bool) (r : re) (p : option ascii) (t : string)
  : option match_result :=
  match match_at ic r p t with
  | Some m => Some m
  | None =>
      match t with
      | EmptyString => None
      | String c t' => exec_from ic r (Some c) t'
      end
  end.

(** [text.match(/r/)] and [text.match(/r/i)]: the leftmost match. *)
Definition exec (ic : bool) (r : re) (text : string) : option match_result :=
  exec_from ic r None text.

(** [/r/.test(text)] *)
Definition test (ic : bool) (r : re) (text : string) : bool :=
  match exec ic r text with
  | Some _ => true
  | None => false
  end.

(** [text.replace(/r/g, by)], for patterns that match no empty string. *)
Fixpoint replace_from (ic : bool) (r : re) (by_ : string) (fuel : nat)
    (p : option ascii) (t : string) : string :=
  match fuel with
  | 0 => t
  | S fuel' =>
      match t with
      | EmptyString => EmptyString
      | String c t' =>
          match match_at ic r p t with
          | Some m =>
              match String.length (matched m) with
              | 0 => String c (replace_from ic r by_ fuel' (Some c) t')
              | S k =>
                  by_ ++ replace_from ic r by_ fuel'
                           (Some (match get k t with Some d => d | None => c end))
                           (drop (S k) t)
              end
          | None => String c (replace_from ic r by_ fuel' (Some c) t')
          end
      end
  end.

Definition replace_all (ic : bool) (r : re) (by_ : string) (text : string) : string :=
  replace_from ic r by_ (S (String.length text)) None text.

(** ** Pattern syntax *)

Definition chr (c : ascii) : re := Cls false (Ascii.eqb c).
Definition one_of (p : ascii -> bool) : re := Cls false p.
Definition none_of (p : ascii -> bool) : re := Cls true p.
Definition dot : re := Cls true is_line_terminator.
Definition digit : re := one_of is_digit.
Definition space : re := one_of is_space.
Definition word : re := one_of is_word.

Fixpoint lit (s : string) : re :=
  match s with
  | EmptyString => Eps
  | String c EmptyString => chr c
  | String c s' => Seq (chr c) (lit s')
  end.

Definition star (r : re) : re := Rep 0 None true r.
Definition plus (r : re) : re := Rep 1 None true r.
Definition plus_lazy (r : re) : re := Rep 1 None false r.
Definition opt (r : re) : re := Rep 0 (Some 1) true r.
Definition times (n : nat) (r : re) : re := Rep n (Some n) true r.
Definition between (lo hi : nat) (r : re) : re := Rep lo (Some hi) true r.

Fixpoint seq (l : list re) : re :=
  match l with
  | [] => Eps
  | [r] => r
  | r :: l' => Seq r (seq l')
  end.

Fixpoint alt (l : list re) : re :=
  match l with
  | [] => Cls false (fun _ => false)
  | [r] => r
  | r :: l' => Alt r (alt l')
  end.

Definition char_in (s : string) (c : ascii) : bool :=
  existsb (Ascii.eqb c) (list_ascii_of_string s).

(** [defines g r]: group [g] lies on every path through [r], outside of
    any quantifier. *)
Fixpoint defines (g : nat) (r : re) : bool :=
  match r with
  | Grp n r' => (Nat.eqb n g || defines g r')%bool
  | Seq r1 r2 => (defines g r1 || defines g r2)%bool
  | Alt r1 r2 => (defines g r1 && defines g r2)%bool
  | _ => false
  end.

(** [s'] has the captures of [s] and possibly more. *)
Definition extends (s s' : state) : Prop :=
  exists ext, caps s' = ext ++ caps s.

End Regex.


(* ------------------------------------------------------------------ *)
(** * Numbers

    binary64 values with the operations the program uses.  Decimal text is
    read by [parseFloat] and [parseInt] and written by [toString] and
    [toFixed] with exact integer arithmetic, rounded once, to nearest and
    ties to even. *)

Module JsNum.
Import JsString.
Local Open Scope string_scope.
Local Open Scope Z_scope.

Definition number : Type := spec_float.

Definition prec : Z := 53.
Definition emax : Z := 1024.

Definition nan : number := S754_nan.
Definition infinity : number := S754_infinity false.

(** The binary64 value nearest to [n / d], for [0 <= n] and [0 < d]. *)
Definition of_ratio (n d : Z) : number :=
  match n, d with
  | Zpos p, Zpos q => SFdiv prec emax (S754_finite false p 0) (S754_finite false q 0)
  | _, _ => S754_zero false
  end.

Definition of_Z (z : Z) : number :=
  match z with
  | Zneg p => SFopp (of_ratio (Zpos p) 1)
  | _ => of_ratio z 1
  end.

Definition div : number -> number -> number := SFdiv prec emax.
Definition mul : number -> number -> number := SFmul prec emax.

(** [a > b] *)
Definition gt (a b : number) : bool := SFltb b a.

(** [a === b] on numbers *)
Definition strict_eq (a b : number) : bool := SFeqb a b.

(** Truthiness: every number but [0], [-0] and [NaN]. *)
Definition truthy (x : number) : bool :=
  match x with
  | S754_zero _ => false
  | S754_nan => false
  | _ => true
  end.

Definition truthy_opt (o : option number) : bool :=
  match o with
  | Some x => truthy x
  | None => false
  end.

(** ** Reading decimal text *)

Definition digit_val (c : ascii) : Z := Z.of_N (code c) - 48.

(** The digits at the head of [s]: their value, their count, what follows. *)
Fixpoint read_digits (s : string) (acc : Z) (count : nat) : Z * nat * string :=
  match s with
  | String c s' =>
      if is_digit c then read_digits s' (10 * acc + digit_val c) (S count)
      else (acc, count, s)
  | EmptyString => (acc, count, s)
  end.

Definition read_sign (s : string) : bool * string :=
  match s with
  | String "-" s' => (true, s')
  | String "+" s' => (false, s')
  | _ => (false, s)
  end.

(** An exponent part [e], [e+] or [e-] followed by at least one digit. *)
Definition read_exponent (s : string) : Z :=
  match s with
  | String c s' =>
      if (Ascii.eqb c "e" || Ascii.eqb c "E")%bool then
        let '(sg, s'') := read_sign s' in
        let '(v, k, _) := read_digits s'' 0 0%nat in
        match k with
        | O => 0
        | S _ => if sg then - v else v
        end
      else 0
  | EmptyString => 0
  end.

Definition scale10 (sg : bool) (m e : Z) : number :=
  let x := if 0 <=? e then of_ratio (m * 10 ^ e) 1 else of_ratio m (10 ^ (- e)) in
  match m with
  | Z0 => S754_zero sg
  | _ => if sg then SFopp x else x
  end.

(** [parseFloat(s)]: the longest prefix of the trimmed text that is a
    decimal literal. *)
Definition parseFloat (s : string) : number :=
  let '(sg, s1) := read_sign (trimStart s) in
  if prefix "Infinity" s1 then S754_infinity sg
  else
    let '(ip, ik, s2) := read_digits s1 0 0%nat in
    let '(m, fk, s3) :=
      match s2 with
      | String "." s2' =>
          let '(m, fk, s3) := read_digits s2' ip 0%nat in
          match ik, fk with
          | O, O => (ip, 0%nat, s2)
          | _, _ => (m, fk, s3)
          end
      | _ => (ip, 0%nat, s2)
      end in
    match ik, fk with
    | O, O => nan
    | _, _ => scale10 sg m (read_exponent s3 - Z.of_nat fk)
    end.

Definition hex_val (c : ascii) : option Z :=
  if is_digit c then Some (digit_val c)
  else if in_range 97 102 c then Some (Z.of_N (code c) - 87)
  else if in_range 65 70 c then Some (Z.of_N (code c) - 55)
  else None.

Fixpoint read_hex (s : string) (acc : Z) (count : nat) : Z * nat :=
  match s with
  | String c s' =>
      match hex_val c with
      | Some v => read_hex s' (16 * acc + v) (S count)
      | None => (acc, count)
      end
  | EmptyString => (acc, count)
  end.

Definition signed_int (sg : bool) (v : Z) : number :=
  match v with
  | Z0 => S754_zero sg
  | _ => if sg then SFopp (of_Z v) else of_Z v
  end.

(** [parseInt(s)], no radix given. *)
Definition parseInt (s : string) : number :=
  let '(sg, s1) := read_sign (trimStart s) in
  let hex :=
    match s1 with
    | String "0" (String x s2) =>
        if (Ascii.eqb x "x" || Ascii.eqb x "X")%bool then Some s2 else None
    | _ => None
    end in
  match hex with
  | Some s2 =>
      match read_hex s2 0 0%nat with
      | (_, O) => nan
      | (v, S _) => signed_int sg v
      end
  | None =>
      match read_digits s1 0 0%nat with
      | (_, O, _) => nan
      | (v, S _, _) => signed_int sg v
      end
  end.

(** ** Writing decimal text *)

Definition digit_char (d : Z) : ascii := ascii_of_N (Z.to_N (48 + d)).

Fixpoint digits_fuel (fuel : nat) (n : Z) (acc : string) : string :=
  match fuel with
  | O => acc
  | S fuel' =>
      let acc' := String (digit_char (n mod 10)) acc in
      if n / 10 =? 0 then acc' else digits_fuel fuel' (n / 10) acc'
  end.

(** The decimal digits of [n >= 0]. *)
Definition digits (n : Z) : string :=
  digits_fuel (S (Z.to_nat (Z.log2 n))) n EmptyString.

Definition int_to_string (z : Z) : string :=
  if z <? 0 then String "-" (digits (- z)) else digits z.

Fixpoint zeros (k : nat) : string :=
  match k with
  | O => EmptyString
  | S k' => String "0" (zeros k')
  end.

(** The exact value of a positive finite number, as a fraction. *)
Definition fraction (m : positive) (e : Z) : Z * Z :=
  if 0 <=? e then (Zpos m * 2 ^ e, 1) else (Zpos m, 2 ^ (- e)).

(** The least [n] with [num / den < 10 ^ n]. *)
Fixpoint magnitude_up (fuel : nat) (num den : Z) (n : Z) : Z :=
  match fuel with
  | O => n
  | S fuel' => if num <? den then n else magnitude_up fuel' num (10 * den) (n + 1)
  end.

Fixpoint magnitude_down (fuel : nat) (num den : Z) (n : Z) : Z :=
  match fuel with
  | O => n
  | S fuel' => if 10 * num <? den then magnitude_down fuel' (10 * num) den (n - 1) else n
  end.

Definition magnitude (num den : Z) : Z :=
  if num <? den then magnitude_down 400 num den 0 else magnitude_up 400 num den 0.

(** [s * 10 ^ e] as a number. *)
Definition of_decimal (s e : Z) : number :=
  if 0 <=? e then of_ratio (s * 10 ^ e) 1 else of_ratio s (10 ^ (- e)).

(** The shortest digit string [s] of [k] digits, with its exponent [n],
    such that [s * 10 ^ (n - k)] reads back as [x]; the candidate nearest
    to [x] when two of them do. *)
Fixpoint shortest (fuel : nat) (x : number) (num den n0 : Z) (k : Z) : Z * Z * Z :=
  let e := n0 - k in
  let '(qn, qd) := if 0 <=? e then (num, den * 10 ^ e) else (num * 10 ^ (- e), den) in
  let lo := qn / qd in
  let hi := lo + 1 in
  let r := qn mod qd in
  let ok_lo := SFeqb (of_decimal lo e) x in
  let ok_hi := SFeqb (of_decimal hi e) x in
  let pick c := if c =? 10 ^ k then (10 ^ (k - 1), k, n0 + 1) else (c, k, n0) in
  let lo_nearer := orb (2 * r <? qd) (andb (2 * r =? qd) (Z.even lo)) in
  match fuel with
  | O => pick lo
  | S fuel' =>
      if andb ok_lo ok_hi then (if lo_nearer then pick lo else pick hi)
      else if ok_lo then pick lo
      else if ok_hi then pick hi
      else shortest fuel' x num den n0 (k + 1)
  end.

Definition insert_point (n : nat) (s : string) : string :=
  take n s ++ String "." (drop n s).

(** [String(x)] *)
Definition toString (x : number) : string :=
  match x with
  | S754_nan => "NaN"
  | S754_zero _ => "0"
  | S754_infinity sg => if sg then "-Infinity" else "Infinity"
  | S754_finite sg m e =>
      let '(num, den) := fraction m e in
      let '(s, k, n) := shortest 20 (S754_finite false m e) num den (magnitude num den) 1 in
      let ds := digits s in
      let body :=
        if andb (k <=? n) (n <=? 21) then ds ++ zeros (Z.to_nat (n - k))
        else if andb (0 <? n) (n <=? 21) then insert_point (Z.to_nat n) ds
        else if andb (-6 <? n) (n <=? 0) then "0." ++ zeros (Z.to_nat (- n)) ++ ds
        else
          let ex := (if 0 <=? n - 1 then "+" else "-") ++ digits (Z.abs (n - 1)) in
          if k =? 1 then ds ++ "e" ++ ex
          else insert_point 1 ds ++ "e" ++ ex in
      if sg then String "-" body else body
  end.

(** [x.toFixed(2)] *)
Definition toFixed2 (x : number) : string :=
  match x with
  | S754_finite sg m e =>
      let '(num, den) := fraction m e in
      if 10 ^ 21 * den <=? num then toString x
      else
        let n := (2 * 100 * num + den) / (2 * den) in
        let ds := digits n in
        let ds := zeros (3 - String.length ds) ++ ds in
        let body := insert_point (String.length ds - 2) ds in
        if sg then String "-" body else body
  | S754_zero _ => "0.00"
  | _ => toString x
  end.

End JsNum.

(* ------------------------------------------------------------------ *)
(** * The parsed document

    The tree of elements and text nodes that jsdom's HTML parser returns.
    Tag and attribute names are lower case, as the parser leaves them;
    comments carry no text and are left out.  Markup without a doctype
    puts the document in quirks mode, where a class selector matches a
    class name whatever the case of its letters [A] to [Z]; with a doctype
    class names compare case sensitively.  An element is handled together
    with the chain of its ancestors, nearest first, which is what
    [closest] and [parentElement] walk, and with the mode of its
    document. *)

Module Dom.
Import JsString.

Inductive node : Type :=
| Text (data : string)
| Elem (tag : string) (attrs : list (string * string)) (children : list node).

Record element : Type := mkElement {
  self : node;
  parents : list node;
  quirks : bool                 (* the document of the element is in quirks mode *)
}.

Definition tagName (n : node) : string :=
  match n with
  | Elem t _ _ => t
  | Text _ => EmptyString
  end.

Definition attributes (n : node) : list (string * string) :=
  match n with
  | Elem _ a _ => a
  | Text _ => []
  end.

Definition childNodes (n : node) : list node :=
  match n with
  | Elem _ _ k => k
  | Text _ => []
  end.

Definition is_element (n : node) : bool :=
  match n with
  | Elem _ _ _ => true
  | Text _ => false
  end.

(** [el.children.length] *)
Definition childElementCount (n : node) : nat :=
  List.length (filter is_element (childNodes n)).

Fixpoint textContent (n : node) : string :=
  match n with
  | Text s => s
  | Elem _ _ kids =>
      (fix all (l : list node) : string :=
         match l with
         | [] => EmptyString
         | k :: l' => (textContent k ++ all l')%string
         end) kids
  end.

Fixpoint assoc (name : string) (l : list (string * string)) : option string :=
  match l with
  | [] => None
  | (k, v) :: l' => if String.eqb k name then Some v else assoc name l'
  end.

(** [el.getAttribute(name)] *)
Definition getAttribute (name : string) (e : element) : option string :=
  assoc name (attributes (self e)).

(** [n] and the elements below it, in document order, in a document of
    mode [mode]. *)
Fixpoint subtree (mode : bool) (above : list node) (n : node) : list element :=
  match n with
  | Text _ => []
  | Elem _ _ kids =>
      mkElement n above mode ::
      (fix all (l : list node) : list element :=
         match l with
         | [] => []
         | k :: l' => subtree mode (n :: above) k ++ all l'
         end) kids
  end.

(** The elements strictly below [e], in document order. *)
Definition descendants (e : element) : list element :=
  tl (subtree (quirks e) (parents e) (self e)).

(** The ancestors of an element, as elements. *)
Fixpoint lift (mode : bool) (above : list node) : list element :=
  match above with
  | [] => []
  | a :: above' => mkElement a above' mode :: lift mode above'
  end.

Definition parentElement (e : element) : option element :=
  hd_error (lift (quirks e) (parents e)).

(** ** Selectors *)

(** ASCII white space, which separates the tokens of a [class]
    attribute: TAB, LF, FF, CR and SP. *)
Definition is_ascii_whitespace (c : ascii) : bool :=
  (N.eqb (code c) 9 || N.eqb (code c) 10 || N.eqb (code c) 12
   || N.eqb (code c) 13 || N.eqb (code c) 32)%bool.

(** The tokens of a [class] attribute. *)
Fixpoint tokens (s : string) (cur : string) : list string :=
  match s with
  | EmptyString => match cur with EmptyString => [] | _ => [cur] end
  | String c s' =>
      if is_ascii_whitespace c
      then match cur with
           | EmptyString => tokens s' EmptyString
           | _ => cur :: tokens s' EmptyString
           end
      else tokens s' (cur ++ String c EmptyString)%string
  end.

Definition classList (n : node) : list string :=
  match assoc "class" (attributes n) with
  | Some v => tokens v EmptyString
  | None => []
  end.

(** A compound selector: [tag], [.class], [[attr*="text"]] or a
    conjunction of them. *)
Record compound : Type := mkCompound {
  sel_tag : option string;
  sel_class : option string;
  sel_attr : option (string * string)
}.

Definition by_tag (t : string) : compound := mkCompound (Some t) None None.
Definition by_class (c : string) : compound := mkCompound None (Some c) None.
Definition by_attr (a v : string) : compound := mkCompound None None (Some (a, v)).
Definition by_tag_attr (t a v : string) : compound :=
  mkCompound (Some t) None (Some (a, v)).

(** A class selector against a class name: case sensitive, and in quirks
    mode up to the case of the letters [A] to [Z]. *)
Definition class_eqb (mode : bool) (k name : string) : bool :=
  if mode then String.eqb (lower k) (lower name) else String.eqb k name.

Definition matches_compound (mode : bool) (c : compound) (n : node) : bool :=
  (is_element n
   && match sel_tag c with
      | Some t => String.eqb (tagName n) t
      | None => true
      end
   && match sel_class c with
      | Some k => existsb (class_eqb mode k) (classList n)
      | None => true
      end
   && match sel_attr c with
      | Some (a, v) =>
          match assoc a (attributes n), v with
          | Some _, EmptyString => false
          | Some w, _ => includes v w
          | None, _ => false
          end
      | None => true
      end)%bool.

(** A compound selector alone, or under a descendant combinator. *)
Inductive complex : Type :=
| Only (c : compound)
| Inside (outer c : compound).

Definition selector : Type := list complex.

Definition matches_complex (x : complex) (e : element) : bool :=
  match x with
  | Only c => matches_compound (quirks e) c (self e)
  | Inside outer c =>
      (matches_compound (quirks e) c (self e)
       && existsb (matches_compound (quirks e) outer) (parents e))%bool
  end.

Definition matches (sel : selector) (e : element) : bool :=
  existsb (fun x => matches_complex x e) sel.

(** [el.querySelectorAll(sel)] and [el.querySelector(sel)] *)
Definition querySelectorAll (sel : selector) (e : element) : list element :=
  filter (matches sel) (descendants e).

Definition querySelector (sel : selector) (e : element) : option element :=
  hd_error (querySelectorAll sel e).

(** [el.closest(sel)] *)
Definition closest (sel : selector) (e : element) : option element :=
  find (matches sel) (e :: lift (quirks e) (parents e)).

(** ** Documents

    The parser always builds [html], [head] and [body], whatever the
    markup was.  [quirks_mode] is set when the markup had no doctype
    ([document.compatMode] is then [BackCompat]). *)
Record document : Type := mkDocument {
  html_attrs : list (string * string);
  head : list node;
  body_attrs : list (string * string);
  body_children : list node;
  quirks_mode : bool
}.

Definition body_node (d : document) : node :=
  Elem "body" (body_attrs d) (body_children d).

Definition documentElement (d : document) : node :=
  Elem "html" (html_attrs d) [Elem "head" [] (head d); body_node d].

(** [doc.body] *)
Definition body (d : document) : element :=
  mkElement (body_node d) [documentElement d] (quirks_mode d).

(** [doc.querySelectorAll(sel)] and [doc.querySelector(sel)] *)
Definition docQuerySelectorAll (sel : selector) (d : document) : list element :=
  filter (matches sel) (subtree (quirks_mode d) [] (documentElement d)).

Definition docQuerySelector (sel : selector) (d : document) : option element :=
  hd_error (docQuerySelectorAll sel d).

End Dom.

(** The first element of a list for which [f] answers, as a
    [for ... of] loop with [break] finds it. *)
Fixpoint first_some {A B : Type} (f : A -> option B) (l : list A) : option B :=
  match l with
  | [] => None
  | a :: l' =>
      match f a with
      | Some b => Some b
      | None => first_some f l'
      end
  end.

(** A JavaScript [Set] of strings, in insertion order. *)
Module StrSet.

Definition t : Type := list string.

Definition has (x : string) (s : t) : bool := existsb (String.eqb x) s.

Definition add (x : string) (s : t) : t := if has x s then s else s ++ [x].

(** Adding the elements of [l] in turn. *)
Definition add_all (l : list string) (s : t) : t :=
  fold_left (fun s x => add x s) l s.

(** [new Set(l)] *)
Definition of_list (l : list string) : t := add_all l [].

End StrSet.

(** [m[g]] read as a string.  An undefined group is modelled as raising at
    the read: that is what the method call that follows it in the program
    does ([.trim()], [.replace()]); at the few places that pass the group
    on without a call the model is stricter than the program.  Every group
    the program reads is outside of any alternative and quantifier, so it
    is defined whenever the pattern matched and the case never arises
    ([RegexFacts.capture_defined]). *)
Definition capture (g : nat) (m : Regex.match_result) : result string :=
  deref (Regex.group g m) (fun t => t).

(* ------------------------------------------------------------------ *)
(** * The content fingerprint

    [simpleHash] is the same function, word for word, in both scripts. *)

Module Hash.
Local Open Scope Z_scope.

(** The range of the signed 32-bit integers. *)
Definition int32 (x : Z) : Prop := -2147483648 <= x < 2147483648.

(** [x | 0]: the signed 32-bit integer congruent to [x]. *)
Definition to_int32 (x : Z) : Z := (x + 2 ^ 31) mod 2 ^ 32 - 2 ^ 31.

(** [h << 5] on a 32-bit integer *)
Definition shl5 (h : Z) : Z := to_int32 (h * 32).

(** The body of the loop: [hash = ((hash << 5) - hash) + char; hash |= 0]. *)
Definition step (hash : Z) (char : ascii) : Z :=
  to_int32 (shl5 hash - hash + Z.of_N (N_of_ascii char)).

Fixpoint loop (hash : Z) (str : string) : Z :=
  match str with
  | EmptyString => hash
  | String char str' => loop (step hash char) str'
  end.

Definition digit36 (d : Z) : ascii :=
  if d <? 10 then ascii_of_N (Z.to_N (48 + d)) else ascii_of_N (Z.to_N (87 + d)).

Fixpoint digits36 (fuel : nat) (n : Z) (acc : string) : string :=
  match fuel with
  | O => acc
  | S fuel' =>
      let acc' := String (digit36 (n mod 36)) acc in
      if n / 36 =? 0 then acc' else digits36 fuel' (n / 36) acc'
  end.

(** [n.toString(36)] for a 32-bit integer: at most seven digits. *)
Definition toString36 (n : Z) : string :=
  if n <? 0 then String "-" (digits36 7 (- n) EmptyString)
  else digits36 7 n EmptyString.

Definition hash32 (str : string) : Z := loop 0 str.

Definition simpleHash (str : string) : string := toString36 (hash32 str).

End Hash.

(* ------------------------------------------------------------------ *)
(** * [JSON.stringify] on the values the scripts serialize *)

Module Json.
Import JsString JsNum.
Local Open Scope string_scope.

Definition hex_digit (d : N) : ascii :=
  if N.ltb d 10 then ascii_of_N (48 + d) else ascii_of_N (87 + d).

Definition escape_char (c : ascii) : string :=
  let n := code c in
  if N.eqb n 34 then String "\" (String dquote EmptyString)
  else if N.eqb n 92 then "\\"
  else if N.eqb n 8 then "\b"
  else if N.eqb n 12 then "\f"
  else if N.eqb n 10 then "\n"
  else if N.eqb n 13 then "\r"
  else if N.eqb n 9 then "\t"
  else if N.ltb n 32
       then "\u00" ++ String (hex_digit (N.div n 16)) (String (hex_digit (N.modulo n 16)) EmptyString)
       else String c EmptyString.

Fixpoint escape (s : string) : string :=
  match s with
  | EmptyString => EmptyString
  | String c s' => escape_char c ++ escape s'
  end.

Definition quote (s : string) : string :=
  String dquote (escape s) ++ String dquote EmptyString.

Definition str_opt (o : option string) : string :=
  match o with
  | Some s => quote s
  | None => "null"
  end.

Definition num (x : number) : string :=
  match x with
  | S754_nan => "null"
  | S754_infinity _ => "null"
  | _ => toString x
  end.

Definition num_opt (o : option number) : string :=
  match o with
  | Some x => num x
  | None => "null"
  end.

Fixpoint join (sep : string) (l : list string) : string :=
  match l with
  | [] => EmptyString
  | [x] => x
  | x :: l' => x ++ sep ++ join sep l'
  end.

Definition member (key value : string) : string := quote key ++ ":" ++ value.

Definition object (members : list string) : string := "{" ++ join "," members ++ "}".

Definition array (items : list string) : string := "[" ++ join "," items ++ "]".

End Json.

(* ------------------------------------------------------------------ *)
(** * Patterns shared by the two scripts *)

Module Patterns.
Import JsString Regex.

Definition digit_or_comma (c : ascii) : bool := (is_digit c || char_in "," c)%bool.
Definition alpha_or_space (c : ascii) : bool := (is_alpha c || is_space c)%bool.
Definition street_char (c : ascii) : bool :=
  (is_alpha c || is_digit c || is_space c || char_in ".,#-" c)%bool.
Definition uuid_char (c : ascii) : bool :=
  (in_range 97 102 c || is_digit c || char_in "-" c)%bool.

(** [/\/listings\/detail\/([a-f0-9-]+)/] *)
Definition uuid_re : re :=
  seq [lit "/listings/detail/"; Grp 1 (plus (one_of uuid_char))].

(** [/(\d+\s+[A-Za-z0-9\s.,#-]+,\s*[A-Za-z\s]+,\s*[A-Z]{2}\s*\d{5})/] *)
Definition address_re : re :=
  Grp 1 (seq [plus digit; plus space; plus (one_of street_char); chr ",";
              star space; plus (one_of alpha_or_space); chr ","; star space;
              times 2 (one_of is_upper); star space; times 5 digit]).

(** [/,\s*([A-Za-z\s]+),\s*[A-Z]{2}/] *)
Definition city_re : re :=
  seq [chr ","; star space; Grp 1 (plus (one_of alpha_or_space)); chr ",";
       star space; times 2 (one_of is_upper)].

(** [/([\d,]+)\s*(?:SF|sq\s*ft|square\s*feet)/i] *)
Definition area_unit_re : re :=
  seq [Grp 1 (plus (one_of digit_or_comma)); star space;
       alt [lit "SF"; seq [lit "sq"; star space; lit "ft"];
            seq [lit "square"; star space; lit "feet"]]].

(** [/,/g] and [/[$,]/g] *)
Definition comma_re : re := chr ",".
Definition dollar_comma_re : re := one_of (char_in "$,").

Definition detail_link : Dom.selector :=
  [Dom.Only (Dom.by_tag_attr "a" "href" "/listings/detail/")].

Definition no_vacancies (text : string) : bool :=
  (includes "no available properties" text
   || includes "No vacancies found" text
   || includes "no vacancies" text)%bool.

Definition structure_changed : string :=
  "STRUCTURE_CHANGED: Could not find listing detail links or vacancy status".

End Patterns.

(* ------------------------------------------------------------------ *)
(** * The host of a run

    What [main] meets outside the script.  [fetch url] is what
    [fetchWithRetry] and the parser hand over for a page: the document, or
    the error raised after the last retry.  Every [writeFileSync] of
    [main] is run at most once, so each has its own answer: the write of
    [listings.json], the append of the results to the summary file of the
    workflow inside the [try], and the append of the failure to that file
    inside the [catch].  [summary_file] says whether
    [process.env.GITHUB_STEP_SUMMARY] is set. *)

Module Host.

Record t : Type := mkHost {
  fetch : string -> result Dom.document;
  summary_file : bool;
  write_output : result unit;
  write_summary : result unit;
  write_failure : result unit
}.

(** No write of the run fails. *)
Definition writes_succeed (h : t) : Prop :=
  write_output h = Ok tt
  /\ (summary_file h = true -> write_summary h = Ok tt /\ write_failure h = Ok tt).

(** A host without a summary file whose file system takes the snapshot. *)
Definition quiet (fetch : string -> result Dom.document) : t :=
  mkHost fetch false (Ok tt) (Ok tt) (Ok tt).

End Host.

(* ------------------------------------------------------------------ *)
(** * The first script: listings read from the cards of the index page *)

Module V1.
Import JsString Regex JsNum Dom Patterns.
Local Open Scope string_scope.

Record listing : Type := mkListing {
  id : string;
  title : string;
  address : option string;
  city : option string;
  type : string;
  rent : option number;
  sqft : option number;
  rentPerSF : option number;
  description : string;
  available : string;
  status : string;
  imageUrl : option string;
  detailUrl : string;
  applyUrl : string
}.

(** [/\$[\d,]+(?:\.\d{2})?/] *)
Definition rent_re : re :=
  seq [chr "$"; plus (one_of digit_or_comma); opt (Seq (chr ".") (times 2 digit))].

(** [/^(View|Apply|Map|Details)/i] *)
Definition boilerplate_re : re :=
  Seq Bol (Grp 1 (alt [lit "View"; lit "Apply"; lit "Map"; lit "Details"])).

(** [/\s+/g] *)
Definition spaces_re : re := plus space.

(** [/[A-Z][a-z].{50,500}/] *)
Definition sentence_re : re :=
  seq [one_of is_upper; one_of is_lower; between 50 500 dot].

(** [/available\s*now/i] *)
Definition available_now_re : re := seq [lit "available"; star space; lit "now"].

(** [/available\s+(\w+\s+\d{1,2},?\s*\d{4}|\w+\s+\d{4})/i] *)
Definition available_date_re : re :=
  seq [lit "available"; plus space;
       Grp 1 (Alt (seq [plus word; plus space; between 1 2 digit; opt (chr ",");
                        star space; times 4 digit])
                  (seq [plus word; plus space; times 4 digit]))].

(** [/commercial\s*type:\s*(\w+)/i] *)
Definition commercial_type_re : re :=
  seq [lit "commercial"; star space; lit "type:"; star space; Grp 1 (plus word)].

(** [/lease\s*type:\s*([A-Za-z\s]+?)(?:\s*Available|\s*$)/i] *)
Definition lease_type_re : re :=
  seq [lit "lease"; star space; lit "type:"; star space;
       Grp 1 (plus_lazy (one_of alpha_or_space));
       Alt (Seq (star space) (lit "Available")) (Seq (star space) Eol)].

(** [/\b(office|retail|industrial|warehouse|mixed[- ]use|medical|flex)\b/i] *)
Definition vocabulary_re : re :=
  seq [WordB;
       Grp 1 (alt [lit "office"; lit "retail"; lit "industrial"; lit "warehouse";
                   seq [lit "mixed"; one_of (char_in "- "); lit "use"];
                   lit "medical"; lit "flex"]);
       WordB].

Definition typePatterns : list (re * nat) :=
  [(commercial_type_re, 1); (lease_type_re, 1); (vocabulary_re, 1)].

(** [/\$([\d.]+)\s*\/(?:yr|mo|sf)/i] *)
Definition rate_re : re :=
  seq [chr "$"; Grp 1 (plus (one_of (fun c => is_digit c || char_in "." c)%bool));
       star space; chr "/"; alt [lit "yr"; lit "mo"; lit "sf"]].

Definition headings : selector :=
  [Only (by_tag "h1"); Only (by_tag "h2"); Only (by_tag "h3");
   Only (by_tag "h4"); Only (by_tag "h5")].

Definition paragraphs : selector :=
  [Only (by_tag "p"); Only (by_class "description"); Only (by_attr "class" "desc")].

(** ** Field extractors, in the order of [extractListingData] *)

Definition extract_rent (text : string) : option number :=
  match exec false rent_re text with
  | Some m => Some (parseFloat (replace_all false dollar_comma_re "" (matched m)))
  | None => None
  end.

Definition extract_sqft (text : string) : result (option number) :=
  match exec true area_unit_re text with
  | Some m =>
      let* g := capture 1 m in
      Ok (Some (parseInt (replace_all false comma_re "" g)))
  | None => Ok None
  end.

Definition extract_address (text : string) : result (option string) :=
  match exec false address_re text with
  | Some m => let* g := capture 1 m in Ok (Some (trim g))
  | None => Ok None
  end.

Definition heading_title (card : element) : option string :=
  first_some (fun h =>
                let hText := trim (textContent (self h)) in
                if (Nat.ltb 3 (String.length hText) && Nat.ltb (String.length hText) 200)%bool
                then Some hText else None)
             (querySelectorAll headings card).

Definition link_title (card : element) : option string :=
  match querySelector detail_link card with
  | Some detailLink =>
      let linkText := trim (textContent (self detailLink)) in
      if (Nat.ltb 5 (String.length linkText)
          && negb (test true boilerplate_re linkText))%bool
      then Some linkText else None
  | None => None
  end.

Definition synthesized_title (uuid : string) : string :=
  "Listing " ++ take 8 uuid.

Definition extract_title (card : element) (address : option string) (uuid : string)
  : string :=
  let title := heading_title card in
  let title := if truthy_str title then title else link_title card in
  match title with
  | Some (String c t) => String c t
  | _ =>
      match or_else address (Some (synthesized_title uuid)) with
      | Some t => t
      | None => EmptyString
      end
  end.

Definition extract_description (card : element) : string :=
  let description :=
    first_some (fun p =>
                  let pText := trim (textContent (self p)) in
                  if (Nat.ltb 30 (String.length pText)
                      && negb (includes "Privacy Policy" pText))%bool
                  then Some pText else None)
               (querySelectorAll paragraphs card) in
  match description with
  | Some (String c t) => String c t
  | _ =>
      let allText := trim (replace_all false spaces_re " " (textContent (self card))) in
      match exec false sentence_re allText with
      | Some m =>
          let d := trim (matched m) in
          if Nat.ltb 300 (String.length d) then take 297 d ++ "..." else d
      | None => EmptyString
      end
  end.

Definition extract_available (text : string) : result string :=
  if test true available_now_re text then Ok "Now"
  else
    match exec true available_date_re text with
    | Some m => capture 1 m
    | None => Ok "Contact for availability"
    end.

Fixpoint first_type (patterns : list (re * nat)) (text : string) : result string :=
  match patterns with
  | [] => Ok "Commercial"
  | (pattern, g) :: patterns' =>
      match exec true pattern text with
      | Some m => let* t := capture g m in Ok (capitalize (trim t))
      | None => first_type patterns' text
      end
  end.

Definition extract_type (text : string) : result string :=
  first_type typePatterns text.

Definition derived_rate (rent sqft : option number) : option number :=
  match rent, sqft with
  | Some r, Some a =>
      if (truthy r && truthy a)%bool
      then Some (parseFloat (toFixed2 (mul (div r a) (of_Z 12))))
      else None
  | _, _ => None
  end.

Definition extract_rentPerSF (text : string) (rent sqft : option number)
  : result (option number) :=
  match exec true rate_re text with
  | Some m => let* g := capture 1 m in Ok (Some (parseFloat g))
  | None => Ok (derived_rate rent sqft)
  end.

Definition extract_imageUrl (card : element) : option string :=
  match querySelector [Only (by_tag "img")] card with
  | Some img =>
      let src := or_else (getAttribute "src" img) (getAttribute "data-src" img) in
      match src with
      | Some (String c t) =>
          if includes "place_holder" (String c t) then None else Some (String c t)
      | _ => None
      end
  | None => None
  end.

Definition extract_city (address : option string) : result (option string) :=
  match address with
  | Some (String c t) =>
      match exec false city_re (String c t) with
      | Some m => let* g := capture 1 m in Ok (Some (trim g))
      | None => Ok None
      end
  | _ => Ok None
  end.

Definition derive_status (available : string) : string :=
  if String.eqb available "Now" then "available" else "coming-soon".

Definition extractListingData (card : element) (uuid : string) : result listing :=
  let text := textContent (self card) in
  let rent := extract_rent text in
  let* sqft := extract_sqft text in
  let* address := extract_address text in
  let title := extract_title card address uuid in
  let description := extract_description card in
  let* available := extract_available text in
  let* propertyType := extract_type text in
  let* rentPerSF := extract_rentPerSF text rent sqft in
  let imageUrl := extract_imageUrl card in
  let applyUrl :=
    "https://greyrockcommercial.appfolio.com/listings/rental_applications/new?listable_uid="
    ++ uuid ++ "&source=Website" in
  let detailUrl := "https://greyrockcommercial.appfolio.com/listings/detail/" ++ uuid in
  let* city := extract_city address in
  Ok (mkListing uuid title address city propertyType rent sqft rentPerSF
                description available (derive_status available) imageUrl
                detailUrl applyUrl).

(** ** The boundary of a card *)

Definition is_card (current : element) : bool :=
  let childCount := childElementCount (self current) in
  let hasMultipleLinks :=
    Nat.leb 2 (List.length (querySelectorAll [Only (by_tag "a")] current)) in
  let hasText := Nat.ltb 50 (String.length (trim (textContent (self current)))) in
  (Nat.leb 3 childCount && hasMultipleLinks && hasText)%bool.

Fixpoint walk_up (hops : nat) (chain : list element) : option element :=
  match hops, chain with
  | S hops', current :: chain' =>
      if is_card current then Some current else walk_up hops' chain'
  | _, _ => None
  end.

Definition findCardContainer (e : element) : option element :=
  walk_up 10 (lift (quirks e) (parents e)).

Definition find_card (link : element) : option element :=
  match closest [Only (by_class "listing-item")] link with
  | Some card => Some card
  | None =>
      match closest [Only (by_attr "class" "listing")] link with
      | Some card => Some card
      | None =>
          match closest [Only (by_tag "li")] link with
          | Some card => Some card
          | None => findCardContainer link
          end
      end
  end.

(** ** The index page *)

Fixpoint forEach {S A : Type} (f : S -> A -> result S) (l : list A) (st : S)
  : result S :=
  match l with
  | [] => Ok st
  | a :: l' => let* st' := f st a in forEach f l' st'
  end.

(** The callback of [detailLinks.forEach], on the pair of [seenUUIDs] and
    [listings]. *)
Definition visit_link (st : StrSet.t * list listing) (link : element)
  : result (StrSet.t * list listing) :=
  let '(seenUUIDs, listings) := st in
  let href := getAttribute "href" link in
  let* uuidMatch := deref href (exec false uuid_re) in
  match uuidMatch with
  | None => Ok st
  | Some m =>
      let* uuid := capture 1 m in
      if StrSet.has uuid seenUUIDs then Ok st
      else
        let seenUUIDs := StrSet.add uuid seenUUIDs in
        match find_card link with
        | None => Ok (seenUUIDs, listings)
        | Some card =>
            let* listing := extractListingData card uuid in
            Ok (seenUUIDs, listings ++ [listing])%list
        end
  end.

Record parsed : Type := mkParsed {
  listings : list listing;
  noVacancies : bool
}.

Definition parseListings (doc : document) : result parsed :=
  let detailLinks := docQuerySelectorAll detail_link doc in
  if Nat.eqb (List.length detailLinks) 0 then
    if no_vacancies (textContent (self (body doc)))
    then Ok (mkParsed [] true)
    else Throw structure_changed
  else
    let* st := forEach visit_link detailLinks ([], []) in
    Ok (mkParsed (snd st) false).

(** ** Validation *)

Record validation : Type := mkValidation {
  errors : list string;
  warnings : list string;
  valid : bool
}.

Definition push_if (cond : bool) (message : string) (l : list string) : list string :=
  if cond then (l ++ [message])%list else l.

(** [!x && x !== 0] on a number or [null] *)
Definition absent_not_zero (o : option number) : bool :=
  (negb (truthy_opt o)
   && match o with
      | Some x => negb (strict_eq x (S754_zero false))
      | None => true
      end)%bool.

(** [x && x > 1000000] *)
Definition above_million (o : option number) : bool :=
  match o with
  | Some x => (truthy x && gt x (of_Z 1000000))%bool
  | None => false
  end.

Definition shown (o : option number) : string :=
  match o with
  | Some x => toString x
  | None => "null"
  end.

(** The body of the first loop. *)
Definition check_fields (warnings : list string) (l : listing) : list string :=
  let warnings :=
    push_if (negb (truthy_str (address l)))
            ("Listing " ++ id l ++ ": missing address") warnings in
  let warnings :=
    push_if (absent_not_zero (rent l))
            ("Listing " ++ id l ++ ": missing rent") warnings in
  push_if (negb (truthy_opt (sqft l)))
          ("Listing " ++ id l ++ ": missing sqft") warnings.

(** The body of the second loop. *)
Definition check_sanity (warnings : list string) (l : listing) : list string :=
  let warnings :=
    push_if (above_million (rent l))
            ("Listing " ++ id l ++ ": suspiciously high rent $" ++ shown (rent l))
            warnings in
  push_if (above_million (sqft l))
          ("Listing " ++ id l ++ ": suspiciously high sqft " ++ shown (sqft l))
          warnings.

Definition validateListings (listings : list listing) : validation :=
  let warnings := fold_left check_fields listings [] in
  let errors :=
    push_if (Nat.ltb 200 (List.length listings))
            ("Unexpectedly high listing count: "
             ++ int_to_string (Z.of_nat (List.length listings))
             ++ ". Possible parse error.") [] in
  let warnings := fold_left check_sanity listings warnings in
  mkValidation errors warnings (Nat.eqb (List.length errors) 0).

(** ** The snapshot fingerprint *)

(** A record after the geocoding step has added [lat] and [lng]. *)
Record located : Type := mkLocated {
  record : listing;
  lat : number;
  lng : number
}.

Definition stringify_listing (x : located) : string :=
  let l := record x in
  Json.object
    [Json.member "id" (Json.quote (id l));
     Json.member "title" (Json.quote (title l));
     Json.member "address" (Json.str_opt (address l));
     Json.member "city" (Json.str_opt (city l));
     Json.member "type" (Json.quote (type l));
     Json.member "rent" (Json.num_opt (rent l));
     Json.member "sqft" (Json.num_opt (sqft l));
     Json.member "rentPerSF" (Json.num_opt (rentPerSF l));
     Json.member "description" (Json.quote (description l));
     Json.member "available" (Json.quote (available l));
     Json.member "status" (Json.quote (status l));
     Json.member "imageUrl" (Json.str_opt (imageUrl l));
     Json.member "detailUrl" (Json.quote (detailUrl l));
     Json.member "applyUrl" (Json.quote (applyUrl l));
     Json.member "lat" (Json.num (lat x));
     Json.member "lng" (Json.num (lng x))].

(** [JSON.stringify(listings)] *)
Definition stringify (listings : list located) : string :=
  Json.array (map stringify_listing listings).

(** [simpleHash(JSON.stringify(listings))] *)
Definition contentHash (listings : list located) : string :=
  Hash.simpleHash (stringify listings).

(** ** The run

    How [main] ends on a host: with [process.exit(code)]; with an error
    that leaves [main], raised by the write inside the [catch] block; or
    by returning, once the snapshot and the summary are written.  The
    geocoding step and the comparison with the previous snapshot, which
    cannot raise, and the text that is written are left out. *)

Inductive outcome : Type :=
| Exit (code : nat)
| Uncaught (message : string)
| Snapshot (result : parsed) (warnings : list string).

Definition exit_code (message : string) : nat :=
  if includes "STRUCTURE_CHANGED" message then 2 else 1.

Definition APPFOLIO_URL : string :=
  "https://greyrockcommercial.appfolio.com/listings".

(** The [catch] block of [main] on an error with the text [message]. *)
Definition failed (h : Host.t) (message : string) : outcome :=
  if Host.summary_file h then
    match Host.write_failure h with
    | Ok _ => Exit (exit_code message)
    | Throw escaped => Uncaught escaped
    end
  else Exit (exit_code message).

(** Steps 8 and 9 of [main]: the snapshot, then the summary. *)
Definition write_files (h : Host.t) : result unit :=
  let* written := Host.write_output h in
  if Host.summary_file h then Host.write_summary h else Ok tt.

Definition main (h : Host.t) : outcome :=
  match (let* html := Host.fetch h APPFOLIO_URL in parseListings html) with
  | Throw message => failed h message
  | Ok p =>
      let validation := validateListings (listings p) in
      if negb (valid validation) then Exit 3
      else
        match write_files h with
        | Ok _ => Snapshot p (warnings validation)
        | Throw message => failed h message
        end
  end.

End V1.

(* ------------------------------------------------------------------ *)
(** * The second script: identifiers from the index page, one detail page
      per listing *)

Module V2.
Import JsString Regex JsNum Dom Patterns.
Local Open Scope string_scope.

Definition BASE_URL : string := "https://greyrockcommercial.appfolio.com".
Definition APPFOLIO_URL : string := BASE_URL ++ "/listings".

Record listing : Type := mkListing {
  id : string;
  title : string;
  address : option string;
  city : option string;
  type : string;
  leaseType : option string;
  rent : option number;
  sqft : option number;
  rentPerSF : option number;
  description : string;
  available : string;
  status : string;
  utilities : option string;
  imageUrl : option string;
  imageUrls : list string;
  detailUrl : string;
  applyUrl : string
}.

(** ** The index page *)

Record index : Type := mkIndex {
  uuids : list string;
  noVacancies : bool
}.

(** [link.getAttribute('href')?.match(...)?.[1]] *)
Definition link_uuid (link : element) : option string :=
  match getAttribute "href" link with
  | Some href =>
      match exec false uuid_re href with
      | Some m => group 1 m
      | None => None
      end
  | None => None
  end.

(** [.filter(Boolean)] on strings and [undefined] *)
Definition filter_truthy (l : list (option string)) : list string :=
  flat_map (fun o => match o with
                     | Some (String c t) => [String c t]
                     | _ => []
                     end) l.

Definition parseIndexPage (doc : document) : result index :=
  let detailLinks := docQuerySelectorAll detail_link doc in
  if Nat.eqb (List.length detailLinks) 0 then
    if no_vacancies (textContent (self (body doc)))
    then Ok (mkIndex [] true)
    else Throw structure_changed
  else
    let uuids := StrSet.of_list (filter_truthy (map link_uuid detailLinks)) in
    Ok (mkIndex uuids false).

(** ** Patterns of the detail page *)

(** [/^(Current|Rental|Apply)/i] *)
Definition boilerplate_re : re :=
  Seq Bol (Grp 1 (alt [lit "Current"; lit "Rental"; lit "Apply"])).

(** [/(?:RENT|Rent)\s*\$?([\d,]+(?:\.\d{2})?)/] *)
Definition rent_re : re :=
  seq [Alt (lit "RENT") (lit "Rent"); star space; opt (chr "$");
       Grp 1 (Seq (plus (one_of digit_or_comma)) (opt (Seq (chr ".") (times 2 digit))))].

(** [/(?:SQUARE FEET|Square Feet|Sq\.?\s*Ft\.?)\s*([\d,]+)/i] *)
Definition area_label_re : re :=
  seq [alt [lit "SQUARE FEET"; lit "Square Feet";
            seq [lit "Sq"; opt (chr "."); star space; lit "Ft"; opt (chr ".")]];
       star space; Grp 1 (plus (one_of digit_or_comma))].

Definition rate_char (c : ascii) : bool := (is_digit c || char_in ",." c)%bool.

(** [/(?:RENT\s*\/\s*SF|Rent\s*\/\s*SF)\s*\$?([\d,.]+)\s*\/yr/i] *)
Definition rate_label_re : re :=
  seq [Alt (seq [lit "RENT"; star space; chr "/"; star space; lit "SF"])
           (seq [lit "Rent"; star space; chr "/"; star space; lit "SF"]);
       star space; opt (chr "$"); Grp 1 (plus (one_of rate_char)); star space;
       lit "/yr"].

(** [/\$([\d,.]+)\s*\/(?:yr|sf)/i] *)
Definition rate_re : re :=
  seq [chr "$"; Grp 1 (plus (one_of rate_char)); star space; chr "/";
       Alt (lit "yr") (lit "sf")].

Definition available_label : re := Alt (lit "AVAILABLE") (lit "Available").

(** [/(?:AVAILABLE|Available)\s+(\d{1,2}\/\d{1,2}\/\d{2,4})/i] *)
Definition available_slashes_re : re :=
  seq [available_label; plus space;
       Grp 1 (seq [between 1 2 digit; chr "/"; between 1 2 digit; chr "/";
                   between 2 4 digit])].

(** [/(?:AVAILABLE|Available)\s+(Now)/i] *)
Definition available_now_re : re :=
  seq [available_label; plus space; Grp 1 (lit "Now")].

(** [/(?:AVAILABLE|Available)\s+(\w+\s+\d{1,2},?\s*\d{4})/i] *)
Definition available_date_re : re :=
  seq [available_label; plus space;
       Grp 1 (seq [plus word; plus space; between 1 2 digit; opt (chr ",");
                   star space; times 4 digit])].

(** [/Commercial\s*Type:\s*(\w+)/i] *)
Definition commercial_type_re : re :=
  seq [lit "Commercial"; star space; lit "Type:"; star space; Grp 1 (plus word)].

(** [/Lease\s*Type:\s*(\w+)/i] *)
Definition lease_type_re : re :=
  seq [lit "Lease"; star space; lit "Type:"; star space; Grp 1 (plus word)].

(** [/Utilities\s*Included:\s*([^\n]+)/i] *)
Definition utilities_re : re :=
  seq [lit "Utilities"; star space; lit "Included:"; star space;
       Grp 1 (plus (none_of (fun c => N.eqb (code c) 10)))].

(** [/now/i] *)
Definition now_re : re := lit "now".

Definition gallery : selector :=
  [Inside (by_class "gallery") (by_tag "img");
   Inside (by_class "swipebox") (by_tag "img");
   Only (by_tag_attr "img" "class" "gallery")].

Definition headings : selector :=
  [Only (by_tag "h1"); Only (by_tag "h2"); Only (by_tag "h3")].

Definition description_marker : selector :=
  [Only (by_class "listing-detail__description");
   Only (by_attr "class" "listing-detail__description");
   Only (by_class "js-listing-description")].

(** [a || b] on two pattern attempts *)
Definition or_match (a b : option match_result) : option match_result :=
  match a with
  | Some m => Some m
  | None => b
  end.

(** ** Field extractors, in the order of [parseDetailPage] *)

(** [img.getAttribute('src') || img.getAttribute('data-src')] *)
Definition image_src (img : element) : option string :=
  or_else (getAttribute "src" img) (getAttribute "data-src" img).

Definition gallery_image (src : option string) : bool :=
  (truthy_str src
   && match src with
      | Some s => negb (includes "large.png" s) && negb (includes "place_holder" s)
      | None => false
      end)%bool.

Definition cdn_image (src : option string) : bool :=
  (truthy_str src
   && match src with
      | Some s => includes "images.cdn.appfolio.com" s && negb (includes "large.png" s)
      | None => false
      end)%bool.

Definition extract_images (doc : document) : list string :=
  let allImgs := docQuerySelectorAll gallery doc in
  let imageUrls :=
    StrSet.of_list (filter_truthy (filter gallery_image (map image_src allImgs))) in
  if Nat.eqb (List.length imageUrls) 0 then
    fold_left (fun urls img =>
                 let src := image_src img in
                 if cdn_image src
                 then match src with
                      | Some s => if StrSet.has s urls then urls else (urls ++ [s])%list
                      | None => urls
                      end
                 else urls)
              (docQuerySelectorAll [Only (by_tag "img")] doc) imageUrls
  else imageUrls.

Definition heading_title (doc : document) : option string :=
  first_some (fun h =>
                let hText := trim (textContent (self h)) in
                if (Nat.ltb 5 (String.length hText)
                    && Nat.ltb (String.length hText) 300
                    && negb (test true boilerplate_re hText))%bool
                then Some hText else None)
             (docQuerySelectorAll headings doc).

Definition synthesized_title (uuid : string) : string :=
  "Listing " ++ take 8 uuid.

(** [doc.querySelector('title')?.textContent?.trim()] *)
Definition page_title (doc : document) : option string :=
  match docQuerySelector [Only (by_tag "title")] doc with
  | Some t => Some (trim (textContent (self t)))
  | None => None
  end.

Definition extract_title (doc : document) (uuid : string) : string :=
  match heading_title doc with
  | Some (String c t) => String c t
  | _ =>
      match or_else (page_title doc) (Some (synthesized_title uuid)) with
      | Some t => t
      | None => EmptyString
      end
  end.

Definition extract_address (text : string) : result (option string) :=
  match exec false address_re text with
  | Some m => let* g := capture 1 m in Ok (Some (trim g))
  | None => Ok None
  end.

Definition longest_paragraph (doc : document) : string :=
  fold_left (fun longest p =>
               let pText := trim (textContent (self p)) in
               if (Nat.ltb (String.length longest) (String.length pText)
                   && negb (includes "Privacy Policy" pText))%bool
               then pText else longest)
            (docQuerySelectorAll [Only (by_tag "p")] doc) EmptyString.

Definition extract_description (doc : document) : string :=
  let description :=
    match docQuerySelector description_marker doc with
    | Some descEl => trim (textContent (self descEl))
    | None => EmptyString
    end in
  match description with
  | EmptyString => longest_paragraph doc
  | _ => description
  end.

Definition extract_rent (text : string) : result (option number) :=
  match exec false rent_re text with
  | Some m =>
      let* g := capture 1 m in
      Ok (Some (parseFloat (replace_all false comma_re "" g)))
  | None => Ok None
  end.

Definition extract_sqft (text : string) : result (option number) :=
  match or_match (exec true area_label_re text) (exec true area_unit_re text) with
  | Some m =>
      let* g := capture 1 m in
      Ok (Some (parseInt (replace_all false comma_re "" g)))
  | None => Ok None
  end.

Definition extract_rentPerSF (text : string) : result (option number) :=
  match or_match (exec true rate_label_re text) (exec true rate_re text) with
  | Some m =>
      let* g := capture 1 m in
      Ok (Some (parseFloat (replace_all false comma_re "" g)))
  | None => Ok None
  end.

Definition extract_available (text : string) : result string :=
  match or_match (exec true available_slashes_re text)
                 (or_match (exec true available_now_re text)
                           (exec true available_date_re text)) with
  | Some m => let* g := capture 1 m in Ok (trim g)
  | None => Ok "Contact for availability"
  end.

Definition extract_type (text : string) : result string :=
  match exec true commercial_type_re text with
  | Some m => let* g := capture 1 m in Ok (trim g)
  | None => Ok "Commercial"
  end.

Definition extract_label (pattern : re) (text : string) : result (option string) :=
  match exec true pattern text with
  | Some m => let* g := capture 1 m in Ok (Some (trim g))
  | None => Ok None
  end.

Definition extract_city (address : option string) : result (option string) :=
  match address with
  | Some (String c t) =>
      match exec false city_re (String c t) with
      | Some m => let* g := capture 1 m in Ok (Some (trim g))
      | None => Ok None
      end
  | _ => Ok None
  end.

Definition derive_status (available : string) : string :=
  if test true now_re available then "available" else "coming-soon".

Definition parseDetailPage (doc : document) (uuid : string) : result listing :=
  let text := textContent (self (body doc)) in
  let imageUrls := extract_images doc in
  let title := extract_title doc uuid in
  let* address := extract_address text in
  let description := extract_description doc in
  let* rent := extract_rent text in
  let* sqft := extract_sqft text in
  let* rentPerSF := extract_rentPerSF text in
  let* available := extract_available text in
  let* propertyType := extract_type text in
  let* leaseType := extract_label lease_type_re text in
  let* utilities := extract_label utilities_re text in
  let* city := extract_city address in
  let detailUrl := BASE_URL ++ "/listings/detail/" ++ uuid in
  let applyUrl :=
    BASE_URL ++ "/listings/rental_applications/new?listable_uid=" ++ uuid
    ++ "&source=Website" in
  Ok (mkListing uuid title address city propertyType leaseType rent sqft rentPerSF
                description available (derive_status available) utilities
                (hd_error imageUrls) imageUrls detailUrl applyUrl).

(** ** Validation *)

Record validation : Type := mkValidation {
  errors : list string;
  warnings : list string;
  valid : bool
}.

Definition push_if (cond : bool) (message : string) (l : list string) : list string :=
  if cond then (l ++ [message])%list else l.

(** [!x && x !== 0] on a number or [null] *)
Definition absent_not_zero (o : option number) : bool :=
  (negb (truthy_opt o)
   && match o with
      | Some x => negb (strict_eq x (S754_zero false))
      | None => true
      end)%bool.

(** [x && x > 1000000] *)
Definition above_million (o : option number) : bool :=
  match o with
  | Some x => (truthy x && gt x (of_Z 1000000))%bool
  | None => false
  end.

Definition shown (o : option number) : string :=
  match o with
  | Some x => toString x
  | None => "null"
  end.

(** The body of the first loop. *)
Definition check_fields (warnings : list string) (l : listing) : list string :=
  let warnings :=
    push_if (negb (truthy_str (address l)))
            ("Listing " ++ id l ++ ": missing address") warnings in
  let warnings :=
    push_if (absent_not_zero (rent l))
            ("Listing " ++ id l ++ ": missing rent") warnings in
  let warnings :=
    push_if (negb (truthy_opt (sqft l)))
            ("Listing " ++ id l ++ ": missing sqft") warnings in
  push_if (negb (truthy_str (imageUrl l)))
          ("Listing " ++ id l ++ ": no images found") warnings.

(** The body of the second loop. *)
Definition check_sanity (warnings : list string) (l : listing) : list string :=
  let warnings :=
    push_if (above_million (rent l))
            ("Listing " ++ id l ++ ": suspiciously high rent $" ++ shown (rent l))
            warnings in
  push_if (above_million (sqft l))
          ("Listing " ++ id l ++ ": suspiciously high sqft " ++ shown (sqft l))
          warnings.

Definition validateListings (listings : list listing) : validation :=
  let warnings := fold_left check_fields listings [] in
  let errors :=
    push_if (Nat.ltb 200 (List.length listings))
            ("Unexpectedly high listing count: "
             ++ int_to_string (Z.of_nat (List.length listings))) [] in
  let warnings := fold_left check_sanity listings warnings in
  mkValidation errors warnings (Nat.eqb (List.length errors) 0).

(** ** The snapshot fingerprint *)

(** A record after the geocoding step has added [lat] and [lng]. *)
Record located : Type := mkLocated {
  record : listing;
  lat : number;
  lng : number
}.

Definition stringify_listing (x : located) : string :=
  let l := record x in
  Json.object
    [Json.member "id" (Json.quote (id l));
     Json.member "title" (Json.quote (title l));
     Json.member "address" (Json.str_opt (address l));
     Json.member "city" (Json.str_opt (city l));
     Json.member "type" (Json.quote (type l));
     Json.member "leaseType" (Json.str_opt (leaseType l));
     Json.member "rent" (Json.num_opt (rent l));
     Json.member "sqft" (Json.num_opt (sqft l));
     Json.member "rentPerSF" (Json.num_opt (rentPerSF l));
     Json.member "description" (Json.quote (description l));
     Json.member "available" (Json.quote (available l));
     Json.member "status" (Json.quote (status l));
     Json.member "utilities" (Json.str_opt (utilities l));
     Json.member "imageUrl" (Json.str_opt (imageUrl l));
     Json.member "imageUrls" (Json.array (map Json.quote (imageUrls l)));
     Json.member "detailUrl" (Json.quote (detailUrl l));
     Json.member "applyUrl" (Json.quote (applyUrl l));
     Json.member "lat" (Json.num (lat x));
     Json.member "lng" (Json.num (lng x))].

(** [JSON.stringify(listings)] *)
Definition stringify (listings : list located) : string :=
  Json.array (map stringify_listing listings).

(** [simpleHash(JSON.stringify(listings))] *)
Definition contentHash (listings : list located) : string :=
  Hash.simpleHash (stringify listings).

(** ** The run

    How [main] ends on a host: with [process.exit(code)]; with an error
    that leaves [main], raised by the write inside the [catch] block; or
    by returning, once the empty snapshot, or the snapshot and the
    summary, are written.  The geocoding step and the comparison with the
    previous snapshot, which cannot raise, and the text that is written
    are left out. *)

Inductive outcome : Type :=
| Exit (code : nat)
| Uncaught (message : string)
| EmptySnapshot
| Snapshot (listings : list listing) (warnings : list string).

Definition exit_code (message : string) : nat :=
  if includes "STRUCTURE_CHANGED" message then 2 else 1.

(** The body of the loop over [uuids]: a page that cannot be fetched or
    parsed is skipped. *)
Definition visit_detail (fetch : string -> result document)
    (listings : list listing) (uuid : string) : list listing :=
  let detailUrl := BASE_URL ++ "/listings/detail/" ++ uuid in
  match (let* detailHtml := fetch detailUrl in parseDetailPage detailHtml uuid) with
  | Ok l => (listings ++ [l])%list
  | Throw _ => listings
  end.

(** The [catch] block of [main] on an error with the text [message]. *)
Definition failed (h : Host.t) (message : string) : outcome :=
  if Host.summary_file h then
    match Host.write_failure h with
    | Ok _ => Exit (exit_code message)
    | Throw escaped => Uncaught escaped
    end
  else Exit (exit_code message).

(** Steps 9 and 10 of [main]: the snapshot, then the summary. *)
Definition write_files (h : Host.t) : result unit :=
  let* written := Host.write_output h in
  if Host.summary_file h then Host.write_summary h else Ok tt.

Definition main (h : Host.t) : outcome :=
  match (let* indexHtml := Host.fetch h APPFOLIO_URL in parseIndexPage indexHtml) with
  | Throw message => failed h message
  | Ok ix =>
      if (noVacancies ix || Nat.eqb (List.length (uuids ix)) 0)%bool then
        match Host.write_output h with
        | Ok _ => EmptySnapshot
        | Throw message => failed h message
        end
      else
        let listings := fold_left (visit_detail (Host.fetch h)) (uuids ix) [] in
        if Nat.eqb (List.length listings) 0
        then failed h "No listings could be parsed from detail pages"
        else
          let validation := validateListings listings in
          if negb (valid validation) then Exit 3
          else
            match write_files h with
            | Ok _ => Snapshot listings (warnings validation)
            | Throw message => failed h message
            end
  end.

End V2.

(* ------------------------------------------------------------------ *)
(** * The identifiers of an index page *)

Module Identifiers.
Import Dom Patterns.

(** The identifier segments of the detail links, one per anchor that has
    one, in document order. *)
Definition of_links (links : list element) : list string :=
  flat_map (fun link => match V2.link_uuid link with
                        | Some uuid => [uuid]
                        | None => []
                        end) links.

Definition identifiers (doc : document) : list string :=
  of_links (docQuerySelectorAll detail_link doc).

(** The first anchor of [links] whose identifier is [u]: the one at which
    [parseListings] meets [u]. *)
Definition first_link (links : list element) (u : string) : option element :=
  find (fun link => match V2.link_uuid link with
                    | Some v => String.eqb v u
                    | None => false
                    end) links.

(** The first anchor of [u] has a card container. *)
Definition has_card (links : list element) (u : string) : bool :=
  match first_link links u with
  | Some link =>
      match V1.find_card link with
      | Some _ => true
      | None => false
      end
  | None => false
  end.

(** [out] lists its elements by their first occurrence in [l]: when [u]
    comes before [v] in [out], [v] has not occurred in [l] when [u] first
    does. *)
Definition first_seen (l out : list string) : Prop :=
  forall o1 u o2 v o3,
    out = o1 ++ u :: o2 ++ v :: o3 ->
    exists l1 l2, l = l1 ++ u :: l2 /\ ~ In u l1 /\ ~ In v l1.

(** [a] is [b] with some elements left out. *)
Inductive subseq : list string -> list string -> Prop :=
| subseq_nil : subseq [] []
| subseq_skip : forall x a b, subseq a b -> subseq a (x :: b)
| subseq_keep : forall x a b, subseq a b -> subseq (x :: a) (x :: b).

End Identifiers.

(* ------------------------------------------------------------------ *)
(** * Fetching with retries

    [fetchWithRetry] is the same in both scripts up to its log lines.  The
    network is an oracle: [fetch k] is what the [k]-th request gives once
    the status has been checked and the body read, the text of the page or
    the error raised.  A run returns the pauses it has slept, in
    milliseconds and in order, with its result; [Ok None] is the
    [undefined] that the function returns when its loop ends without a
    request. *)

Module Transport.

Definition MAX_RETRIES : nat := 3.
Definition RETRY_DELAY_MS : N := 5000.

(** The loop [for (attempt = 1; attempt <= retries; attempt++)] from
    [attempt] on, with [remaining] iterations to go. *)
Fixpoint attempts (fetch : nat -> result string) (retries attempt remaining : nat)
  : list N * result (option string) :=
  match remaining with
  | O => ([], Ok None)
  | S remaining' =>
      match fetch attempt with
      | Ok html => ([], Ok (Some html))
      | Throw err =>
          if Nat.ltb attempt retries then
            let '(slept, r) := attempts fetch retries (S attempt) remaining' in
            ((RETRY_DELAY_MS * N.of_nat attempt)%N :: slept, r)
          else ([], Throw err)
      end
  end.

(** The pauses after the failed attempts [from], [from + 1], ... *)
Definition pauses (from count : nat) : list N :=
  map (fun attempt => (RETRY_DELAY_MS * N.of_nat attempt)%N) (seq from count).

Definition total (slept : list N) : N := fold_right N.add 0%N slept.

Definition fetchWithRetry (fetch : nat -> result string) (retries : nat)
  : list N * result (option string) :=
  attempts fetch retries 1 retries.

End Transport.

(* ------------------------------------------------------------------ *)
(** * Geocoding

    [geocodeCity] reads a plain object literal by key, so a key that is
    not in the table but names a property of [Object.prototype] finds
    that property, which is truthy and has neither [lat] nor [lng]. *)

Module Geocode.
Import JsString JsNum.
Local Open Scope string_scope.

(** [s.toLowerCase()] on 8-bit code units: [A] to [Z], and the capital
    letters of Latin-1, [À] to [Þ] without the multiplication sign. *)
Definition lower_char (c : ascii) : ascii :=
  if is_upper c then ascii_of_N (code c + 32)
  else if (in_range 192 222 c && negb (N.eqb (code c) 215))%bool
       then ascii_of_N (code c + 32)
       else c.

Fixpoint toLowerCase (s : string) : string :=
  match s with
  | EmptyString => EmptyString
  | String c s' => String (lower_char c) (toLowerCase s')
  end.

(** What a lookup in the table gives when it gives something. *)
Inductive place : Type :=
| Coords (lat lng : number)
| Inherited (name : string).

Definition at_ (lat lng : string) : number * number :=
  (parseFloat lat, parseFloat lng).

Definition default : number * number := at_ "35.32" "-80.85".

Definition CHARLOTTE_METRO_COORDS : list (string * (number * number)) :=
  [("charlotte", at_ "35.2271" "-80.8431");
   ("concord", at_ "35.4088" "-80.5795");
   ("gastonia", at_ "35.2621" "-81.1873");
   ("huntersville", at_ "35.4107" "-80.8429");
   ("mooresville", at_ "35.5849" "-80.8101");
   ("cornelius", at_ "35.4868" "-80.8601");
   ("davidson", at_ "35.4993" "-80.8487");
   ("matthews", at_ "35.1168" "-80.7237");
   ("mint hill", at_ "35.1796" "-80.6468");
   ("pineville", at_ "35.0832" "-80.8923");
   ("indian trail", at_ "35.0760" "-80.6593");
   ("harrisburg", at_ "35.3264" "-80.6555");
   ("kannapolis", at_ "35.4874" "-80.6217");
   ("rock hill", at_ "34.9249" "-81.0251");
   ("fort mill", at_ "35.0074" "-80.9451");
   ("columbia", at_ "34.0007" "-81.0348");
   ("default", default)].

(** The table of the second script: four more cities before [default]. *)
Definition NC_METRO_COORDS : list (string * (number * number)) :=
  removelast CHARLOTTE_METRO_COORDS
  ++ [("rockwell", at_ "35.5513" "-80.4024");
      ("salisbury", at_ "35.6710" "-80.4742");
      ("china grove", at_ "35.5699" "-80.5818");
      ("landis", at_ "35.5463" "-80.6107");
      ("default", default)].

(** The properties every object inherits from [Object.prototype]. *)
Definition prototype_names : list string :=
  ["constructor"; "__defineGetter__"; "__defineSetter__"; "hasOwnProperty";
   "__lookupGetter__"; "__lookupSetter__"; "isPrototypeOf";
   "propertyIsEnumerable"; "toString"; "valueOf"; "__proto__"; "toLocaleString"].

Fixpoint own (key : string) (table : list (string * (number * number)))
  : option (number * number) :=
  match table with
  | [] => None
  | (k, v) :: table' => if String.eqb k key then Some v else own key table'
  end.

(** [table[key]]: an own property, an inherited one, or [undefined]. *)
Definition get (table : list (string * (number * number))) (key : string)
  : option place :=
  match own key table with
  | Some (lat, lng) => Some (Coords lat lng)
  | None =>
      if existsb (String.eqb key) prototype_names then Some (Inherited key)
      else None
  end.

(** [city.toLowerCase().trim()] *)
Definition key_of (city : string) : string := trim (toLowerCase city).

Definition geocode (table : list (string * (number * number)))
    (city : option string) : place :=
  match city with
  | Some (String c t) =>
      match get table (key_of (String c t)) with
      | Some p => p
      | None => Coords (fst default) (snd default)
      end
  | _ => Coords (fst default) (snd default)
  end.

(** [geocodeCity] of the first and of the second script. *)
Definition geocodeCity_v1 : option string -> place := geocode CHARLOTTE_METRO_COORDS.
Definition geocodeCity_v2 : option string -> place := geocode NC_METRO_COORDS.

(** [coords.lat] and [coords.lng]: [undefined] on an inherited property. *)
Definition lat_of (p : place) : option number :=
  match p with
  | Coords lat _ => Some lat
  | Inherited _ => None
  end.

Definition lng_of (p : place) : option number :=
  match p with
  | Coords _ lng => Some lng
  | Inherited _ => None
  end.

(** [x + y] where [x] may be [undefined], which counts as [NaN]. *)
Definition plus (x : option number) (y : number) : number :=
  match x with
  | Some a => SFadd prec emax a y
  | None => nan
  end.

(** [(Math.random() - 0.5) * spread] for a draw [r]. *)
Definition jitter (spread : string) (r : number) : number :=
  mul (SFsub prec emax r (parseFloat "0.5")) (parseFloat spread).

(** The geocoding step of [main] on one record: [r1] and [r2] are the two
    draws of [Math.random]. *)
Definition locate_v1 (l : V1.listing) (r1 r2 : number) : V1.located :=
  let coords := geocodeCity_v1 (V1.city l) in
  V1.mkLocated l (plus (lat_of coords) (jitter "0.01" r1))
                 (plus (lng_of coords) (jitter "0.01" r2)).

Definition locate_v2 (l : V2.listing) (r1 r2 : number) : V2.located :=
  let coords := geocodeCity_v2 (V2.city l) in
  V2.mkLocated l (plus (lat_of coords) (jitter "0.005" r1))
                 (plus (lng_of coords) (jitter "0.005" r2)).

(** The box around every entry of the two tables. *)
Definition in_box (lat lng : number) : bool :=
  (SFleb (parseFloat "34.0007") lat && SFleb lat (parseFloat "35.671")
   && SFleb (parseFloat "-81.1873") lng && SFleb lng (parseFloat "-80.4024"))%bool.

End Geocode.

(* ------------------------------------------------------------------ *)
(** * Predicates used to state properties *)

Module Shape.

(** Every code unit of [s] satisfies [p]. *)
Fixpoint all_chars (p : ascii -> bool) (s : string) : bool :=
  match s with
  | EmptyString => true
  | String c s' => (p c && all_chars p s')%bool
  end.

Definition not_upper (c : ascii) : bool := negb (JsString.is_upper c).

Definition succeeded {A : Type} (r : result A) : bool :=
  match r with
  | Ok _ => true
  | Throw _ => false
  end.

(** A digit of [toString(36)]. *)
Definition is_digit36 (c : ascii) : bool :=
  (JsString.is_digit c || JsString.is_lower c)%bool.

(** What holds of every image address that [parseDetailPage] keeps: it
    is not empty, it is not the logo, and it is no placeholder unless it
    comes from the image server. *)
Definition kept (s : string) : Prop :=
  s <> EmptyString
  /\ JsString.includes "large.png" s = false
  /\ (JsString.includes "place_holder" s = false
      \/ JsString.includes "images.cdn.appfolio.com" s = true).

End Shape.

(** The identifiers whose detail page the run of the second script can
    fetch. *)
Module V2Run.

Definition reached (fetch : string -> result Dom.document) (uuids : list string)
  : list string :=
  filter (fun u => Shape.succeeded
                     (fetch (V2.BASE_URL ++ "/listings/detail/" ++ u)%string))
         uuids.

End V2Run.

(* ------------------------------------------------------------------ *)
(** * Sample pages *)

Module Samples.
Import JsString JsNum Dom.
Local Open Scope string_scope.

(** An index page without listings that says so. *)
Definition vacant_page : document :=
  mkDocument [] [Elem "title" [] [Text "Listings"]] []
    [Elem "div" [("class", "content")]
       [Elem "p" [] [Text "No vacancies found at this time."]]] false.

(** An index page without listings and without the notice. *)
Definition redesigned_page : document :=
  mkDocument [] [Elem "title" [] [Text "Listings"]] []
    [Elem "div" [("class", "content")]
       [Elem "p" [] [Text "Welcome to our new site."];
        Elem "a" [("href", "/properties/42")] [Text "Suite 42"]]] false.

(** A card and a detail page with nothing to extract. *)
Definition blank_card : element := mkElement (Elem "div" [] []) [] false.

Definition blank_page : document := mkDocument [] [] [] [] false.

(** A card as the index page shows it. *)
Definition office_card : element :=
  mkElement
    (Elem "div" [("class", "listing-item result")]
       [Elem "h2" [] [Text "  Suite 200 Office  "];
        Elem "a" [("href", "/listings/detail/0a1b2c3d-4e5f")] [Text "View Details"];
        Elem "p" [] [Text "123 Main St, Charlotte, NC 28202"];
        Elem "span" [] [Text "$2,500 "; Text "1,200 SF Available Now"];
        Elem "img" [("src", "https://images.cdn.appfolio.com/a/1.jpg")] []])
    [] false.

(** An index page with two cards and a repeated anchor. *)
Definition two_cards_page : document :=
  mkDocument [] [] []
    [Elem "ul" []
       [Elem "li" []
          [Elem "a" [("href", "/listings/detail/aaa-1")] [Text "Unit A"];
           Elem "a" [("href", "/listings/detail/aaa-1")] [Text "View Details"]];
        Elem "li" []
          [Elem "a" [("href", "/listings/detail/bbb-2")] [Text "Unit B"]];
        Elem "li" []
          [Elem "a" [("href", "/listings/detail/aaa-1?apply=1")] [Text "Apply"]]]] false.

(** A detail page. *)
Definition warehouse_page : document :=
  mkDocument [] [Elem "title" [] [Text " Warehouse | GreyRock "]] []
    [Elem "div" [("class", "gallery")]
       [Elem "img" [("src", "https://images.cdn.appfolio.com/a/large.png")] [];
        Elem "img" [("data-src", "https://images.cdn.appfolio.com/a/1.jpg")] []];
     Elem "h1" [] [Text "Current Listings"];
     Elem "h2" [] [Text "Warehouse on 5th"];
     Elem "p" [] [Text "RENT $3,000.00 SQUARE FEET 1,500 Available 3/1/2027 "];
     Elem "p" [] [Text "500 Fifth Ave, Rock Hill, SC 29730"]] false.

(** The pages behind the two identifiers of [two_cards_page]; every other
    address fails. *)
Definition site (url : string) : result document :=
  if String.eqb url V2.APPFOLIO_URL then Ok two_cards_page
  else if String.eqb url (V2.BASE_URL ++ "/listings/detail/aaa-1") then Ok warehouse_page
  else if String.eqb url (V2.BASE_URL ++ "/listings/detail/bbb-2") then Ok blank_page
  else Throw "HTTP 404: Not Found".

(** What [parseListings] returns on [two_cards_page]. *)
Definition two_cards_parsed : V1.parsed :=
  Eval vm_compute in
    match V1.parseListings two_cards_page with
    | Ok p => p
    | Throw _ => V1.mkParsed [] false
    end.

(** Records with an area and nothing else: no address, no price, no
    image. *)
Definition bare_listing_v1 : V1.listing :=
  V1.mkListing "0a1b2c3d-4e5f" "Listing 0a1b2c3d" None None "Commercial"
    None (Some (of_Z 1200)) None "" "Contact for availability" "coming-soon" None
    "https://greyrockcommercial.appfolio.com/listings/detail/0a1b2c3d-4e5f"
    "https://greyrockcommercial.appfolio.com/listings/rental_applications/new?listable_uid=0a1b2c3d-4e5f&source=Website".

Definition bare_listing_v2 : V2.listing :=
  V2.mkListing "0a1b2c3d-4e5f" "Listing 0a1b2c3d" None None "Commercial" None
    None (Some (of_Z 1200)) None "" "Contact for availability" "coming-soon" None
    None []
    "https://greyrockcommercial.appfolio.com/listings/detail/0a1b2c3d-4e5f"
    "https://greyrockcommercial.appfolio.com/listings/rental_applications/new?listable_uid=0a1b2c3d-4e5f&source=Website".

(** The same record with a price of zero. *)
Definition free_listing_v1 : V1.listing :=
  V1.mkListing "0a1b2c3d-4e5f" "Listing 0a1b2c3d" None None "Commercial"
    (Some (S754_zero false)) (Some (of_Z 1200)) None "" "Contact for availability"
    "coming-soon" None
    "https://greyrockcommercial.appfolio.com/listings/detail/0a1b2c3d-4e5f"
    "https://greyrockcommercial.appfolio.com/listings/rental_applications/new?listable_uid=0a1b2c3d-4e5f&source=Website".

(** A detail page that writes the word in capitals. *)
Definition capitals_page : document :=
  mkDocument [] [Elem "title" [] [Text "Flex space"]] []
    [Elem "h1" [] [Text "Flex space on Elm"];
     Elem "p" [] [Text "AVAILABLE NOW"]] false.

(** What the run of the detail-page script returns on [site]. *)
Definition site_listings : list V2.listing :=
  Eval vm_compute in
    match V2.main (Host.quiet site) with
    | V2.Snapshot ls _ => ls
    | _ => []
    end.

Definition site_warnings : list string :=
  Eval vm_compute in
    match V2.main (Host.quiet site) with
    | V2.Snapshot _ w => w
    | _ => []
    end.

(** Two record sets of one record each that differ in the title only. *)
Definition titled (title : string) : V1.located :=
  V1.mkLocated
    (V1.mkListing "0a1b2c3d-4e5f" title (Some "123 Main St, Charlotte, NC 28202")
       (Some "Charlotte") "Office" (Some (of_Z 2500)) (Some (of_Z 1200))
       (Some (of_Z 25)) "" "Now" "available" None
       "https://greyrockcommercial.appfolio.com/listings/detail/0a1b2c3d-4e5f"
       "https://greyrockcommercial.appfolio.com/listings/rental_applications/new?listable_uid=0a1b2c3d-4e5f&source=Website")
    (parseFloat "35.2271") (parseFloat "-80.8431").

Definition set_Aa : list V1.located := [titled "Suite Aa"].
Definition set_BB : list V1.located := [titled "Suite BB"].

(** An index page whose only anchor has no enclosing card. *)
Definition bare_link_page : document :=
  mkDocument [] [] []
    [Elem "a" [("href", "/listings/detail/0a1b2c3d-4e5f")] [Text "Suite 200"]] false.

(** A server that fails twice and then answers, and one that is down. *)
Definition flaky (k : nat) : result string :=
  if Nat.eqb k 3 then Ok "<html></html>" else Throw "HTTP 503: Service Unavailable".

Definition down (k : nat) : result string := Throw "fetch failed".

(** A card whose address names a town called Constructor. *)
Definition constructor_card : element :=
  mkElement
    (Elem "li" []
       [Elem "h3" [] [Text "Shop on the square"];
        Elem "a" [("href", "/listings/detail/0a1b2c3d-4e5f")] [Text "View Details"];
        Elem "p" [] [Text "12 Oak St, Constructor, NC 28202"]])
    [] false.

Definition constructor_listing : V1.listing :=
  Eval vm_compute in
    match V1.extractListingData constructor_card "0a1b2c3d-4e5f" with
    | Ok l => l
    | Throw _ => bare_listing_v1
    end.

(** The first anchor of [two_cards_page], with its ancestors. *)
Definition first_anchor : element :=
  Eval vm_compute in
    match docQuerySelectorAll Patterns.detail_link two_cards_page with
    | link :: _ => link
    | [] => blank_card
    end.

Definition first_anchor_card : element :=
  Eval vm_compute in
    match V1.find_card first_anchor with
    | Some card => card
    | None => blank_card
    end.

(** An index page without a doctype, so in quirks mode, whose card
    writes its class with capitals. *)
Definition quirks_page : document :=
  mkDocument [] [] []
    [Elem "div" [("class", "Listing-Item")]
       [Elem "a" [("href", "/listings/detail/0a1b2c3d-4e5f")] [Text "Suite 200"]]]
    true.

Definition quirks_anchor : element :=
  Eval vm_compute in
    match docQuerySelectorAll Patterns.detail_link quirks_page with
    | link :: _ => link
    | [] => blank_card
    end.

Definition quirks_card : element :=
  Eval vm_compute in
    match V1.find_card quirks_anchor with
    | Some card => card
    | None => blank_card
    end.

(** A detail page in quirks mode whose description element writes its
    class with capitals. *)
Definition quirks_detail_page : document :=
  mkDocument [] [] []
    [Elem "div" [("class", "JS-Listing-Description")] [Text " Corner unit. "];
     Elem "p" [] [Text "A paragraph that is longer than the description."]]
    true.

(** The site of [site] with the page of the first identifier missing. *)
Definition partial_site (url : string) : result document :=
  if String.eqb url (V2.BASE_URL ++ "/listings/detail/aaa-1")
  then Throw "HTTP 404: Not Found"
  else site url.

End Samples.
(* ================================================================== *)
(** * Properties *)

(* ------------------------------------------------------------------ *)
(** ** Capture groups *)

Module RegexFacts.
Import Regex.

(** A preorder on states that every step of the matcher respects is
    respected by every match. *)
Section Preorder.

Variable R : state -> state -> Prop.
Hypothesis R_refl : forall s, R s s.
Hypothesis R_trans : forall a b c, R a b -> R b c -> R a c.
Hypothesis R_char : forall s c t,
  rest s = String c t -> R s (mkState (Some c) t (caps s)).
Hypothesis R_group : forall s s1 n text,
  R s s1 -> R s (mkState (prev s1) (rest s1) ((n, text) :: caps s1)).

Lemma rep_loop_respects (step : state -> list state) (greedy : bool) :
  (forall s s', In s' (step s) -> R s s') ->
  forall fuel min max s s',
    In s' (rep_loop step greedy fuel min max s) -> R s s'.
Proof.
  intros Hstep. induction fuel as [|fuel IH]; intros min max s s' Hin; simpl in Hin.
  - destruct Hin as [<-|[]]. apply R_refl.
  - destruct (exhausted max).
    + destruct Hin as [<-|[]]. apply R_refl.
    + destruct min as [|min'].
      * assert (Hmore : forall x,
                   In x (flat_map (fun s1 => if progress s s1
                                             then rep_loop step greedy fuel 0 (dec_max max) s1
                                             else []) (step s)) -> R s x).
        { intros x Hx. apply in_flat_map in Hx. destruct Hx as [s1 [H1 H2]].
          destruct (progress s s1); [|contradiction].
          eapply R_trans; [apply Hstep; exact H1 | eapply IH; exact H2]. }
        destruct greedy.
        -- apply in_app_or in Hin. destruct Hin as [Hin|[<-|[]]].
           ++ apply Hmore; exact Hin.
           ++ apply R_refl.
        -- destruct Hin as [<-|Hin].
           ++ apply R_refl.
           ++ apply Hmore; exact Hin.
      * apply in_flat_map in Hin. destruct Hin as [s1 [H1 H2]].
        eapply R_trans; [apply Hstep; exact H1 | eapply IH; exact H2].
Qed.

Lemma run_respects : forall ic r s s', In s' (run ic r s) -> R s s'.
Proof.
  intros ic r. induction r as [neg p| |r1 IH1 r2 IH2|r1 IH1 r2 IH2|min max greedy r IH|n r IH| | | ];
    intros s s' Hin; simpl in Hin.
  - destruct (rest s) as [|c t] eqn:E; [contradiction|].
    destruct (xorb neg (cls_hit ic p c)); [|contradiction].
    destruct Hin as [<-|[]]. apply R_char. exact E.
  - destruct Hin as [<-|[]]. apply R_refl.
  - apply in_flat_map in Hin. destruct Hin as [s1 [H1 H2]].
    eapply R_trans; [apply IH1; exact H1 | apply IH2; exact H2].
  - apply in_app_or in Hin. destruct Hin as [Hin|Hin]; [apply IH1|apply IH2]; exact Hin.
  - eapply rep_loop_respects; [|exact Hin]. exact IH.
  - apply in_map_iff in Hin. destruct Hin as [s1 [<- H1]].
    apply R_group. apply IH. exact H1.
  - destruct (prev s); [contradiction|]. destruct Hin as [<-|[]]. apply R_refl.
  - destruct (rest s); [|contradiction]. destruct Hin as [<-|[]]. apply R_refl.
  - destruct (xorb _ _); [|contradiction]. destruct Hin as [<-|[]]. apply R_refl.
Qed.

End Preorder.

(** Captures are only added. *)
Lemma run_extends : forall ic r s s', In s' (run ic r s) -> extends s s'.
Proof.
  apply run_respects.
  - intros s. exists []. reflexivity.
  - intros a b c [x Hx] [y Hy]. exists (y ++ x). rewrite Hy, Hx. apply app_assoc.
  - intros s c t _. exists []. reflexivity.
  - intros s s1 n text [x Hx]. exists ((n, text) :: x). simpl. rewrite Hx. reflexivity.
Qed.

(** The position only moves forward. *)
Lemma run_shrinks : forall ic r s s',
  In s' (run ic r s) -> String.length (rest s') <= String.length (rest s).
Proof.
  apply (run_respects (fun s s' => String.length (rest s') <= String.length (rest s))).
  - intros s. apply Nat.le_refl.
  - intros a b c H1 H2. eapply Nat.le_trans; eassumption.
  - intros s c t E. rewrite E. simpl. apply Nat.le_succ_diag_r.
  - intros s s1 n text H. exact H.
Qed.

Lemma lookup_app_some : forall g ext l,
  lookup g l <> None -> lookup g (ext ++ l) <> None.
Proof.
  intros g ext l H. induction ext as [|[n t] ext IH]; simpl; [exact H|].
  destruct (Nat.eqb n g); [discriminate|exact IH].
Qed.

Lemma run_defines : forall ic g r s s',
  defines g r = true -> In s' (run ic r s) -> lookup g (caps s') <> None.
Proof.
  intros ic g r. induction r as [neg p| |r1 IH1 r2 IH2|r1 IH1 r2 IH2|min max greedy r IH|n r IH| | | ];
    intros s s' Hd Hin; simpl in Hd; try discriminate.
  - simpl in Hin. apply in_flat_map in Hin. destruct Hin as [s1 [H1 H2]].
    apply orb_true_iff in Hd. destruct Hd as [Hd|Hd].
    + destruct (run_extends _ _ _ _ H2) as [ext Hext]. rewrite Hext.
      apply lookup_app_some. eapply IH1; eassumption.
    + eapply IH2; eassumption.
  - simpl in Hin. apply andb_true_iff in Hd. destruct Hd as [Hd1 Hd2].
    apply in_app_or in Hin. destruct Hin as [Hin|Hin]; [eapply IH1|eapply IH2]; eassumption.
  - simpl in Hin. apply in_map_iff in Hin. destruct Hin as [s1 [<- H1]]. simpl.
    destruct (Nat.eqb n g) eqn:E; [discriminate|].
    simpl in Hd. eapply IH; eassumption.
Qed.

Lemma match_at_defines : forall ic g r p t m,
  defines g r = true -> match_at ic r p t = Some m -> group g m <> None.
Proof.
  intros ic g r p t m Hd Hm. unfold match_at in Hm.
  destruct (run ic r (mkState p t [])) as [|s' l] eqn:E; [discriminate|].
  injection Hm as <-. unfold group. simpl.
  eapply run_defines; [exact Hd|]. rewrite E. left. reflexivity.
Qed.

Lemma exec_from_defines : forall ic g r t p m,
  defines g r = true -> exec_from ic r p t = Some m -> group g m <> None.
Proof.
  intros ic g r t. induction t as [|c t IH]; intros p m Hd Hm; simpl in Hm.
  - destruct (match_at ic r p "") eqn:E; [|discriminate].
    injection Hm as <-. eapply match_at_defines; eassumption.
  - destruct (match_at ic r p (String c t)) eqn:E.
    + injection Hm as <-. eapply match_at_defines; eassumption.
    + eapply IH; eassumption.
Qed.

Lemma exec_from_property (P : match_result -> Prop) : forall ic r,
  (forall p t m, match_at ic r p t = Some m -> P m) ->
  forall t p m, exec_from ic r p t = Some m -> P m.
Proof.
  intros ic r HP. induction t as [|c t IH]; intros p m Hm; simpl in Hm.
  - destruct (match_at ic r p "") eqn:E; [|discriminate].
    injection Hm as <-. eapply HP. exact E.
  - destruct (match_at ic r p (String c t)) eqn:E.
    + injection Hm as <-. eapply HP. exact E.
    + eapply IH. exact Hm.
Qed.

Lemma plus_consumes : forall ic p s s',
  In s' (run ic (plus (one_of p)) s) ->
  String.length (rest s') < String.length (rest s).
Proof.
  intros ic p s s' Hin. unfold plus, one_of in Hin.
  cbn [run] in Hin. rewrite Nat.add_1_r in Hin. cbn [rep_loop exhausted] in Hin.
  apply in_flat_map in Hin. destruct Hin as [s1 [H1 H2]].
  apply (rep_loop_respects
           (fun a b => String.length (rest b) <= String.length (rest a))) in H2.
  - cbn [run] in H1. destruct (rest s) as [|c t]; [contradiction|].
    destruct (xorb false (cls_hit ic p c)); [|contradiction].
    destruct H1 as [<-|[]]. simpl in *. apply Nat.lt_succ_r. exact H2.
  - intros a. apply Nat.le_refl.
  - intros a b c Hab Hbc. eapply Nat.le_trans; eassumption.
  - intros a b Hb. apply (run_shrinks ic (Cls false p)). exact Hb.
Qed.

Lemma take_nonempty : forall k s,
  0 < k -> s <> EmptyString -> JsString.take k s <> EmptyString.
Proof.
  intros [|k] [|c s] Hk Hs; try discriminate.
  - inversion Hk.
  - inversion Hk.
  - exfalso. apply Hs. reflexivity.
Qed.

(** A group around [[...]+] at the end of a pattern captures at least one
    code unit. *)
Lemma last_group_nonempty : forall ic a g p text m,
  exec ic (Seq a (Grp g (plus (one_of p)))) text = Some m ->
  exists u, group g m = Some u /\ u <> EmptyString.
Proof.
  intros ic a g p text m H. unfold exec in H.
  apply (exec_from_property
           (fun m => exists u, group g m = Some u /\ u <> EmptyString)) in H; [exact H|].
  clear. intros p0 t m H. unfold match_at in H.
  destruct (run ic (Seq a (Grp g (plus (one_of p)))) (mkState p0 t [])) as [|s' l] eqn:E;
    [discriminate|].
  injection H as <-.
  assert (Hin : In s' (run ic (Seq a (Grp g (plus (one_of p)))) (mkState p0 t [])))
    by (rewrite E; left; reflexivity).
  cbn [run] in Hin. apply in_flat_map in Hin. destruct Hin as [s1 [_ H2]].
  apply in_map_iff in H2. destruct H2 as [s2 [<- H2]].
  apply plus_consumes in H2.
  exists (consumed s1 s2). unfold group. simpl. rewrite Nat.eqb_refl.
  split; [reflexivity|]. unfold consumed. apply take_nonempty.
  - apply Nat.lt_add_lt_sub_r. simpl. exact H2.
  - destruct (rest s1); [inversion H2|discriminate].
Qed.

(** A group outside of any alternative and quantifier is defined on every
    match. *)
Lemma capture_defined : forall ic g r text m,
  defines g r = true -> exec ic r text = Some m ->
  exists t, capture g m = Ok t.
Proof.
  intros ic g r text m Hd Hm. unfold capture, deref.
  destruct (group g m) as [t|] eqn:E.
  - exists t. reflexivity.
  - exfalso. eapply exec_from_defines; eassumption.
Qed.

End RegexFacts.

(* ------------------------------------------------------------------ *)
(** ** The extractors return *)

Module ExtractFacts.
Import JsString Regex JsNum Dom Patterns RegexFacts.

(** Splits on the outcome of a pattern and reads group 1 of a match. *)
Ltac read_group :=
  match goal with
  | |- context [match exec ?ic ?r ?t with _ => _ end] =>
      let m := fresh "m" in
      let E := fresh "E" in
      let g := fresh "g" in
      let Hg := fresh "Hg" in
      destruct (exec ic r t) as [m|] eqn:E;
      [ destruct (capture_defined ic 1 r t m eq_refl E) as [g Hg];
        try rewrite Hg; simpl
      | simpl ]
  end.

Ltac done_ok := eexists; reflexivity.

Lemma v1_sqft_ok : forall text, exists v, V1.extract_sqft text = Ok v.
Proof. intros text. unfold V1.extract_sqft. read_group; done_ok. Qed.

Lemma v1_address_ok : forall text, exists v, V1.extract_address text = Ok v.
Proof. intros text. unfold V1.extract_address. read_group; done_ok. Qed.

Lemma v1_available_ok : forall text, exists v, V1.extract_available text = Ok v.
Proof.
  intros text. unfold V1.extract_available.
  destruct (test true V1.available_now_re text); [done_ok|].
  read_group; done_ok.
Qed.

Lemma v1_type_ok : forall text, exists v, V1.extract_type text = Ok v.
Proof.
  intros text. unfold V1.extract_type, V1.typePatterns. simpl.
  read_group; [done_ok|]. read_group; [done_ok|]. read_group; done_ok.
Qed.

Lemma v1_rentPerSF_ok : forall text rent sqft,
  exists v, V1.extract_rentPerSF text rent sqft = Ok v.
Proof. intros text rent sqft. unfold V1.extract_rentPerSF. read_group; done_ok. Qed.

Lemma v1_city_ok : forall address, exists v, V1.extract_city address = Ok v.
Proof.
  intros [[|c t]|]; simpl; try done_ok. read_group; done_ok.
Qed.

(** The record that [extractListingData] assembles. *)
Lemma v1_record : forall card uuid,
  let text := textContent (self card) in
  exists sqft address available type rate city,
    V1.extract_sqft text = Ok sqft /\
    V1.extract_address text = Ok address /\
    V1.extract_available text = Ok available /\
    V1.extract_type text = Ok type /\
    V1.extract_rentPerSF text (V1.extract_rent text) sqft = Ok rate /\
    V1.extract_city address = Ok city /\
    V1.extractListingData card uuid =
      Ok (V1.mkListing uuid (V1.extract_title card address uuid) address city type
            (V1.extract_rent text) sqft rate (V1.extract_description card)
            available (V1.derive_status available) (V1.extract_imageUrl card)
            ("https://greyrockcommercial.appfolio.com/listings/detail/" ++ uuid)
            ("https://greyrockcommercial.appfolio.com/listings/rental_applications/new?listable_uid="
             ++ uuid ++ "&source=Website")).
Proof.
  intros card uuid text.
  destruct (v1_sqft_ok text) as [sqft Hs].
  destruct (v1_address_ok text) as [address Ha].
  destruct (v1_available_ok text) as [available Hv].
  destruct (v1_type_ok text) as [type Ht].
  destruct (v1_rentPerSF_ok text (V1.extract_rent text) sqft) as [rate Hr].
  destruct (v1_city_ok address) as [city Hc].
  exists sqft, address, available, type, rate, city.
  repeat (split; [assumption|]).
  unfold V1.extractListingData. fold text.
  rewrite Hs; simpl. rewrite Ha; simpl. rewrite Hv; simpl. rewrite Ht; simpl.
  rewrite Hr; simpl. rewrite Hc; simpl. reflexivity.
Qed.

Lemma v2_address_ok : forall text, exists v, V2.extract_address text = Ok v.
Proof. intros text. unfold V2.extract_address. read_group; done_ok. Qed.

Lemma v2_rent_ok : forall text, exists v, V2.extract_rent text = Ok v.
Proof. intros text. unfold V2.extract_rent. read_group; done_ok. Qed.

(** Group 1 of the first of two attempts that matches. *)
Lemma or_match_defined : forall ic1 r1 ic2 r2 text m,
  defines 1 r1 = true -> defines 1 r2 = true ->
  V2.or_match (exec ic1 r1 text) (exec ic2 r2 text) = Some m ->
  exists t, capture 1 m = Ok t.
Proof.
  intros ic1 r1 ic2 r2 text m H1 H2 Hm. unfold V2.or_match in Hm.
  destruct (exec ic1 r1 text) as [m1|] eqn:E1.
  - injection Hm as <-. eapply capture_defined; [|exact E1]. exact H1.
  - eapply capture_defined; [|exact Hm]. exact H2.
Qed.

Lemma v2_sqft_ok : forall text, exists v, V2.extract_sqft text = Ok v.
Proof.
  intros text. unfold V2.extract_sqft.
  destruct (V2.or_match _ _) as [m|] eqn:E; [|done_ok].
  assert (H : exists t, capture 1 m = Ok t)
    by (eapply or_match_defined; [| |exact E]; reflexivity).
  destruct H as [g ->]. simpl. done_ok.
Qed.

Lemma v2_rentPerSF_ok : forall text, exists v, V2.extract_rentPerSF text = Ok v.
Proof.
  intros text. unfold V2.extract_rentPerSF.
  destruct (V2.or_match _ _) as [m|] eqn:E; [|done_ok].
  assert (H : exists t, capture 1 m = Ok t)
    by (eapply or_match_defined; [| |exact E]; reflexivity).
  destruct H as [g ->]. simpl. done_ok.
Qed.

Lemma v2_available_ok : forall text, exists v, V2.extract_available text = Ok v.
Proof.
  intros text. unfold V2.extract_available.
  destruct (V2.or_match _ _) as [m|] eqn:E; [|done_ok].
  assert (H : exists t, capture 1 m = Ok t).
  { unfold V2.or_match in E at 1.
    destruct (exec true V2.available_slashes_re text) as [m1|] eqn:E1.
    - injection E as <-. eapply capture_defined; [|exact E1]. reflexivity.
    - eapply or_match_defined; [| |exact E]; reflexivity. }
  destruct H as [g ->]. simpl. done_ok.
Qed.

Lemma v2_type_ok : forall text, exists v, V2.extract_type text = Ok v.
Proof. intros text. unfold V2.extract_type. read_group; done_ok. Qed.

Lemma v2_label_ok : forall pattern text,
  defines 1 pattern = true -> exists v, V2.extract_label pattern text = Ok v.
Proof.
  intros pattern text Hd. unfold V2.extract_label.
  destruct (exec true pattern text) as [m|] eqn:E; [|done_ok].
  destruct (capture_defined _ _ _ _ _ Hd E) as [g ->]. simpl. done_ok.
Qed.

Lemma v2_city_ok : forall address, exists v, V2.extract_city address = Ok v.
Proof.
  intros [[|c t]|]; simpl; try done_ok. read_group; done_ok.
Qed.

(** The record that [parseDetailPage] assembles. *)
Lemma v2_record : forall doc uuid,
  let text := textContent (self (body doc)) in
  exists address rent sqft rate available type lease utilities city,
    V2.extract_address text = Ok address /\
    V2.extract_rent text = Ok rent /\
    V2.extract_sqft text = Ok sqft /\
    V2.extract_rentPerSF text = Ok rate /\
    V2.extract_available text = Ok available /\
    V2.extract_type text = Ok type /\
    V2.extract_label V2.lease_type_re text = Ok lease /\
    V2.extract_label V2.utilities_re text = Ok utilities /\
    V2.extract_city address = Ok city /\
    V2.parseDetailPage doc uuid =
      Ok (V2.mkListing uuid (V2.extract_title doc uuid) address city type lease
            rent sqft rate (V2.extract_description doc) available
            (V2.derive_status available) utilities
            (hd_error (V2.extract_images doc)) (V2.extract_images doc)
            (V2.BASE_URL ++ "/listings/detail/" ++ uuid)
            (V2.BASE_URL ++ "/listings/rental_applications/new?listable_uid="
             ++ uuid ++ "&source=Website")).
Proof.
  intros doc uuid text.
  destruct (v2_address_ok text) as [address Ha].
  destruct (v2_rent_ok text) as [rent Hr].
  destruct (v2_sqft_ok text) as [sqft Hs].
  destruct (v2_rentPerSF_ok text) as [rate Hp].
  destruct (v2_available_ok text) as [available Hv].
  destruct (v2_type_ok text) as [type Ht].
  destruct (v2_label_ok V2.lease_type_re text eq_refl) as [lease Hl].
  destruct (v2_label_ok V2.utilities_re text eq_refl) as [utilities Hu].
  destruct (v2_city_ok address) as [city Hc].
  exists address, rent, sqft, rate, available, type, lease, utilities, city.
  repeat (split; [assumption|]).
  unfold V2.parseDetailPage. fold text.
  rewrite Ha; simpl. rewrite Hr; simpl. rewrite Hs; simpl. rewrite Hp; simpl.
  rewrite Hv; simpl. rewrite Ht; simpl. rewrite Hl; simpl. rewrite Hu; simpl.
  rewrite Hc; simpl. reflexivity.
Qed.

End ExtractFacts.

(* ------------------------------------------------------------------ *)
(** ** The index page without anchors *)

Module IndexFacts.
Import JsString Regex JsNum Dom Patterns.

Lemma no_vacancies_phrases : forall text,
  includes "No vacancies found" text = true
  \/ includes "no available properties" text = true
  \/ includes "no vacancies" text = true ->
  no_vacancies text = true.
Proof.
  intros text H. unfold no_vacancies.
  destruct H as [H|[H|H]]; rewrite H; repeat rewrite orb_true_r; reflexivity.
Qed.

End IndexFacts.

(* ------------------------------------------------------------------ *)
(** ** A run on a host whose writes succeed *)

Module HostFacts.

Lemma quiet_writes : forall fetch, Host.writes_succeed (Host.quiet fetch).
Proof. intros fetch. split; [reflexivity|discriminate]. Qed.

Lemma v1_failed : forall h message,
  Host.writes_succeed h -> V1.failed h message = V1.Exit (V1.exit_code message).
Proof.
  intros h message [_ Hs]. unfold V1.failed.
  destruct (Host.summary_file h); [|reflexivity].
  destruct (Hs eq_refl) as [_ ->]. reflexivity.
Qed.

Lemma v2_failed : forall h message,
  Host.writes_succeed h -> V2.failed h message = V2.Exit (V2.exit_code message).
Proof.
  intros h message [_ Hs]. unfold V2.failed.
  destruct (Host.summary_file h); [|reflexivity].
  destruct (Hs eq_refl) as [_ ->]. reflexivity.
Qed.

Lemma v1_write_files : forall h, Host.writes_succeed h -> V1.write_files h = Ok tt.
Proof.
  intros h [Ho Hs]. unfold V1.write_files, bind. rewrite Ho.
  destruct (Host.summary_file h); [|reflexivity]. apply (Hs eq_refl).
Qed.

Lemma v2_write_files : forall h, Host.writes_succeed h -> V2.write_files h = Ok tt.
Proof.
  intros h [Ho Hs]. unfold V2.write_files, bind. rewrite Ho.
  destruct (Host.summary_file h); [|reflexivity]. apply (Hs eq_refl).
Qed.

(** The run of the first script when no write fails. *)
Lemma v1_main_writes : forall h,
  Host.writes_succeed h ->
  V1.main h
  = match (let* html := Host.fetch h V1.APPFOLIO_URL in V1.parseListings html) with
    | Throw message => V1.Exit (V1.exit_code message)
    | Ok p =>
        if negb (V1.valid (V1.validateListings (V1.listings p))) then V1.Exit 3
        else V1.Snapshot p (V1.warnings (V1.validateListings (V1.listings p)))
    end.
Proof.
  intros h Hw. unfold V1.main.
  destruct (let* html := Host.fetch h V1.APPFOLIO_URL in V1.parseListings html)
    as [p|message].
  - cbv zeta. rewrite (v1_write_files h Hw). reflexivity.
  - apply v1_failed. exact Hw.
Qed.

(** The run of the second script when no write fails. *)
Lemma v2_main_writes : forall h,
  Host.writes_succeed h ->
  V2.main h
  = match (let* indexHtml := Host.fetch h V2.APPFOLIO_URL in
           V2.parseIndexPage indexHtml) with
    | Throw message => V2.Exit (V2.exit_code message)
    | Ok ix =>
        if (V2.noVacancies ix || Nat.eqb (List.length (V2.uuids ix)) 0)%bool
        then V2.EmptySnapshot
        else
          let listings := fold_left (V2.visit_detail (Host.fetch h)) (V2.uuids ix) [] in
          if Nat.eqb (List.length listings) 0
          then V2.Exit (V2.exit_code "No listings could be parsed from detail pages")
          else
            if negb (V2.valid (V2.validateListings listings)) then V2.Exit 3
            else V2.Snapshot listings (V2.warnings (V2.validateListings listings))
    end.
Proof.
  intros h Hw. unfold V2.main.
  destruct (let* indexHtml := Host.fetch h V2.APPFOLIO_URL in
            V2.parseIndexPage indexHtml) as [ix|message].
  - destruct (V2.noVacancies ix || Nat.eqb (List.length (V2.uuids ix)) 0)%bool.
    + destruct Hw as [-> _]. reflexivity.
    + cbv zeta. rewrite (v2_write_files h Hw), (v2_failed h _ Hw). reflexivity.
  - apply v2_failed. exact Hw.
Qed.

End HostFacts.

(** C1: an index document without detail-link anchors whose body text
    holds one of the recognized empty-inventory phrases parses to the
    no-inventory result with no records, and the run is valid with no
    errors; without such a phrase the parsers raise the structure-changed
    error, which ends the run with exit code 2, where a failed fetch ends
    it with exit code 1.  The statements about the run hold on every
    host on which no write fails. *)
Theorem C1_index_without_anchors : forall doc : Dom.document,
  Dom.docQuerySelectorAll Patterns.detail_link doc = [] ->
  let text := Dom.textContent (Dom.self (Dom.body doc)) in
  (JsString.includes "No vacancies found" text = true
   \/ JsString.includes "no available properties" text = true
   \/ JsString.includes "no vacancies" text = true ->
   V1.parseListings doc = Ok (V1.mkParsed [] true)
   /\ V2.parseIndexPage doc = Ok (V2.mkIndex [] true)
   /\ V1.validateListings [] = V1.mkValidation [] [] true
   /\ (forall h, Host.fetch h V1.APPFOLIO_URL = Ok doc -> Host.writes_succeed h ->
         V1.main h = V1.Snapshot (V1.mkParsed [] true) [])
   /\ (forall h, Host.fetch h V2.APPFOLIO_URL = Ok doc -> Host.writes_succeed h ->
         V2.main h = V2.EmptySnapshot))
  /\
  (Patterns.no_vacancies text = false ->
   V1.parseListings doc = Throw Patterns.structure_changed
   /\ V2.parseIndexPage doc = Throw Patterns.structure_changed
   /\ (forall h, Host.fetch h V1.APPFOLIO_URL = Ok doc -> Host.writes_succeed h ->
         V1.main h = V1.Exit 2)
   /\ (forall h, Host.fetch h V2.APPFOLIO_URL = Ok doc -> Host.writes_succeed h ->
         V2.main h = V2.Exit 2)
   /\ (forall h, Host.fetch h V1.APPFOLIO_URL = Throw "HTTP 503: Service Unavailable" ->
         Host.writes_succeed h -> V1.main h = V1.Exit 1)
   /\ (forall h, Host.fetch h V2.APPFOLIO_URL = Throw "HTTP 503: Service Unavailable" ->
         Host.writes_succeed h -> V2.main h = V2.Exit 1)).
Proof.
  intros doc Hnone text. split.
  - intros Hphrase. apply IndexFacts.no_vacancies_phrases in Hphrase.
    assert (H1 : V1.parseListings doc = Ok (V1.mkParsed [] true)).
    { unfold V1.parseListings. cbv zeta. rewrite Hnone. fold text. rewrite Hphrase. reflexivity. }
    assert (H2 : V2.parseIndexPage doc = Ok (V2.mkIndex [] true)).
    { unfold V2.parseIndexPage. cbv zeta. rewrite Hnone. fold text. rewrite Hphrase. reflexivity. }
    repeat split; try assumption.
    + intros h Hf Hw. rewrite (HostFacts.v1_main_writes h Hw), Hf. unfold bind.
      rewrite H1. reflexivity.
    + intros h Hf Hw. rewrite (HostFacts.v2_main_writes h Hw), Hf. unfold bind.
      rewrite H2. reflexivity.
  - intros Hphrase.
    assert (H1 : V1.parseListings doc = Throw Patterns.structure_changed).
    { unfold V1.parseListings. cbv zeta. rewrite Hnone. fold text. rewrite Hphrase. reflexivity. }
    assert (H2 : V2.parseIndexPage doc = Throw Patterns.structure_changed).
    { unfold V2.parseIndexPage. cbv zeta. rewrite Hnone. fold text. rewrite Hphrase. reflexivity. }
    repeat split; try assumption.
    + intros h Hf Hw. rewrite (HostFacts.v1_main_writes h Hw), Hf. unfold bind.
      rewrite H1. reflexivity.
    + intros h Hf Hw. rewrite (HostFacts.v2_main_writes h Hw), Hf. unfold bind.
      rewrite H2. reflexivity.
    + intros h Hf Hw. rewrite (HostFacts.v1_main_writes h Hw), Hf. reflexivity.
    + intros h Hf Hw. rewrite (HostFacts.v2_main_writes h Hw), Hf. reflexivity.
Qed.

Lemma C1_index_without_anchors_witness :
  (V1.parseListings Samples.vacant_page = Ok (V1.mkParsed [] true)
   /\ V2.main (Host.quiet (fun _ => Ok Samples.vacant_page)) = V2.EmptySnapshot)
  /\ (V1.parseListings Samples.redesigned_page = Throw Patterns.structure_changed
      /\ V2.main (Host.quiet (fun _ => Ok Samples.redesigned_page)) = V2.Exit 2).
Proof.
  split.
  - destruct (proj1 (C1_index_without_anchors Samples.vacant_page eq_refl)
                (or_introl eq_refl)) as [H1 [_ [_ [_ H5]]]].
    split; [exact H1|]. apply H5; [reflexivity|apply HostFacts.quiet_writes].
  - destruct (proj2 (C1_index_without_anchors Samples.redesigned_page eq_refl)
                eq_refl) as [H1 [_ [_ [H4 _]]]].
    split; [exact H1|]. apply H4; [reflexivity|apply HostFacts.quiet_writes].
Defined.

(** C2: every field extractor of the card reader and of the detail-page
    reader returns a value for every input: none of them raises, and so
    do not the two functions that assemble a record.  The extractors of
    price (card), title, description and images are total functions with
    no call on a possibly-undefined value; the others read a capture
    group, which is always defined.  A scope with nothing to find gives
    a record whose optional fields are absent. *)
Theorem C2_extractors_never_throw :
  (forall text, exists v, V1.extract_sqft text = Ok v)
  /\ (forall text, exists v, V1.extract_address text = Ok v)
  /\ (forall text, exists v, V1.extract_available text = Ok v)
  /\ (forall text, exists v, V1.extract_type text = Ok v)
  /\ (forall text rent sqft, exists v, V1.extract_rentPerSF text rent sqft = Ok v)
  /\ (forall address, exists v, V1.extract_city address = Ok v)
  /\ (forall card uuid, exists l, V1.extractListingData card uuid = Ok l)
  /\ (forall text, exists v, V2.extract_address text = Ok v)
  /\ (forall text, exists v, V2.extract_rent text = Ok v)
  /\ (forall text, exists v, V2.extract_sqft text = Ok v)
  /\ (forall text, exists v, V2.extract_rentPerSF text = Ok v)
  /\ (forall text, exists v, V2.extract_available text = Ok v)
  /\ (forall text, exists v, V2.extract_type text = Ok v)
  /\ (forall text, exists v, V2.extract_label V2.lease_type_re text = Ok v)
  /\ (forall text, exists v, V2.extract_label V2.utilities_re text = Ok v)
  /\ (forall address, exists v, V2.extract_city address = Ok v)
  /\ (forall doc uuid, exists l, V2.parseDetailPage doc uuid = Ok l)
  /\ (exists l, V1.extractListingData Samples.blank_card "0a1b2c3d-4e5f" = Ok l
                /\ V1.address l = None /\ V1.city l = None /\ V1.rent l = None
                /\ V1.sqft l = None /\ V1.rentPerSF l = None /\ V1.imageUrl l = None)
  /\ (exists l, V2.parseDetailPage Samples.blank_page "0a1b2c3d-4e5f" = Ok l
                /\ V2.address l = None /\ V2.city l = None /\ V2.rent l = None
                /\ V2.sqft l = None /\ V2.rentPerSF l = None /\ V2.imageUrl l = None
                /\ V2.imageUrls l = [] /\ V2.leaseType l = None /\ V2.utilities l = None).
Proof.
  repeat match goal with |- _ /\ _ => split end.
  - exact ExtractFacts.v1_sqft_ok.
  - exact ExtractFacts.v1_address_ok.
  - exact ExtractFacts.v1_available_ok.
  - exact ExtractFacts.v1_type_ok.
  - exact ExtractFacts.v1_rentPerSF_ok.
  - exact ExtractFacts.v1_city_ok.
  - intros card uuid.
    destruct (ExtractFacts.v1_record card uuid) as (a & b & c & d & e & f & H).
    eexists. apply H.
  - exact ExtractFacts.v2_address_ok.
  - exact ExtractFacts.v2_rent_ok.
  - exact ExtractFacts.v2_sqft_ok.
  - exact ExtractFacts.v2_rentPerSF_ok.
  - exact ExtractFacts.v2_available_ok.
  - exact ExtractFacts.v2_type_ok.
  - intros text. apply ExtractFacts.v2_label_ok. reflexivity.
  - intros text. apply ExtractFacts.v2_label_ok. reflexivity.
  - exact ExtractFacts.v2_city_ok.
  - intros doc uuid.
    destruct (ExtractFacts.v2_record doc uuid) as (a & b & c & d & e & f & g & h & i & H).
    eexists. apply H.
  - eexists. split; [vm_compute; reflexivity|]. repeat split.
  - eexists. split; [vm_compute; reflexivity|]. repeat split.
Qed.

(* ------------------------------------------------------------------ *)
(** ** The validator *)

Module ValidatorFacts.
Import JsString JsNum.

Lemma append_cancel : forall a b c : string, (a ++ b = a ++ c)%string -> b = c.
Proof.
  induction a as [|x a IH]; intros b c H; simpl in H; [exact H|].
  injection H as H. apply IH. exact H.
Qed.

(** The two loops of [validateListings] as concatenations. *)
Lemma v1_push_if : forall c m l, V1.push_if c m l = l ++ V1.push_if c m [].
Proof. intros [|] m l; simpl; [reflexivity|symmetry; apply app_nil_r]. Qed.

Lemma v2_push_if : forall c m l, V2.push_if c m l = l ++ V2.push_if c m [].
Proof. intros [|] m l; simpl; [reflexivity|symmetry; apply app_nil_r]. Qed.

Lemma v1_check_fields : forall w l, V1.check_fields w l = w ++ V1.check_fields [] l.
Proof.
  intros w l. unfold V1.check_fields.
  rewrite (v1_push_if _ _ (V1.push_if _ _ (V1.push_if _ _ w))).
  rewrite (v1_push_if _ _ (V1.push_if _ _ w)).
  rewrite (v1_push_if _ _ w).
  rewrite (v1_push_if _ _ (V1.push_if _ _ (V1.push_if _ _ []))).
  rewrite (v1_push_if _ _ (V1.push_if _ _ [])).
  repeat rewrite app_assoc. reflexivity.
Qed.

Lemma v1_check_sanity : forall w l, V1.check_sanity w l = w ++ V1.check_sanity [] l.
Proof.
  intros w l. unfold V1.check_sanity.
  rewrite (v1_push_if _ _ (V1.push_if _ _ w)).
  rewrite (v1_push_if _ _ w).
  rewrite (v1_push_if _ _ (V1.push_if _ _ [])).
  repeat rewrite app_assoc. reflexivity.
Qed.

Lemma v2_check_fields : forall w l, V2.check_fields w l = w ++ V2.check_fields [] l.
Proof.
  intros w l. unfold V2.check_fields.
  rewrite (v2_push_if _ _ (V2.push_if _ _ (V2.push_if _ _ (V2.push_if _ _ w)))).
  rewrite (v2_push_if _ _ (V2.push_if _ _ (V2.push_if _ _ w))).
  rewrite (v2_push_if _ _ (V2.push_if _ _ w)).
  rewrite (v2_push_if _ _ w).
  rewrite (v2_push_if _ _ (V2.push_if _ _ (V2.push_if _ _ (V2.push_if _ _ [])))).
  rewrite (v2_push_if _ _ (V2.push_if _ _ (V2.push_if _ _ []))).
  rewrite (v2_push_if _ _ (V2.push_if _ _ [])).
  repeat rewrite app_assoc. reflexivity.
Qed.

Lemma v2_check_sanity : forall w l, V2.check_sanity w l = w ++ V2.check_sanity [] l.
Proof.
  intros w l. unfold V2.check_sanity.
  rewrite (v2_push_if _ _ (V2.push_if _ _ w)).
  rewrite (v2_push_if _ _ w).
  rewrite (v2_push_if _ _ (V2.push_if _ _ [])).
  repeat rewrite app_assoc. reflexivity.
Qed.

Lemma fold_pushes {A : Type} (f : list string -> A -> list string) :
  (forall w a, f w a = w ++ f [] a) ->
  forall l w, fold_left f l w = w ++ flat_map (f []) l.
Proof.
  intros Hf. induction l as [|a l IH]; intros w; simpl.
  - symmetry. apply app_nil_r.
  - rewrite IH, (Hf w a). symmetry. apply app_assoc.
Qed.

Lemma v1_warnings : forall ls,
  V1.warnings (V1.validateListings ls) =
  flat_map (V1.check_fields []) ls ++ flat_map (V1.check_sanity []) ls.
Proof.
  intros ls. unfold V1.validateListings. simpl.
  rewrite (fold_pushes _ v1_check_sanity), (fold_pushes _ v1_check_fields). reflexivity.
Qed.

Lemma v2_warnings : forall ls,
  V2.warnings (V2.validateListings ls) =
  flat_map (V2.check_fields []) ls ++ flat_map (V2.check_sanity []) ls.
Proof.
  intros ls. unfold V2.validateListings. simpl.
  rewrite (fold_pushes _ v2_check_sanity), (fold_pushes _ v2_check_fields). reflexivity.
Qed.

Lemma v1_valid : forall ls,
  V1.valid (V1.validateListings ls) = Nat.leb (List.length ls) 200.
Proof.
  intros ls. unfold V1.validateListings, V1.push_if. cbv zeta.
  destruct (Nat.ltb 200 (List.length ls)) eqn:E; simpl.
  - apply Nat.ltb_lt in E. symmetry. apply Nat.leb_gt. exact E.
  - apply Nat.ltb_ge in E. symmetry. apply Nat.leb_le. exact E.
Qed.

Lemma v2_valid : forall ls,
  V2.valid (V2.validateListings ls) = Nat.leb (List.length ls) 200.
Proof.
  intros ls. unfold V2.validateListings, V2.push_if. cbv zeta.
  destruct (Nat.ltb 200 (List.length ls)) eqn:E; simpl.
  - apply Nat.ltb_lt in E. symmetry. apply Nat.leb_gt. exact E.
  - apply Nat.ltb_ge in E. symmetry. apply Nat.leb_le. exact E.
Qed.

Lemma v1_valid_errors : forall ls,
  V1.valid (V1.validateListings ls) = true <-> V1.errors (V1.validateListings ls) = [].
Proof.
  intros ls. unfold V1.validateListings, V1.push_if. cbv zeta.
  destruct (Nat.ltb 200 (List.length ls)); simpl; split; intros H;
    try reflexivity; discriminate.
Qed.

Lemma v2_valid_errors : forall ls,
  V2.valid (V2.validateListings ls) = true <-> V2.errors (V2.validateListings ls) = [].
Proof.
  intros ls. unfold V2.validateListings, V2.push_if. cbv zeta.
  destruct (Nat.ltb 200 (List.length ls)); simpl; split; intros H;
    try reflexivity; discriminate.
Qed.

End ValidatorFacts.



Module RentFacts.
Import JsNum.

Lemma v1_absent : forall o,
  V1.absent_not_zero o = true <-> (o = None \/ o = Some S754_nan).
Proof.
  intros [x|]; simpl.
  - destruct x as [s|s| |s m e]; simpl; split; intros H;
      try discriminate; try (right; reflexivity);
      try (destruct H as [H|H]; discriminate); try reflexivity.
    all: destruct s; try discriminate; destruct H as [H|H]; discriminate.
  - split; intros _; [left|]; reflexivity.
Qed.

Lemma v2_absent : forall o,
  V2.absent_not_zero o = true <-> (o = None \/ o = Some S754_nan).
Proof. exact v1_absent. Qed.

(** Two messages about the same record differ when their endings do. *)
Ltac same_record H :=
  apply ValidatorFacts.append_cancel in H;
  apply ValidatorFacts.append_cancel in H;
  discriminate H.

Lemma v1_rent_message : forall l,
  In ("Listing " ++ V1.id l ++ ": missing rent")%string
     (V1.check_fields [] l ++ V1.check_sanity [] l)
  <-> V1.absent_not_zero (V1.rent l) = true.
Proof.
  intros l. unfold V1.check_fields, V1.check_sanity, V1.push_if.
  destruct (negb (truthy_str (V1.address l))), (V1.absent_not_zero (V1.rent l)),
    (negb (truthy_opt (V1.sqft l))), (V1.above_million (V1.rent l)),
    (V1.above_million (V1.sqft l)); cbn [app In]; split; intros H; try reflexivity;
    try discriminate H; try (clear H; auto 10; fail);
    repeat (destruct H as [H|H]; [same_record H|]); contradiction.
Qed.

Lemma v2_rent_message : forall l,
  In ("Listing " ++ V2.id l ++ ": missing rent")%string
     (V2.check_fields [] l ++ V2.check_sanity [] l)
  <-> V2.absent_not_zero (V2.rent l) = true.
Proof.
  intros l. unfold V2.check_fields, V2.check_sanity, V2.push_if.
  destruct (negb (truthy_str (V2.address l))), (V2.absent_not_zero (V2.rent l)),
    (negb (truthy_opt (V2.sqft l))), (negb (truthy_str (V2.imageUrl l))),
    (V2.above_million (V2.rent l)), (V2.above_million (V2.sqft l));
    cbn [app In]; split; intros H; try reflexivity;
    try discriminate H; try (clear H; auto 10; fail);
    repeat (destruct H as [H|H]; [same_record H|]); contradiction.
Qed.

Lemma v1_single : forall l,
  V1.warnings (V1.validateListings [l]) = V1.check_fields [] l ++ V1.check_sanity [] l.
Proof.
  intros l. rewrite ValidatorFacts.v1_warnings. simpl. repeat rewrite app_nil_r. reflexivity.
Qed.

Lemma v2_single : forall l,
  V2.warnings (V2.validateListings [l]) = V2.check_fields [] l ++ V2.check_sanity [] l.
Proof.
  intros l. rewrite ValidatorFacts.v2_warnings. simpl. repeat rewrite app_nil_r. reflexivity.
Qed.

End RentFacts.

(** C10: for every record the validator emits the missing-rent warning
    exactly when the rent is [null] or [NaN], the falsy values other than
    zero; a rent of zero, of either sign, gives no such warning; a record
    with an absent rent gets the warning in every record set that holds
    it. *)
Theorem C10_missing_rent_iff_absent :
  (forall l : V1.listing,
     In ("Listing " ++ V1.id l ++ ": missing rent")%string
        (V1.warnings (V1.validateListings [l]))
     <-> (V1.rent l = None \/ V1.rent l = Some S754_nan))
  /\ (forall l : V2.listing,
        In ("Listing " ++ V2.id l ++ ": missing rent")%string
           (V2.warnings (V2.validateListings [l]))
        <-> (V2.rent l = None \/ V2.rent l = Some S754_nan))
  /\ (forall (l : V1.listing) (s : bool),
        V1.rent l = Some (S754_zero s) ->
        ~ In ("Listing " ++ V1.id l ++ ": missing rent")%string
             (V1.warnings (V1.validateListings [l])))
  /\ (forall (l : V2.listing) (s : bool),
        V2.rent l = Some (S754_zero s) ->
        ~ In ("Listing " ++ V2.id l ++ ": missing rent")%string
             (V2.warnings (V2.validateListings [l])))
  /\ (forall (ls : list V1.listing) (l : V1.listing),
        In l ls -> V1.rent l = None \/ V1.rent l = Some S754_nan ->
        In ("Listing " ++ V1.id l ++ ": missing rent")%string
           (V1.warnings (V1.validateListings ls)))
  /\ (forall (ls : list V2.listing) (l : V2.listing),
        In l ls -> V2.rent l = None \/ V2.rent l = Some S754_nan ->
        In ("Listing " ++ V2.id l ++ ": missing rent")%string
           (V2.warnings (V2.validateListings ls))).
Proof.
  repeat match goal with |- _ /\ _ => split end.
  - intros l. rewrite RentFacts.v1_single, RentFacts.v1_rent_message.
    apply RentFacts.v1_absent.
  - intros l. rewrite RentFacts.v2_single, RentFacts.v2_rent_message.
    apply RentFacts.v2_absent.
  - intros l s Hz Hin. rewrite RentFacts.v1_single, RentFacts.v1_rent_message in Hin.
    apply RentFacts.v1_absent in Hin. rewrite Hz in Hin.
    destruct Hin as [H|H]; discriminate.
  - intros l s Hz Hin. rewrite RentFacts.v2_single, RentFacts.v2_rent_message in Hin.
    apply RentFacts.v2_absent in Hin. rewrite Hz in Hin.
    destruct Hin as [H|H]; discriminate.
  - intros ls l Hin Habs. rewrite ValidatorFacts.v1_warnings.
    apply in_or_app. left. apply in_flat_map. exists l. split; [exact Hin|].
    apply RentFacts.v1_absent in Habs.
    apply RentFacts.v1_rent_message in Habs.
    apply in_app_or in Habs. destruct Habs as [H|H]; [exact H|].
    exfalso. revert H. unfold V1.check_sanity, V1.push_if.
    destruct (V1.above_million (V1.rent l)), (V1.above_million (V1.sqft l)); cbn [app In];
      intros H; repeat (destruct H as [H|H]; [RentFacts.same_record H|]); contradiction.
  - intros ls l Hin Habs. rewrite ValidatorFacts.v2_warnings.
    apply in_or_app. left. apply in_flat_map. exists l. split; [exact Hin|].
    apply RentFacts.v2_absent in Habs.
    apply RentFacts.v2_rent_message in Habs.
    apply in_app_or in Habs. destruct Habs as [H|H]; [exact H|].
    exfalso. revert H. unfold V2.check_sanity, V2.push_if.
    destruct (V2.above_million (V2.rent l)), (V2.above_million (V2.sqft l)); cbn [app In];
      intros H; repeat (destruct H as [H|H]; [RentFacts.same_record H|]); contradiction.
Qed.

Lemma C10_missing_rent_iff_absent_witness :
  ~ In ("Listing " ++ V1.id Samples.free_listing_v1 ++ ": missing rent")%string
       (V1.warnings (V1.validateListings [Samples.free_listing_v1]))
  /\ In ("Listing " ++ V1.id Samples.bare_listing_v1 ++ ": missing rent")%string
        (V1.warnings (V1.validateListings [Samples.bare_listing_v1]))
  /\ In ("Listing " ++ V2.id Samples.bare_listing_v2 ++ ": missing rent")%string
        (V2.warnings (V2.validateListings
                        [Samples.bare_listing_v2; Samples.bare_listing_v2])).
Proof.
  destruct C10_missing_rent_iff_absent as (A1 & _ & Z1 & _ & _ & L2).
  repeat match goal with |- _ /\ _ => split end.
  - apply (Z1 Samples.free_listing_v1 false). reflexivity.
  - apply (proj2 (A1 Samples.bare_listing_v1)). left. reflexivity.
  - apply (L2 [Samples.bare_listing_v2; Samples.bare_listing_v2] Samples.bare_listing_v2).
    + simpl. left. reflexivity.
    + left. reflexivity.
Defined.

(** C8, as the scripts have it: a record without address, price and
    primary image, whose area is present and within bounds, gets exactly
    three warnings from the validator of the detail-page script (missing
    address, missing rent, no images found) and exactly two from the
    validator of the card script, which has no image check; in a set of
    at most 200 records the run is valid. *)
Theorem C8_warnings_of_a_bare_record :
  (forall (pre post : list V2.listing) (l : V2.listing) (a : JsNum.number),
     List.length (pre ++ l :: post) <= 200 ->
     V2.address l = None -> V2.rent l = None -> V2.imageUrl l = None ->
     V2.sqft l = Some a -> JsNum.truthy a = true ->
     JsNum.gt a (JsNum.of_Z 1000000) = false ->
     let v := V2.validateListings (pre ++ l :: post) in
     let mine := [("Listing " ++ V2.id l ++ ": missing address")%string;
                  ("Listing " ++ V2.id l ++ ": missing rent")%string;
                  ("Listing " ++ V2.id l ++ ": no images found")%string] in
     V2.valid v = true /\ V2.errors v = []
     /\ V2.check_fields [] l ++ V2.check_sanity [] l = mine
     /\ V2.warnings v =
        flat_map (V2.check_fields []) pre ++ mine
        ++ flat_map (V2.check_fields []) post
        ++ flat_map (V2.check_sanity []) pre ++ flat_map (V2.check_sanity []) post)
  /\
  (forall (pre post : list V1.listing) (l : V1.listing) (a : JsNum.number),
     List.length (pre ++ l :: post) <= 200 ->
     V1.address l = None -> V1.rent l = None -> V1.imageUrl l = None ->
     V1.sqft l = Some a -> JsNum.truthy a = true ->
     JsNum.gt a (JsNum.of_Z 1000000) = false ->
     let v := V1.validateListings (pre ++ l :: post) in
     let mine := [("Listing " ++ V1.id l ++ ": missing address")%string;
                  ("Listing " ++ V1.id l ++ ": missing rent")%string] in
     V1.valid v = true /\ V1.errors v = []
     /\ V1.check_fields [] l ++ V1.check_sanity [] l = mine
     /\ V1.warnings v =
        flat_map (V1.check_fields []) pre ++ mine
        ++ flat_map (V1.check_fields []) post
        ++ flat_map (V1.check_sanity []) pre ++ flat_map (V1.check_sanity []) post).
Proof.
  split.
  - intros pre post l a Hlen Ha Hr Hi Hs Ht Hg v mine.
    assert (Hf : V2.check_fields [] l = mine).
    { unfold V2.check_fields, mine. rewrite Ha, Hr, Hi, Hs. simpl. rewrite Ht. reflexivity. }
    assert (Hc : V2.check_sanity [] l = []).
    { unfold V2.check_sanity, V2.above_million. rewrite Hr, Hs, Ht, Hg. reflexivity. }
    assert (Hv : V2.valid v = true).
    { unfold v. rewrite ValidatorFacts.v2_valid. apply Nat.leb_le. exact Hlen. }
    repeat split.
    + exact Hv.
    + apply ValidatorFacts.v2_valid_errors. exact Hv.
    + rewrite Hf, Hc. apply app_nil_r.
    + unfold v. rewrite ValidatorFacts.v2_warnings.
      repeat rewrite flat_map_app. simpl. rewrite Hf, Hc. simpl.
      repeat rewrite <- app_assoc. reflexivity.
  - intros pre post l a Hlen Ha Hr Hi Hs Ht Hg v mine.
    assert (Hf : V1.check_fields [] l = mine).
    { unfold V1.check_fields, mine. rewrite Ha, Hr, Hs. simpl. rewrite Ht. reflexivity. }
    assert (Hc : V1.check_sanity [] l = []).
    { unfold V1.check_sanity, V1.above_million. rewrite Hr, Hs, Ht, Hg. reflexivity. }
    assert (Hv : V1.valid v = true).
    { unfold v. rewrite ValidatorFacts.v1_valid. apply Nat.leb_le. exact Hlen. }
    repeat split.
    + exact Hv.
    + apply ValidatorFacts.v1_valid_errors. exact Hv.
    + rewrite Hf, Hc. apply app_nil_r.
    + unfold v. rewrite ValidatorFacts.v1_warnings.
      repeat rewrite flat_map_app. simpl. rewrite Hf, Hc. simpl.
      repeat rewrite <- app_assoc. reflexivity.
Qed.

Lemma C8_warnings_of_a_bare_record_witness :
  V2.warnings (V2.validateListings [Samples.bare_listing_v2]) =
    ["Listing 0a1b2c3d-4e5f: missing address";
     "Listing 0a1b2c3d-4e5f: missing rent";
     "Listing 0a1b2c3d-4e5f: no images found"]
  /\ V2.valid (V2.validateListings [Samples.bare_listing_v2]) = true
  /\ V1.valid (V1.validateListings [Samples.bare_listing_v1]) = true.
Proof.
  destruct C8_warnings_of_a_bare_record as [A2 A1].
  assert (Hlen : 1 <= 200) by (repeat constructor).
  destruct (A2 [] [] Samples.bare_listing_v2 (JsNum.of_Z 1200) Hlen
               eq_refl eq_refl eq_refl eq_refl eq_refl eq_refl) as (V & _ & _ & W).
  destruct (A1 [] [] Samples.bare_listing_v1 (JsNum.of_Z 1200) Hlen
               eq_refl eq_refl eq_refl eq_refl eq_refl eq_refl) as (V1 & _).
  split; [exact W|split; [exact V|exact V1]].
Defined.

(** The card script gives the record of claim C8 two warnings, not three. *)
Lemma C8_counterexample :
  V1.address Samples.bare_listing_v1 = None
  /\ V1.rent Samples.bare_listing_v1 = None
  /\ V1.imageUrl Samples.bare_listing_v1 = None
  /\ V1.validateListings [Samples.bare_listing_v1] =
     V1.mkValidation []
       ["Listing 0a1b2c3d-4e5f: missing address";
        "Listing 0a1b2c3d-4e5f: missing rent"]
       true.
Proof. repeat split. Qed.

(* ------------------------------------------------------------------ *)
(** ** Status, rate and title of an assembled record *)

Module RecordFacts.
Import JsString Regex JsNum Dom Patterns.

Lemma v1_status : forall a,
  (V1.derive_status a = "available" <-> a = "Now")
  /\ (V1.derive_status a = "available" \/ V1.derive_status a = "coming-soon").
Proof.
  intros a. unfold V1.derive_status. destruct (String.eqb a "Now") eqn:E.
  - apply String.eqb_eq in E. split; [split; intros _; [exact E|reflexivity]|left; reflexivity].
  - apply String.eqb_neq in E.
    split; [split; intros H; [discriminate|contradiction]|right; reflexivity].
Qed.

Lemma hit_n : forall c, cls_hit true (Ascii.eqb "n") c = Ascii.eqb (to_lower c) "n".
Proof. intros [[] [] [] [] [] [] [] []]; reflexivity. Qed.

Lemma hit_o : forall c, cls_hit true (Ascii.eqb "o") c = Ascii.eqb (to_lower c) "o".
Proof. intros [[] [] [] [] [] [] [] []]; reflexivity. Qed.

Lemma hit_w : forall c, cls_hit true (Ascii.eqb "w") c = Ascii.eqb (to_lower c) "w".
Proof. intros [[] [] [] [] [] [] [] []]; reflexivity. Qed.

Ltac letter hit c :=
  rewrite hit; cbn [lower prefix];
  let E := fresh "E" in
  destruct (Ascii.eqb (to_lower c) _) eqn:E;
  [ apply Ascii.eqb_eq in E; rewrite E;
    destruct (ascii_dec _ _) as [_|ne]; [|exfalso; apply ne; reflexivity];
    cbn [xorb flat_map app Regex.rest caps]
  | destruct (ascii_dec _ _) as [e|_];
    [rewrite <- e in E; discriminate | reflexivity] ].

(** [/now/i] matches at a position exactly when the lower-cased text
    starts with [now] there. *)
Lemma now_here : forall p t,
  (match match_at true V2.now_re p t with Some _ => true | None => false end)
  = prefix "now" (lower t).
Proof.
  intros p t. unfold match_at, V2.now_re.
  cbn [lit run Regex.rest flat_map chr caps].
  destruct t as [|c1 t]; [reflexivity|].
  letter hit_n c1. rewrite app_nil_r.
  destruct t as [|c2 t]; [reflexivity|].
  letter hit_o c2. rewrite app_nil_r.
  destruct t as [|c3 t]; [reflexivity|].
  letter hit_w c3. destruct (lower t); reflexivity.
Qed.

Lemma now_somewhere : forall t p,
  (match exec_from true V2.now_re p t with Some _ => true | None => false end)
  = includes "now" (lower t).
Proof.
  induction t as [|c t IH]; intros p.
  - reflexivity.
  - cbn [exec_from lower includes]. rewrite <- (IH (Some c)).
    change (String (to_lower c) (lower t)) with (lower (String c t)).
    rewrite <- (now_here p (String c t)).
    destruct (match_at true V2.now_re p (String c t)); reflexivity.
Qed.

Lemma v2_status : forall a,
  (V2.derive_status a = "available" <-> includes "now" (lower a) = true)
  /\ (V2.derive_status a = "available" \/ V2.derive_status a = "coming-soon").
Proof.
  intros a. unfold V2.derive_status, test, exec.
  rewrite <- (now_somewhere a None).
  destruct (exec_from true V2.now_re None a).
  - split; [split; reflexivity|left; reflexivity].
  - split; [split; discriminate|right; reflexivity].
Qed.

End RecordFacts.

(** C3, as the scripts have it: the status of a record is computed from
    its availability alone and is either [available] or [coming-soon].
    In the card script it is [available] exactly when the availability
    is [Now].  In the detail-page script it is [available] when the
    availability is the word [Now] in any letter case and [coming-soon]
    when the availability does not contain that word; nothing is said of
    an availability that only contains it. *)
Theorem C3_status_from_availability :
  (forall card uuid, exists l,
      V1.extractListingData card uuid = Ok l
      /\ V1.status l = V1.derive_status (V1.available l)
      /\ (V1.status l = "available" <-> V1.available l = "Now")
      /\ (V1.status l = "available" \/ V1.status l = "coming-soon"))
  /\ (forall doc uuid, exists l,
        V2.parseDetailPage doc uuid = Ok l
        /\ V2.status l = V2.derive_status (V2.available l)
        /\ (JsString.lower (V2.available l) = "now" -> V2.status l = "available")
        /\ (JsString.includes "now" (JsString.lower (V2.available l)) = false ->
            V2.status l = "coming-soon")
        /\ (JsString.lower (V2.available l) = "now"
            \/ JsString.includes "now" (JsString.lower (V2.available l)) = false ->
            (V2.status l = "available" <-> JsString.lower (V2.available l) = "now"))
        /\ (V2.status l = "available" \/ V2.status l = "coming-soon")).
Proof.
  split.
  - intros card uuid.
    destruct (ExtractFacts.v1_record card uuid)
      as (sqft & address & available & type & rate & city & _ & _ & _ & _ & _ & _ & H).
    eexists. split; [exact H|]. simpl. split; [reflexivity|].
    apply RecordFacts.v1_status.
  - intros doc uuid.
    destruct (ExtractFacts.v2_record doc uuid)
      as (address & rent & sqft & rate & available & type & lease & utilities & city
          & _ & _ & _ & _ & _ & _ & _ & _ & _ & H).
    eexists. split; [exact H|]. cbn [V2.status V2.available].
    split; [reflexivity|].
    destruct (RecordFacts.v2_status available) as [Hiff Hor].
    assert (Hnow : JsString.lower available = "now" ->
                   V2.derive_status available = "available").
    { intros E. apply Hiff. rewrite E. reflexivity. }
    assert (Hnot : JsString.includes "now" (JsString.lower available) = false ->
                   V2.derive_status available = "coming-soon").
    { intros E. destruct Hor as [Ha|Hc]; [|exact Hc].
      apply Hiff in Ha. rewrite E in Ha. discriminate Ha. }
    split; [exact Hnow|]. split; [exact Hnot|]. split; [|exact Hor].
    intros [E|E]; split.
    + intros _. exact E.
    + exact Hnow.
    + intros Ha. rewrite (Hnot E) in Ha. discriminate Ha.
    + exact Hnow.
Qed.

Lemma C3_status_from_availability_witness :
  (exists l, V1.extractListingData Samples.office_card "0a1b2c3d-4e5f" = Ok l
             /\ V1.available l = "Now" /\ V1.status l = "available")
  /\ (exists l, V2.parseDetailPage Samples.warehouse_page "0a1b2c3d-4e5f" = Ok l
                /\ V2.available l = "3/1/2027" /\ V2.status l = "coming-soon")
  /\ (exists l, V2.parseDetailPage Samples.capitals_page "0a1b2c3d-4e5f" = Ok l
                /\ V2.available l = "NOW" /\ V2.status l = "available").
Proof.
  split; [|split].
  - destruct (proj1 C3_status_from_availability Samples.office_card "0a1b2c3d-4e5f")
      as (l & Hl & _ & Hiff & _).
    exists l. split; [exact Hl|].
    assert (Ha : V1.available l = "Now")
      by (vm_compute in Hl; injection Hl as <-; reflexivity).
    split; [exact Ha|]. apply Hiff. exact Ha.
  - destruct (proj2 C3_status_from_availability Samples.warehouse_page "0a1b2c3d-4e5f")
      as (l & Hl & _ & _ & Hnot & _).
    exists l. split; [exact Hl|].
    assert (Ha : V2.available l = "3/1/2027")
      by (vm_compute in Hl; injection Hl as <-; reflexivity).
    split; [exact Ha|]. apply Hnot. rewrite Ha. vm_compute. reflexivity.
  - destruct (proj2 C3_status_from_availability Samples.capitals_page "0a1b2c3d-4e5f")
      as (l & Hl & _ & Hnow & _).
    exists l. split; [exact Hl|].
    assert (Ha : V2.available l = "NOW")
      by (vm_compute in Hl; injection Hl as <-; reflexivity).
    split; [exact Ha|]. apply Hnow. rewrite Ha. vm_compute. reflexivity.
Defined.

(** A detail page whose availability is not the token [Now] and whose
    status is [available]: the page writes the word in capitals. *)
Lemma C3_counterexample :
  exists l, V2.parseDetailPage Samples.capitals_page "0a1b2c3d-4e5f" = Ok l
            /\ V2.available l = "NOW"
            /\ V2.available l <> "Now"
            /\ V2.status l = "available".
Proof.
  eexists. split; [vm_compute; reflexivity|]. simpl.
  split; [reflexivity|]. split; [discriminate|reflexivity].
Qed.

(** C4, as the scripts have it: a per-area rate stated in the text is
    parsed and kept, in both scripts.  Without a stated rate the card
    script derives the rate from a price and an area that are both
    present and truthy, as [rent / sqft * 12] rounded to two decimals by
    [toFixed], and leaves it absent when either is absent; the
    detail-page script derives nothing and leaves the rate absent. *)
Theorem C4_rate_per_area :
  (forall card uuid, exists l,
      V1.extractListingData card uuid = Ok l
      /\ match Regex.exec true V1.rate_re (Dom.textContent (Dom.self card)) with
         | Some m =>
             exists g, Regex.group 1 m = Some g
                       /\ V1.rentPerSF l = Some (JsNum.parseFloat g)
         | None =>
             match V1.rent l, V1.sqft l with
             | Some r, Some a =>
                 JsNum.truthy r = true -> JsNum.truthy a = true ->
                 V1.rentPerSF l =
                 Some (JsNum.parseFloat
                         (JsNum.toFixed2 (JsNum.mul (JsNum.div r a) (JsNum.of_Z 12))))
             | _, _ => V1.rentPerSF l = None
             end
         end)
  /\ (forall doc uuid, exists l,
        V2.parseDetailPage doc uuid = Ok l
        /\ let text := Dom.textContent (Dom.self (Dom.body doc)) in
           match V2.or_match (Regex.exec true V2.rate_label_re text)
                             (Regex.exec true V2.rate_re text) with
           | Some m =>
               exists g, Regex.group 1 m = Some g
                         /\ V2.rentPerSF l =
                            Some (JsNum.parseFloat
                                    (Regex.replace_all false Patterns.comma_re "" g))
           | None => V2.rentPerSF l = None
           end).
Proof.
  split.
  - intros card uuid.
    destruct (ExtractFacts.v1_record card uuid)
      as (sqft & address & available & type & rate & city & _ & _ & _ & _ & Hr & _ & H).
    eexists. split; [exact H|]. simpl.
    unfold V1.extract_rentPerSF in Hr.
    destruct (Regex.exec true V1.rate_re (Dom.textContent (Dom.self card))) as [m|].
    + unfold capture, deref in Hr. destruct (Regex.group 1 m) as [g|]; [|discriminate].
      simpl in Hr. injection Hr as <-. exists g. split; reflexivity.
    + injection Hr as <-. unfold V1.derived_rate.
      destruct (V1.extract_rent (Dom.textContent (Dom.self card))) as [r|]; [|reflexivity].
      destruct sqft as [a|]; [|reflexivity].
      intros Hr Ha. rewrite Hr, Ha. reflexivity.
  - intros doc uuid.
    destruct (ExtractFacts.v2_record doc uuid)
      as (address & rent & sqft & rate & available & type & lease & utilities & city
          & _ & _ & _ & Hr & _ & _ & _ & _ & _ & H).
    eexists. split; [exact H|]. simpl.
    unfold V2.extract_rentPerSF in Hr.
    destruct (V2.or_match _ _) as [m|].
    + unfold capture, deref in Hr. destruct (Regex.group 1 m) as [g|]; [|discriminate].
      simpl in Hr. injection Hr as <-. exists g. split; reflexivity.
    + injection Hr as <-. reflexivity.
Qed.

(** The card with [$2,500] and [1,200 SF] and no stated rate. *)
Lemma C4_rate_per_area_witness :
  exists l, V1.extractListingData Samples.office_card "0a1b2c3d-4e5f" = Ok l
            /\ V1.rent l = Some (JsNum.of_Z 2500)
            /\ V1.sqft l = Some (JsNum.of_Z 1200)
            /\ V1.rentPerSF l = Some (JsNum.of_Z 25).
Proof.
  destruct (proj1 C4_rate_per_area Samples.office_card "0a1b2c3d-4e5f") as (l & Hl & Hrate).
  exists l. split; [exact Hl|].
  vm_compute in Hl. injection Hl as <-.
  split; [reflexivity|]. split; [reflexivity|].
  exact (Hrate eq_refl eq_refl).
Defined.

(** A detail page with a price and an area, no stated rate, and no rate
    in the record. *)
Lemma C4_counterexample :
  exists l, V2.parseDetailPage Samples.warehouse_page "0a1b2c3d-4e5f" = Ok l
            /\ V2.rent l = Some (JsNum.of_Z 3000)
            /\ V2.sqft l = Some (JsNum.of_Z 1500)
            /\ V2.or_match
                 (Regex.exec true V2.rate_label_re
                    (Dom.textContent (Dom.self (Dom.body Samples.warehouse_page))))
                 (Regex.exec true V2.rate_re
                    (Dom.textContent (Dom.self (Dom.body Samples.warehouse_page))))
               = None
            /\ V2.rentPerSF l = None.
Proof.
  eexists. split; [vm_compute; reflexivity|]. simpl.
  repeat split; vm_compute; reflexivity.
Qed.

(* ------------------------------------------------------------------ *)
(** ** Record sets *)

Module RunFacts.
Import JsString Regex JsNum Dom Patterns.

Lemma forEach_invariant {S A : Type} (f : S -> A -> result S) (I : S -> Prop) :
  (forall st a st', I st -> f st a = Ok st' -> I st') ->
  forall l st st', I st -> V1.forEach f l st = Ok st' -> I st'.
Proof.
  intros Hf. induction l as [|a l IH]; intros st st' Hi H; simpl in H.
  - injection H as <-. exact Hi.
  - destruct (f st a) as [st1|e] eqn:E; simpl in H; [|discriminate].
    eapply IH; [|exact H]. eapply Hf; eassumption.
Qed.

(** What one call of the [forEach] callback does to [listings]. *)
Lemma visit_link_listings : forall seen ls link seen' ls',
  V1.visit_link (seen, ls) link = Ok (seen', ls') ->
  ls' = ls
  \/ exists card uuid l, V1.extractListingData card uuid = Ok l /\ ls' = ls ++ [l].
Proof.
  intros seen ls link seen' ls' H. unfold V1.visit_link in H.
  destruct (getAttribute "href" link) as [href|]; simpl in H; [|discriminate].
  destruct (exec false uuid_re href) as [m|].
  2:{ injection H as _ <-. left. reflexivity. }
  destruct (capture 1 m) as [uuid|e]; simpl in H; [|discriminate].
  destruct (StrSet.has uuid seen).
  { injection H as _ <-. left. reflexivity. }
  destruct (V1.find_card link) as [card|].
  2:{ injection H as _ <-. left. reflexivity. }
  destruct (V1.extractListingData card uuid) as [l|e] eqn:E; simpl in H; [|discriminate].
  injection H as _ <-. right. exists card, uuid, l. split; [exact E|reflexivity].
Qed.

(** A property of every extracted record holds of every record of the
    set. *)
Lemma parseListings_records (P : V1.listing -> Prop) :
  (forall card uuid l, V1.extractListingData card uuid = Ok l -> P l) ->
  forall doc p, V1.parseListings doc = Ok p -> Forall P (V1.listings p).
Proof.
  intros HP doc p H. unfold V1.parseListings in H. cbv zeta in H.
  destruct (Nat.eqb _ 0).
  - destruct (no_vacancies _); [|discriminate]. injection H as <-. constructor.
  - destruct (V1.forEach V1.visit_link _ ([], [])) as [st|e] eqn:E; simpl in H; [|discriminate].
    injection H as <-. simpl.
    apply (forEach_invariant V1.visit_link (fun st => Forall P (snd st))) in E.
    + exact E.
    + intros [seen ls] link [seen' ls'] Hi Hv. simpl in *.
      destruct (visit_link_listings _ _ _ _ _ Hv) as [->|(card & uuid & l & Hl & ->)].
      * exact Hi.
      * apply Forall_app. split; [exact Hi|]. constructor; [|constructor].
        eapply HP. exact Hl.
    + constructor.
Qed.

Lemma fold_left_invariant {S A : Type} (f : S -> A -> S) (I : S -> Prop) :
  (forall st a, I st -> I (f st a)) ->
  forall l st, I st -> I (fold_left f l st).
Proof.
  intros Hf. induction l as [|a l IH]; intros st Hi; simpl; [exact Hi|].
  apply IH. apply Hf. exact Hi.
Qed.

Lemma main_records (P : V2.listing -> Prop) :
  (forall doc uuid l, V2.parseDetailPage doc uuid = Ok l -> P l) ->
  forall h ls w, V2.main h = V2.Snapshot ls w -> Forall P ls.
Proof.
  intros HP h ls w H. unfold V2.main in H.
  assert (Hfailed : forall message, V2.failed h message <> V2.Snapshot ls w).
  { intros message. unfold V2.failed.
    destruct (Host.summary_file h); [destruct (Host.write_failure h)|]; discriminate. }
  destruct (let* indexHtml := Host.fetch h V2.APPFOLIO_URL in
            V2.parseIndexPage indexHtml)
    as [ix|e]; [|exfalso; exact (Hfailed _ H)].
  destruct (V2.noVacancies ix || Nat.eqb (List.length (V2.uuids ix)) 0)%bool.
  { destruct (Host.write_output h); [discriminate|exfalso; exact (Hfailed _ H)]. }
  cbv zeta in H.
  destruct (Nat.eqb (List.length (fold_left (V2.visit_detail (Host.fetch h))
                                    (V2.uuids ix) [])) 0);
    [exfalso; exact (Hfailed _ H)|].
  destruct (negb _); [discriminate|].
  destruct (V2.write_files h); [|exfalso; exact (Hfailed _ H)].
  injection H as <- _.
  apply (fold_left_invariant (V2.visit_detail (Host.fetch h)) (Forall P)); [|constructor].
  intros st uuid Hi. unfold V2.visit_detail.
  destruct (Host.fetch h _) as [d|e]; simpl; [|exact Hi].
  destruct (V2.parseDetailPage d uuid) as [l|e] eqn:E; [|exact Hi].
  apply Forall_app. split; [exact Hi|]. constructor; [|constructor].
  eapply HP. exact E.
Qed.

(** The title and where it comes from. *)
Lemma v1_title : forall card address uuid,
  let t := V1.extract_title card address uuid in
  t <> ""
  /\ (V1.heading_title card = Some t \/ V1.link_title card = Some t
      \/ address = Some t \/ t = "Listing " ++ take 8 uuid)%string.
Proof.
  intros card address uuid. unfold V1.extract_title.
  destruct (V1.heading_title card) as [[|c h]|]; simpl.
  - destruct (V1.link_title card) as [[|c k]|].
    + destruct address as [[|c a]|]; simpl; split; try discriminate; auto.
    + split; [discriminate|auto].
    + destruct address as [[|c a]|]; simpl; split; try discriminate; auto.
  - split; [discriminate|auto].
  - destruct (V1.link_title card) as [[|c k]|].
    + destruct address as [[|c a]|]; simpl; split; try discriminate; auto.
    + split; [discriminate|auto].
    + destruct address as [[|c a]|]; simpl; split; try discriminate; auto.
Qed.

Lemma v2_title : forall doc uuid,
  let t := V2.extract_title doc uuid in
  t <> ""
  /\ (V2.heading_title doc = Some t \/ V2.page_title doc = Some t
      \/ t = "Listing " ++ take 8 uuid)%string.
Proof.
  intros doc uuid. unfold V2.extract_title.
  destruct (V2.heading_title doc) as [[|c h]|]; simpl.
  - destruct (V2.page_title doc) as [[|c k]|]; simpl; split; try discriminate; auto.
  - split; [discriminate|auto].
  - destruct (V2.page_title doc) as [[|c k]|]; simpl; split; try discriminate; auto.
Qed.

Lemma v1_record_title : forall card uuid l,
  V1.extractListingData card uuid = Ok l ->
  V1.id l = uuid
  /\ V1.title l <> ""
  /\ (V1.heading_title card = Some (V1.title l)
      \/ V1.link_title card = Some (V1.title l)
      \/ V1.address l = Some (V1.title l)
      \/ V1.title l = "Listing " ++ take 8 (V1.id l))%string.
Proof.
  intros card uuid l H.
  destruct (ExtractFacts.v1_record card uuid)
    as (sqft & address & available & type & rate & city & _ & _ & _ & _ & _ & _ & Hrec).
  rewrite Hrec in H. injection H as <-. simpl.
  split; [reflexivity|]. apply v1_title.
Qed.

Lemma v2_record_title : forall doc uuid l,
  V2.parseDetailPage doc uuid = Ok l ->
  V2.id l = uuid
  /\ V2.title l <> ""
  /\ (V2.heading_title doc = Some (V2.title l)
      \/ V2.page_title doc = Some (V2.title l)
      \/ V2.title l = "Listing " ++ take 8 (V2.id l))%string.
Proof.
  intros doc uuid l H.
  destruct (ExtractFacts.v2_record doc uuid)
    as (address & rent & sqft & rate & available & type & lease & utilities & city
        & _ & _ & _ & _ & _ & _ & _ & _ & _ & Hrec).
  rewrite Hrec in H. injection H as <-. simpl.
  split; [reflexivity|]. apply v2_title.
Qed.

End RunFacts.

(** C6: the title of every assembled record is a non-empty string.  It is
    the text of a heading, of the detail link (card script) or of the
    page title (detail-page script), the address (card script), or, when
    none of them gives a non-empty value, [Listing] followed by the first
    eight characters of the identifier; this holds of every record of the
    sets that [parseListings] and the run of the detail-page script
    build. *)
Theorem C6_title_never_empty :
  (forall card uuid, exists l,
      V1.extractListingData card uuid = Ok l
      /\ V1.id l = uuid
      /\ V1.title l <> ""
      /\ (V1.heading_title card = Some (V1.title l)
          \/ V1.link_title card = Some (V1.title l)
          \/ V1.address l = Some (V1.title l)
          \/ V1.title l = "Listing " ++ JsString.take 8 (V1.id l))%string)
  /\ (forall doc uuid, exists l,
        V2.parseDetailPage doc uuid = Ok l
        /\ V2.id l = uuid
        /\ V2.title l <> ""
        /\ (V2.heading_title doc = Some (V2.title l)
            \/ V2.page_title doc = Some (V2.title l)
            \/ V2.title l = "Listing " ++ JsString.take 8 (V2.id l))%string)
  /\ (forall doc p, V1.parseListings doc = Ok p ->
        Forall (fun l => V1.title l <> "") (V1.listings p))
  /\ (forall h ls w, V2.main h = V2.Snapshot ls w ->
        Forall (fun l => V2.title l <> "") ls).
Proof.
  repeat match goal with |- _ /\ _ => split end.
  - intros card uuid.
    destruct (ExtractFacts.v1_record card uuid)
      as (sqft & address & available & type & rate & city & _ & _ & _ & _ & _ & _ & Hrec).
    eexists. split; [exact Hrec|]. eapply RunFacts.v1_record_title. exact Hrec.
  - intros doc uuid.
    destruct (ExtractFacts.v2_record doc uuid)
      as (address & rent & sqft & rate & available & type & lease & utilities & city
          & _ & _ & _ & _ & _ & _ & _ & _ & _ & Hrec).
    eexists. split; [exact Hrec|]. eapply RunFacts.v2_record_title. exact Hrec.
  - apply RunFacts.parseListings_records. intros card uuid l H.
    eapply RunFacts.v1_record_title. exact H.
  - apply RunFacts.main_records. intros doc uuid l H.
    eapply RunFacts.v2_record_title. exact H.
Qed.

Lemma C6_title_never_empty_witness :
  Forall (fun l => V1.title l <> "") (V1.listings Samples.two_cards_parsed)
  /\ Forall (fun l => V2.title l <> "") Samples.site_listings.
Proof.
  destruct C6_title_never_empty as (_ & _ & A & B). split.
  - apply (A Samples.two_cards_page). vm_compute. reflexivity.
  - apply (B (Host.quiet Samples.site) Samples.site_listings Samples.site_warnings).
    vm_compute. reflexivity.
Defined.

(* ------------------------------------------------------------------ *)
(** ** The fingerprint *)

Module HashFacts.
Import Hash.
Local Open Scope Z_scope.

Lemma to_int32_spec : forall x,
  int32 (to_int32 x) /\ exists q, to_int32 x = x + 4294967296 * q.
Proof.
  intros x. unfold to_int32, int32.
  change (2 ^ 31) with 2147483648. change (2 ^ 32) with 4294967296.
  pose proof (Z.mod_pos_bound (x + 2147483648) 4294967296 eq_refl) as Hb.
  pose proof (Z.div_mod (x + 2147483648) 4294967296) as Hd.
  split; [lia|]. exists (- ((x + 2147483648) / 4294967296)). lia.
Qed.

Lemma step_spec : forall h c,
  int32 (step h c)
  /\ exists q, step h c = 31 * h + Z.of_N (N_of_ascii c) + 4294967296 * q.
Proof.
  intros h c. unfold step, shl5.
  destruct (to_int32_spec (h * 32)) as [_ [q1 H1]].
  destruct (to_int32_spec (to_int32 (h * 32) - h + Z.of_N (N_of_ascii c))) as [Hr [q2 H2]].
  split; [exact Hr|]. exists (q1 + q2). lia.
Qed.

Lemma odd_multiple : forall d q, 31 * d = 4294967296 * q -> - 4294967296 < d < 4294967296 -> d = 0.
Proof.
  intros d q H Hd.
  assert (Hdiv : (4294967296 | d)).
  { apply (Z.gauss 4294967296 31 d); [|reflexivity]. exists q. lia. }
  destruct Hdiv as [k Hk]. lia.
Qed.

Lemma step_inj_state : forall a b c,
  int32 a -> int32 b -> step a c = step b c -> a = b.
Proof.
  intros a b c Ha Hb H.
  destruct (step_spec a c) as [_ [q1 H1]]. destruct (step_spec b c) as [_ [q2 H2]].
  unfold int32 in *.
  assert (a - b = 0); [|lia].
  apply (odd_multiple (a - b) (q2 - q1)); lia.
Qed.

Lemma code_bound : forall c, 0 <= Z.of_N (N_of_ascii c) < 256.
Proof.
  intros c. pose proof (N_ascii_bounded c) as H. lia.
Qed.

Lemma step_inj_char : forall h c c', step h c = step h c' -> c = c'.
Proof.
  intros h c c' H.
  destruct (step_spec h c) as [_ [q1 H1]]. destruct (step_spec h c') as [_ [q2 H2]].
  pose proof (code_bound c) as B1. pose proof (code_bound c') as B2.
  assert (E : N_of_ascii c = N_of_ascii c') by lia.
  rewrite <- (ascii_N_embedding c), <- (ascii_N_embedding c'), E. reflexivity.
Qed.

Lemma loop_app : forall s1 s2 h, loop h (s1 ++ s2) = loop (loop h s1) s2.
Proof.
  induction s1 as [|c s1 IH]; intros s2 h; simpl; [reflexivity|apply IH].
Qed.

Lemma loop_int32 : forall s h, int32 h -> int32 (loop h s).
Proof.
  induction s as [|c s IH]; intros h Hh; simpl; [exact Hh|].
  apply IH. apply step_spec.
Qed.

Lemma loop_inj : forall s a b, int32 a -> int32 b -> loop a s = loop b s -> a = b.
Proof.
  induction s as [|c s IH]; intros a b Ha Hb H; simpl in H; [exact H|].
  apply (step_inj_state a b c Ha Hb).
  apply IH; [apply step_spec|apply step_spec|exact H].
Qed.

Lemma hash32_int32 : forall s, int32 (hash32 s).
Proof. intros s. apply loop_int32. unfold int32. lia. Qed.

(** Replacing one code unit changes the 32-bit hash. *)
Lemma hash32_substitution : forall pre c c' post,
  hash32 (pre ++ String c post) = hash32 (pre ++ String c' post) -> c = c'.
Proof.
  intros pre c c' post H. unfold hash32 in H.
  rewrite !loop_app in H. simpl in H.
  apply loop_inj in H; [|apply step_spec|apply step_spec].
  eapply step_inj_char. exact H.
Qed.

(** The base-36 digits. *)
Lemma digit36_code : forall d, 0 <= d < 36 ->
  Z.of_N (N_of_ascii (digit36 d)) = if d <? 10 then 48 + d else 87 + d.
Proof.
  intros d Hd. unfold digit36. destruct (d <? 10) eqn:E.
  - rewrite N_ascii_embedding; [|lia]. lia.
  - apply Z.ltb_ge in E. rewrite N_ascii_embedding; [|lia]. lia.
Qed.

Lemma digit36_inj : forall a b, 0 <= a < 36 -> 0 <= b < 36 ->
  digit36 a = digit36 b -> a = b.
Proof.
  intros a b Ha Hb H.
  pose proof (digit36_code a Ha) as Ea. pose proof (digit36_code b Hb) as Eb.
  rewrite H in Ea. rewrite Ea in Eb.
  destruct (a <? 10) eqn:E1, (b <? 10) eqn:E2;
    try apply Z.ltb_lt in E1; try apply Z.ltb_lt in E2;
    try apply Z.ltb_ge in E1; try apply Z.ltb_ge in E2; lia.
Qed.

Lemma digit36_not_minus : forall d, 0 <= d < 36 -> digit36 d <> "-"%char.
Proof.
  intros d Hd H. pose proof (digit36_code d Hd) as E. rewrite H in E.
  change (Z.of_N (N_of_ascii "-")) with 45 in E.
  destruct (d <? 10) eqn:E1; [apply Z.ltb_lt in E1|apply Z.ltb_ge in E1]; lia.
Qed.

Lemma digits36_length : forall fuel n acc,
  (String.length acc <= String.length (digits36 fuel n acc))%nat.
Proof.
  induction fuel as [|fuel IH]; intros n acc; simpl; [lia|].
  destruct (n / 36 =? 0); simpl; [lia|].
  etransitivity; [|apply IH]. simpl. lia.
Qed.

Lemma digits36_inj : forall fuel n m acc acc',
  0 <= n < 36 ^ Z.of_nat fuel -> 0 <= m < 36 ^ Z.of_nat fuel ->
  String.length acc = String.length acc' ->
  digits36 fuel n acc = digits36 fuel m acc' -> n = m /\ acc = acc'.
Proof.
  induction fuel as [|fuel IH]; intros n m acc acc' Hn Hm Hlen H.
  - simpl in *. split; [lia|exact H].
  - rewrite Nat2Z.inj_succ, Z.pow_succ_r in Hn, Hm by lia.
    assert (Hn36 : 0 <= n mod 36 < 36) by (apply Z.mod_pos_bound; lia).
    assert (Hm36 : 0 <= m mod 36 < 36) by (apply Z.mod_pos_bound; lia).
    assert (Hnq : 0 <= n / 36 < 36 ^ Z.of_nat fuel).
    { split; [apply Z.div_pos; lia|apply Z.div_lt_upper_bound; lia]. }
    assert (Hmq : 0 <= m / 36 < 36 ^ Z.of_nat fuel).
    { split; [apply Z.div_pos; lia|apply Z.div_lt_upper_bound; lia]. }
    pose proof (Z.div_mod n 36) as Dn. pose proof (Z.div_mod m 36) as Dm.
    simpl in H.
    destruct (n / 36 =? 0) eqn:En, (m / 36 =? 0) eqn:Em.
    + injection H as Hd Ha. apply digit36_inj in Hd; [|assumption|assumption].
      apply Z.eqb_eq in En, Em. split; [lia|exact Ha].
    + exfalso.
      pose proof (digits36_length fuel (m / 36) (String (digit36 (m mod 36)) acc')) as L.
      rewrite <- H in L. simpl in L.
      destruct fuel as [|fuel].
      * apply Z.eqb_neq in Em. simpl in Hmq. lia.
      * simpl in H. destruct (m / 36 / 36 =? 0).
        -- apply (f_equal String.length) in H. simpl in H. lia.
        -- pose proof (digits36_length fuel (m / 36 / 36)
                         (String (digit36 (m / 36 mod 36))
                            (String (digit36 (m mod 36)) acc'))) as L2.
           rewrite <- H in L2. simpl in L2. lia.
    + exfalso.
      destruct fuel as [|fuel].
      * apply Z.eqb_neq in En. simpl in Hnq. lia.
      * simpl in H. destruct (n / 36 / 36 =? 0).
        -- apply (f_equal String.length) in H. simpl in H. lia.
        -- pose proof (digits36_length fuel (n / 36 / 36)
                         (String (digit36 (n / 36 mod 36))
                            (String (digit36 (n mod 36)) acc))) as L2.
           rewrite H in L2. simpl in L2. lia.
    + apply IH in H; [| assumption | assumption | simpl; lia].
      destruct H as [Hq Ha]. injection Ha as Hd Ha.
      apply digit36_inj in Hd; [|assumption|assumption].
      split; [lia|exact Ha].
Qed.

Lemma digits36_head : forall fuel n acc, 0 <= n ->
  exists d rest, 0 <= d < 36 /\ digits36 (S fuel) n acc = String (digit36 d) rest.
Proof.
  induction fuel as [|fuel IH]; intros n acc Hn.
  - simpl. exists (n mod 36), acc.
    split; [apply Z.mod_pos_bound; lia|]. destruct (n / 36 =? 0); reflexivity.
  - change (digits36 (S (S fuel)) n acc)
      with (if n / 36 =? 0 then String (digit36 (n mod 36)) acc
            else digits36 (S fuel) (n / 36) (String (digit36 (n mod 36)) acc)).
    destruct (n / 36 =? 0).
    + exists (n mod 36), acc. split; [apply Z.mod_pos_bound; lia|reflexivity].
    + apply IH. apply Z.div_pos; lia.
Qed.

Lemma string_cons_inv : forall a b (s t : string),
  String a s = String b t -> a = b /\ s = t.
Proof. intros a b s t H. injection H as -> ->. split; reflexivity. Qed.

Lemma toString36_inj : forall a b, int32 a -> int32 b ->
  toString36 a = toString36 b -> a = b.
Proof.
  intros a b Ha Hb H. unfold int32 in *. unfold toString36 in H.
  assert (P : 36 ^ Z.of_nat 7 = 78364164096) by reflexivity.
  destruct (a <? 0) eqn:Ea, (b <? 0) eqn:Eb;
    try apply Z.ltb_lt in Ea; try apply Z.ltb_lt in Eb;
    try apply Z.ltb_ge in Ea; try apply Z.ltb_ge in Eb.
  - apply string_cons_inv in H. destruct H as [_ H].
    apply digits36_inj in H; [lia|lia|lia|reflexivity].
  - exfalso. destruct (digits36_head 6 b EmptyString Eb) as (d & rest & Hd & E).
    rewrite E in H. apply string_cons_inv in H. destruct H as [H _].
    symmetry in H. revert H. apply digit36_not_minus. exact Hd.
  - exfalso. destruct (digits36_head 6 a EmptyString Ea) as (d & rest & Hd & E).
    rewrite E in H. apply string_cons_inv in H. destruct H as [H _].
    revert H. apply digit36_not_minus. exact Hd.
  - apply digits36_inj in H; [lia|lia|lia|reflexivity].
Qed.

Lemma simpleHash_substitution : forall pre c c' post,
  simpleHash (pre ++ String c post) = simpleHash (pre ++ String c' post) -> c = c'.
Proof.
  intros pre c c' post H. unfold simpleHash in H.
  apply toString36_inj in H; [|apply hash32_int32|apply hash32_int32].
  eapply hash32_substitution. exact H.
Qed.

End HashFacts.

(** C9, as the scripts have it: the fingerprint is a function of the
    serialized record set, so equal serializations have equal
    fingerprints; replacing one code unit of the serialization by another
    changes the fingerprint; serializations that differ in more than one
    code unit can have the same fingerprint. *)
Theorem C9_fingerprint :
  (forall a b : list V1.located,
     V1.stringify a = V1.stringify b -> V1.contentHash a = V1.contentHash b)
  /\ (forall a b : list V2.located,
        V2.stringify a = V2.stringify b -> V2.contentHash a = V2.contentHash b)
  /\ (forall (pre : string) (c c' : ascii) (post : string),
        c <> c' ->
        Hash.simpleHash (pre ++ String c post) <> Hash.simpleHash (pre ++ String c' post)).
Proof.
  repeat match goal with |- _ /\ _ => split end.
  - intros a b H. unfold V1.contentHash. rewrite H. reflexivity.
  - intros a b H. unfold V2.contentHash. rewrite H. reflexivity.
  - intros pre c c' post Hne H. apply Hne.
    eapply HashFacts.simpleHash_substitution. exact H.
Qed.

Lemma C9_fingerprint_witness :
  V1.contentHash Samples.set_Aa = V1.contentHash [Samples.titled "Suite Aa"]
  /\ Hash.simpleHash ("Suite " ++ String "A" "a") <> Hash.simpleHash ("Suite " ++ String "B" "a").
Proof.
  destruct C9_fingerprint as (D & _ & S). split.
  - apply (D Samples.set_Aa [Samples.titled "Suite Aa"]). reflexivity.
  - apply (S "Suite " "A"%char "B"%char "a"). discriminate.
Defined.

(** Two record sets that differ in one title and have one fingerprint. *)
Lemma C9_counterexample :
  V1.title (V1.record (Samples.titled "Suite Aa"))
    <> V1.title (V1.record (Samples.titled "Suite BB"))
  /\ V1.stringify Samples.set_Aa <> V1.stringify Samples.set_BB
  /\ V1.contentHash Samples.set_Aa = V1.contentHash Samples.set_BB.
Proof.
  split; [discriminate|]. split.
  - vm_compute. discriminate.
  - vm_compute. reflexivity.
Qed.

(* ------------------------------------------------------------------ *)
(** ** Identifiers: once each, in the order of first sight *)

Module SetFacts.
Import Identifiers.

Lemma has_In : forall x s, StrSet.has x s = true <-> In x s.
Proof.
  intros x s. unfold StrSet.has. rewrite existsb_exists. split.
  - intros [y [Hy E]]. apply String.eqb_eq in E. subst y. exact Hy.
  - intros H. exists x. split; [exact H|apply String.eqb_refl].
Qed.

Lemma has_not_In : forall x s, StrSet.has x s = false <-> ~ In x s.
Proof.
  intros x s. rewrite <- has_In. destruct (StrSet.has x s); split; intros H;
    try discriminate; try reflexivity.
  exfalso. apply H. reflexivity.
Qed.

Lemma add_all_snoc : forall l x s, StrSet.add_all (l ++ [x]) s = StrSet.add x (StrSet.add_all l s).
Proof. intros l x s. unfold StrSet.add_all. rewrite fold_left_app. reflexivity. Qed.

Lemma of_list_snoc : forall l x,
  StrSet.of_list (l ++ [x]) = StrSet.add x (StrSet.of_list l).
Proof. intros l x. apply add_all_snoc. Qed.

Lemma add_In : forall x y s, In y (StrSet.add x s) <-> y = x \/ In y s.
Proof.
  intros x y s. unfold StrSet.add. destruct (StrSet.has x s) eqn:E.
  - apply has_In in E. split; [intros H; right; exact H|].
    intros [->|H]; assumption.
  - rewrite in_app_iff. simpl. split.
    + intros [H|[H|[]]]; [right; exact H|left; symmetry; exact H].
    + intros [->|H]; [right; left; reflexivity|left; exact H].
Qed.

Lemma of_list_In : forall l x, In x (StrSet.of_list l) <-> In x l.
Proof.
  induction l as [|y l IH] using rev_ind; intros x.
  - split; intros H; exact H.
  - rewrite of_list_snoc, add_In, IH, in_app_iff. simpl. split.
    + intros [->|H]; [right; left; reflexivity|left; exact H].
    + intros [H|[H|[]]]; [right; exact H|left; symmetry; exact H].
Qed.

Lemma add_NoDup : forall x s, NoDup s -> NoDup (StrSet.add x s).
Proof.
  intros x s H. unfold StrSet.add. destruct (StrSet.has x s) eqn:E; [exact H|].
  apply has_not_In in E. apply NoDup_app; [exact H|repeat constructor; intros []|].
  intros y Hy [<-|[]]. apply E. exact Hy.
Qed.

Lemma of_list_NoDup : forall l, NoDup (StrSet.of_list l).
Proof.
  induction l as [|y l IH] using rev_ind.
  - constructor.
  - rewrite of_list_snoc. apply add_NoDup. exact IH.
Qed.

Lemma first_occurrence : forall (u : string) l,
  In u l -> exists l1 l2, l = l1 ++ u :: l2 /\ ~ In u l1.
Proof.
  intros u. induction l as [|y l IH]; intros H; [contradiction|].
  destruct (string_dec y u) as [->|Hne].
  - exists [], l. split; [reflexivity|intros []].
  - destruct H as [H|H]; [contradiction|].
    destruct (IH H) as (l1 & l2 & -> & Hn).
    exists (y :: l1), l2. split; [reflexivity|].
    intros [E|E]; [contradiction|apply Hn; exact E].
Qed.

Lemma regroup : forall (o1 : list string) u o2 v o3 y,
  o1 ++ u :: o2 ++ v :: o3 ++ [y] = (o1 ++ u :: o2 ++ v :: o3) ++ [y].
Proof.
  intros. rewrite <- app_assoc. simpl. rewrite <- app_assoc. reflexivity.
Qed.

Lemma regroup_last : forall (o1 : list string) u o2 v,
  o1 ++ u :: o2 ++ [v] = (o1 ++ u :: o2) ++ [v].
Proof. intros. rewrite <- app_assoc. reflexivity. Qed.

Lemma of_list_first_seen : forall l, first_seen l (StrSet.of_list l).
Proof.
  induction l as [|x l IH] using rev_ind; intros o1 u o2 v o3 H.
  - exfalso. eapply app_cons_not_nil. exact H.
  - rewrite of_list_snoc in H. unfold StrSet.add in H.
    destruct (StrSet.has x (StrSet.of_list l)) eqn:E.
    + destruct (IH _ _ _ _ _ H) as (l1 & l2 & -> & Hu & Hv).
      exists l1, (l2 ++ [x]). split; [|split; assumption].
      rewrite <- app_assoc. reflexivity.
    + apply has_not_In in E. rewrite of_list_In in E.
      destruct o3 as [|z o3'] using rev_ind.
      * rewrite regroup_last in H. apply app_inj_tail in H. destruct H as [H <-].
        assert (Hin : In u l).
        { apply of_list_In. rewrite H. apply in_or_app. right. left. reflexivity. }
        destruct (first_occurrence u l Hin) as (l1 & l2 & -> & Hu).
        exists l1, (l2 ++ [x]). split; [rewrite <- app_assoc; reflexivity|].
        split; [exact Hu|]. intros Hx. apply E. apply in_or_app. left. exact Hx.
      * clear IHo3'. rewrite regroup in H. apply app_inj_tail in H. destruct H as [H _].
        destruct (IH _ _ _ _ _ H) as (l1 & l2 & -> & Hu & Hv).
        exists l1, (l2 ++ [x]). split; [|split; assumption].
        rewrite <- app_assoc. reflexivity.
Qed.

Lemma subseq_refl : forall l, subseq l l.
Proof. induction l; constructor; assumption. Qed.

Lemma subseq_snoc_skip : forall a b x, subseq a b -> subseq a (b ++ [x]).
Proof.
  intros a b x H. induction H; simpl.
  - apply subseq_skip. constructor.
  - apply subseq_skip. assumption.
  - apply subseq_keep. assumption.
Qed.

Lemma subseq_snoc_keep : forall a b x, subseq a b -> subseq (a ++ [x]) (b ++ [x]).
Proof.
  intros a b x H. induction H; simpl.
  - apply subseq_keep. constructor.
  - apply subseq_skip. assumption.
  - apply subseq_keep. assumption.
Qed.

Lemma subseq_In : forall a b x, subseq a b -> In x a -> In x b.
Proof.
  intros a b x H. induction H; intros Hin.
  - exact Hin.
  - right. apply IHsubseq. exact Hin.
  - destruct Hin as [->|Hin]; [left; reflexivity|right; apply IHsubseq; exact Hin].
Qed.

Lemma subseq_NoDup : forall a b, subseq a b -> NoDup b -> NoDup a.
Proof.
  intros a b H. induction H; intros Hb.
  - constructor.
  - apply IHsubseq. inversion Hb; assumption.
  - inversion Hb as [|y l Hn Hl]; subst. constructor.
    + intros Hin. apply Hn. eapply subseq_In; eassumption.
    + apply IHsubseq. exact Hl.
Qed.

Lemma subseq_cons_inv : forall x a b,
  subseq (x :: a) b -> exists b1 b2, b = b1 ++ x :: b2 /\ subseq a b2.
Proof.
  intros x a b H. remember (x :: a) as xa eqn:E. revert x a E.
  induction H as [|y a' b' H IH|y a' b' H IH]; intros x a E.
  - discriminate.
  - destruct (IH x a E) as (b1 & b2 & -> & Hs).
    exists (y :: b1), b2. split; [reflexivity|exact Hs].
  - injection E as -> ->. exists [], b'. split; [reflexivity|exact H].
Qed.

Lemma subseq_app_inv : forall a1 a2 b,
  subseq (a1 ++ a2) b -> exists b1 b2, b = b1 ++ b2 /\ subseq a2 b2.
Proof.
  induction a1 as [|x a1 IH]; intros a2 b H.
  - exists [], b. split; [reflexivity|exact H].
  - simpl in H. destruct (subseq_cons_inv _ _ _ H) as (c1 & c2 & -> & Hs).
    destruct (IH a2 c2 Hs) as (d1 & d2 & -> & Hd).
    exists (c1 ++ x :: d1), d2. split; [|exact Hd].
    rewrite <- app_assoc. reflexivity.
Qed.

(** Leaving elements out keeps the order of the others. *)
Lemma subseq_first_seen : forall l a b,
  subseq a b -> first_seen l b -> first_seen l a.
Proof.
  intros l a b Hs Hb o1 u o2 v o3 E. subst a.
  destruct (subseq_app_inv _ _ _ Hs) as (b1 & b2 & -> & H2).
  destruct (subseq_cons_inv _ _ _ H2) as (c1 & c2 & -> & H3).
  destruct (subseq_app_inv _ _ _ H3) as (d1 & d2 & -> & H4).
  destruct (subseq_cons_inv _ _ _ H4) as (e1 & e2 & -> & _).
  apply (Hb (b1 ++ c1) u (d1 ++ e1) v e2).
  repeat rewrite <- app_assoc. reflexivity.
Qed.

End SetFacts.

Module IdentifierFacts.
Import JsString Regex Dom Patterns Identifiers RegexFacts SetFacts.

Lemma uuid_nonempty : forall href m,
  exec false uuid_re href = Some m ->
  exists u, group 1 m = Some u /\ u <> EmptyString.
Proof.
  intros href m H.
  apply (last_group_nonempty false (lit "/listings/detail/") 1 uuid_char href m).
  exact H.
Qed.

Lemma link_uuid_nonempty : forall link u,
  V2.link_uuid link = Some u -> u <> EmptyString.
Proof.
  intros link u H. unfold V2.link_uuid in H.
  destruct (getAttribute "href" link) as [href|]; [|discriminate].
  destruct (exec false uuid_re href) as [m|] eqn:E; [|discriminate].
  destruct (uuid_nonempty href m E) as (u' & Hu & Hne).
  rewrite Hu in H. injection H as <-. exact Hne.
Qed.

(** The list that [parseIndexPage] hands to [Set]. *)
Lemma filter_truthy_links : forall links,
  V2.filter_truthy (map V2.link_uuid links) = of_links links.
Proof.
  induction links as [|link links IH]; [reflexivity|].
  unfold V2.filter_truthy, of_links in *. simpl. rewrite IH. f_equal.
  destruct (V2.link_uuid link) as [[|c u]|] eqn:E; try reflexivity.
  exfalso. eapply link_uuid_nonempty; [exact E|reflexivity].
Qed.

Lemma detail_link_href : forall link,
  matches detail_link link = true -> getAttribute "href" link <> None.
Proof.
  intros link H. unfold matches, detail_link in H. simpl in H.
  rewrite orb_false_r in H. unfold matches_compound in H. simpl in H.
  unfold getAttribute.
  destruct (assoc "href" (attributes (self link))); [discriminate|].
  rewrite andb_false_r in H. discriminate.
Qed.

Lemma detail_links_href : forall doc link,
  In link (docQuerySelectorAll detail_link doc) -> getAttribute "href" link <> None.
Proof.
  intros doc link H. apply filter_In in H. apply detail_link_href. apply H.
Qed.

(** The callback of [forEach], by the identifier of the link. *)
Lemma visit_link_spec : forall seen ls link,
  getAttribute "href" link <> None ->
  V1.visit_link (seen, ls) link =
  match V2.link_uuid link with
  | None => Ok (seen, ls)
  | Some u =>
      if StrSet.has u seen then Ok (seen, ls)
      else
        match V1.find_card link with
        | None => Ok (StrSet.add u seen, ls)
        | Some card =>
            let* l := V1.extractListingData card u in
            Ok (StrSet.add u seen, ls ++ [l])
        end
  end.
Proof.
  intros seen ls link Hhref. unfold V1.visit_link, V2.link_uuid.
  destruct (getAttribute "href" link) as [href|]; [|contradiction]. simpl.
  destruct (exec false uuid_re href) as [m|] eqn:E; [|reflexivity].
  destruct (capture_defined false 1 uuid_re href m eq_refl E) as [u Hu].
  rewrite Hu. unfold capture, deref in Hu.
  destruct (group 1 m) as [u'|]; [|discriminate]. injection Hu as ->. reflexivity.
Qed.

Lemma add_new : forall u seen, StrSet.has u seen = false -> StrSet.add u seen = seen ++ [u].
Proof. intros u seen H. unfold StrSet.add. rewrite H. reflexivity. Qed.

Lemma add_old : forall u seen, StrSet.has u seen = true -> StrSet.add u seen = seen.
Proof. intros u seen H. unfold StrSet.add. rewrite H. reflexivity. Qed.

(** The loop over the links: it returns; the identifiers it has seen are
    the set of the identifiers of the links; the records it has built
    follow them. *)
Lemma forEach_links : forall links seen ls,
  (forall link, In link links -> getAttribute "href" link <> None) ->
  exists ls',
    V1.forEach V1.visit_link links (seen, ls)
    = Ok (StrSet.add_all (of_links links) seen, ls')
    /\ (subseq (map V1.id ls) seen ->
        subseq (map V1.id ls') (StrSet.add_all (of_links links) seen))
    /\ ((forall link, In link links -> V1.find_card link <> None) ->
        map V1.id ls = seen ->
        map V1.id ls' = StrSet.add_all (of_links links) seen).
Proof.
  induction links as [|link links IH]; intros seen ls Hhref.
  - exists ls. simpl. split; [reflexivity|]. split; [intros H; exact H|intros _ H; exact H].
  - assert (Hrest : forall l, In l links -> getAttribute "href" l <> None)
      by (intros l Hl; apply Hhref; right; exact Hl).
    cbn [V1.forEach]. rewrite (visit_link_spec seen ls link (Hhref link (or_introl eq_refl))).
    unfold of_links. cbn [flat_map]. fold (of_links links).
    unfold StrSet.add_all. rewrite fold_left_app.
    fold (StrSet.add_all (of_links links)).
    destruct (V2.link_uuid link) as [u|].
    2:{ simpl. destruct (IH seen ls Hrest) as (ls' & H1 & H2 & H3).
        exists ls'. split; [exact H1|]. split; [exact H2|].
        intros Hc. apply H3. intros l Hl. apply Hc. right. exact Hl. }
    cbn [fold_left].
    destruct (StrSet.has u seen) eqn:Eh.
    { rewrite (add_old u seen Eh). simpl.
      destruct (IH seen ls Hrest) as (ls' & H1 & H2 & H3).
      exists ls'. split; [exact H1|]. split; [exact H2|].
      intros Hc. apply H3. intros l Hl. apply Hc. right. exact Hl. }
    rewrite (add_new u seen Eh).
    destruct (V1.find_card link) as [card|] eqn:Ec.
    + destruct (ExtractFacts.v1_record card u)
        as (sqft & address & available & type & rate & city & _ & _ & _ & _ & _ & _ & Hrec).
      rewrite Hrec. simpl.
      match goal with
      | |- context [V1.forEach V1.visit_link links (_, ls ++ [?l])] =>
          destruct (IH (seen ++ [u]) (ls ++ [l]) Hrest) as (ls' & H1 & H2 & H3)
      end.
      exists ls'. split; [exact H1|]. split.
      * intros Hs. apply H2. rewrite map_app. simpl. apply subseq_snoc_keep. exact Hs.
      * intros Hc He. apply H3.
        -- intros l Hl. apply Hc. right. exact Hl.
        -- rewrite map_app. simpl. rewrite He. reflexivity.
    + simpl. destruct (IH (seen ++ [u]) ls Hrest) as (ls' & H1 & H2 & H3).
      exists ls'. split; [exact H1|]. split.
      * intros Hs. apply H2. apply subseq_snoc_skip. exact Hs.
      * intros Hc. exfalso. apply (Hc link); [left; reflexivity|exact Ec].
Qed.

Lemma length_zero : forall (A : Type) (l : list A),
  l <> [] -> Nat.eqb (List.length l) 0 = false.
Proof. intros A [|a l] H; [contradiction|reflexivity]. Qed.

(** The first anchor of an identifier, past an anchor of another one. *)
Lemma has_card_cons : forall link links v,
  V2.link_uuid link <> Some v ->
  has_card (link :: links) v = has_card links v.
Proof.
  intros link links v H. unfold has_card, first_link. cbn [find].
  destruct (V2.link_uuid link) as [w|]; [|reflexivity].
  destruct (String.eqb w v) eqn:E; [|reflexivity].
  apply String.eqb_eq in E. subst w. exfalso. apply H. reflexivity.
Qed.

Lemma has_card_here : forall link links u,
  V2.link_uuid link = Some u ->
  has_card (link :: links) u
  = match V1.find_card link with Some _ => true | None => false end.
Proof.
  intros link links u H. unfold has_card, first_link. cbn [find].
  rewrite H, String.eqb_refl. reflexivity.
Qed.

(** The loop over the links, record by record: the identifiers it adds
    to [seen] are new, and it builds a record for exactly those of them
    whose first anchor has a card container. *)
Lemma forEach_cards : forall links seen ls,
  (forall link, In link links -> getAttribute "href" link <> None) ->
  exists news ls',
    V1.forEach V1.visit_link links (seen, ls) = Ok (seen ++ news, ls ++ ls')
    /\ StrSet.add_all (of_links links) seen = seen ++ news
    /\ (forall v, In v news -> ~ In v seen)
    /\ map V1.id ls' = filter (has_card links) news.
Proof.
  induction links as [|link links IH]; intros seen ls Hhref.
  - exists [], []. rewrite !app_nil_r. repeat split; try reflexivity. intros v [].
  - assert (Hrest : forall l, In l links -> getAttribute "href" l <> None)
      by (intros l Hl; apply Hhref; right; exact Hl).
    cbn [V1.forEach]. rewrite (visit_link_spec seen ls link (Hhref link (or_introl eq_refl))).
    unfold of_links. cbn [flat_map]. fold (of_links links).
    unfold StrSet.add_all. rewrite fold_left_app.
    fold (StrSet.add_all (of_links links)).
    destruct (V2.link_uuid link) as [u|] eqn:Eu.
    2:{ cbn [bind]. destruct (IH seen ls Hrest) as (news & ls' & H1 & H2 & H3 & H4).
        exists news, ls'. split; [exact H1|]. split; [exact H2|]. split; [exact H3|].
        rewrite H4. apply filter_ext_in. intros v Hv. symmetry. apply has_card_cons.
        rewrite Eu. discriminate. }
    cbn [fold_left].
    destruct (StrSet.has u seen) eqn:Eh.
    { rewrite (add_old u seen Eh). cbn [bind].
      destruct (IH seen ls Hrest) as (news & ls' & H1 & H2 & H3 & H4).
      exists news, ls'. split; [exact H1|]. split; [exact H2|]. split; [exact H3|].
      rewrite H4. apply filter_ext_in. intros v Hv. symmetry. apply has_card_cons.
      rewrite Eu. intros E. injection E as ->.
      apply (H3 v Hv). apply has_In. exact Eh. }
    rewrite (add_new u seen Eh).
    assert (Hnew : ~ In u seen) by (apply has_not_In; exact Eh).
    assert (Hext : forall news, (forall v, In v news -> ~ In v (seen ++ [u])) ->
                   filter (has_card (link :: links)) news = filter (has_card links) news).
    { intros news Hn. apply filter_ext_in. intros v Hv. apply has_card_cons.
      rewrite Eu. intros E. injection E as ->.
      apply (Hn v Hv). apply in_or_app. right. left. reflexivity. }
    assert (Hseen : forall news v, (forall w, In w news -> ~ In w (seen ++ [u])) ->
                    In v (u :: news) -> ~ In v seen).
    { intros news v Hn [<-|Hv]; [exact Hnew|].
      intros Hs. apply (Hn v Hv). apply in_or_app. left. exact Hs. }
    destruct (V1.find_card link) as [card|] eqn:Ec.
    + destruct (ExtractFacts.v1_record card u)
        as (sqft & address & available & type & rate & city & _ & _ & _ & _ & _ & _ & Hrec).
      rewrite Hrec. cbn [bind].
      match goal with
      | |- context [V1.forEach V1.visit_link links (_, ls ++ [?l])] =>
          destruct (IH (seen ++ [u]) (ls ++ [l]) Hrest)
            as (news & ls' & H1 & H2 & H3 & H4);
          exists (u :: news), (l :: ls')
      end.
      split; [rewrite H1, <- !app_assoc; reflexivity|].
      split; [unfold StrSet.add_all in H2; rewrite H2, <- app_assoc; reflexivity|].
      split; [intros v; apply Hseen; exact H3|].
      cbn [map filter]. rewrite (has_card_here link links u Eu), Ec.
      cbn [V1.id]. rewrite H4, (Hext news H3). reflexivity.
    + cbn [bind]. destruct (IH (seen ++ [u]) ls Hrest) as (news & ls' & H1 & H2 & H3 & H4).
      exists (u :: news), ls'.
      split; [rewrite H1, <- app_assoc; reflexivity|].
      split; [unfold StrSet.add_all in H2; rewrite H2, <- app_assoc; reflexivity|].
      split; [intros v; apply Hseen; exact H3|].
      cbn [filter]. rewrite (has_card_here link links u Eu), Ec.
      rewrite H4, (Hext news H3). reflexivity.
Qed.

Lemma first_link_uuid : forall links u link,
  first_link links u = Some link -> In link links /\ V2.link_uuid link = Some u.
Proof.
  intros links u link H. unfold first_link in H. apply find_some in H.
  destruct H as [Hin H]. split; [exact Hin|].
  destruct (V2.link_uuid link) as [v|]; [|discriminate].
  apply String.eqb_eq in H. rewrite H. reflexivity.
Qed.

End IdentifierFacts.

(** C5, as the scripts have it: on an index document with detail-link
    anchors, [parseIndexPage] returns every identifier of an anchor
    exactly once, ordered by first occurrence; [parseListings] returns at
    most one record per identifier, in that same order: its records are
    those of the identifiers whose first anchor has a card container, so
    an identifier whose first anchor has none yields no record, one whose
    first anchor has one yields exactly one, and every identifier yields
    exactly one when every anchor has a card container. *)
Theorem C5_identifiers_once_in_order : forall doc : Dom.document,
  Dom.docQuerySelectorAll Patterns.detail_link doc <> [] ->
  let ids := Identifiers.identifiers doc in
  (exists ix,
      V2.parseIndexPage doc = Ok ix
      /\ V2.noVacancies ix = false
      /\ V2.uuids ix = StrSet.of_list ids
      /\ NoDup (V2.uuids ix)
      /\ (forall u, In u (V2.uuids ix) <-> In u ids)
      /\ Identifiers.first_seen ids (V2.uuids ix))
  /\
  (exists p,
      V1.parseListings doc = Ok p
      /\ V1.noVacancies p = false
      /\ Identifiers.subseq (map V1.id (V1.listings p)) (StrSet.of_list ids)
      /\ NoDup (map V1.id (V1.listings p))
      /\ (forall u, In u (map V1.id (V1.listings p)) -> In u ids)
      /\ Identifiers.first_seen ids (map V1.id (V1.listings p))
      /\ ((forall link, In link (Dom.docQuerySelectorAll Patterns.detail_link doc) ->
                        V1.find_card link <> None) ->
          map V1.id (V1.listings p) = StrSet.of_list ids)
      /\ map V1.id (V1.listings p)
         = filter (Identifiers.has_card (Dom.docQuerySelectorAll Patterns.detail_link doc))
                  (StrSet.of_list ids)
      /\ (forall u link,
            Identifiers.first_link (Dom.docQuerySelectorAll Patterns.detail_link doc) u
            = Some link ->
            V1.find_card link = None ->
            ~ In u (map V1.id (V1.listings p)))
      /\ (forall u link,
            Identifiers.first_link (Dom.docQuerySelectorAll Patterns.detail_link doc) u
            = Some link ->
            V1.find_card link <> None ->
            In u (map V1.id (V1.listings p)))).
Proof.
  intros doc Hlinks ids. split.
  - eexists. split.
    + unfold V2.parseIndexPage. cbv zeta.
      rewrite (IdentifierFacts.length_zero _ _ Hlinks).
      rewrite IdentifierFacts.filter_truthy_links. reflexivity.
    + simpl. fold (Identifiers.identifiers doc). fold ids.
      split; [reflexivity|]. split; [reflexivity|].
      split; [apply SetFacts.of_list_NoDup|].
      split; [intros u; apply SetFacts.of_list_In|apply SetFacts.of_list_first_seen].
  - destruct (IdentifierFacts.forEach_links
                (Dom.docQuerySelectorAll Patterns.detail_link doc) [] []
                (IdentifierFacts.detail_links_href doc)) as (ls & H1 & H2 & H3).
    exists (V1.mkParsed ls false). split.
    + unfold V1.parseListings. cbv zeta.
      rewrite (IdentifierFacts.length_zero _ _ Hlinks). unfold bind.
      match goal with
      | |- match ?x with _ => _ end = _ =>
          replace x with (Ok (StrSet.of_list ids, ls)) by (symmetry; exact H1)
      end.
      reflexivity.
    + simpl. split; [reflexivity|].
      assert (Hs : Identifiers.subseq (map V1.id ls) (StrSet.of_list ids)).
      { apply H2. constructor. }
      split; [exact Hs|]. split.
      * eapply SetFacts.subseq_NoDup; [exact Hs|apply SetFacts.of_list_NoDup].
      * split.
        -- intros u Hu. apply SetFacts.of_list_In. eapply SetFacts.subseq_In; eassumption.
        -- split.
           ++ eapply SetFacts.subseq_first_seen; [exact Hs|].
              apply SetFacts.of_list_first_seen.
           ++ split; [intros Hc; apply H3; [exact Hc|reflexivity]|].
              destruct (IdentifierFacts.forEach_cards
                          (Dom.docQuerySelectorAll Patterns.detail_link doc) [] []
                          (IdentifierFacts.detail_links_href doc))
                as (news & ls' & F1 & F2 & _ & F4).
              cbn [app] in F1, F2.
              assert (E : (StrSet.of_list ids, ls) = (news, ls')).
              { assert (E' : Ok (StrSet.of_list ids, ls) = Ok (news, ls')).
                { transitivity
                    (V1.forEach V1.visit_link
                       (Dom.docQuerySelectorAll Patterns.detail_link doc) ([], []));
                    [symmetry; exact H1|exact F1]. }
                injection E' as -> ->. reflexivity. }
              injection E as En El. subst ls'. subst news.
              assert (Hfilter :
                map V1.id ls
                = filter (Identifiers.has_card
                            (Dom.docQuerySelectorAll Patterns.detail_link doc))
                         (StrSet.of_list ids)) by exact F4.
              split; [exact Hfilter|]. split.
              ** intros u link Hfirst Hnone Hin. rewrite Hfilter in Hin.
                 apply filter_In in Hin. destruct Hin as [_ Hin].
                 unfold Identifiers.has_card in Hin. rewrite Hfirst, Hnone in Hin.
                 discriminate Hin.
              ** intros u link Hfirst Hsome. rewrite Hfilter. apply filter_In. split.
                 --- apply SetFacts.of_list_In.
                     destruct (IdentifierFacts.first_link_uuid _ _ _ Hfirst) as [Hl Hu].
                     unfold ids, Identifiers.identifiers, Identifiers.of_links.
                     apply in_flat_map. exists link. split; [exact Hl|].
                     rewrite Hu. left. reflexivity.
                 --- unfold Identifiers.has_card. rewrite Hfirst.
                     destruct (V1.find_card link); [reflexivity|contradiction].
Qed.

Lemma C5_identifiers_once_in_order_witness :
  (exists ix, V2.parseIndexPage Samples.two_cards_page = Ok ix
              /\ V2.uuids ix = ["aaa-1"; "bbb-2"])
  /\ (exists p, V1.parseListings Samples.two_cards_page = Ok p
                /\ map V1.id (V1.listings p) = ["aaa-1"; "bbb-2"])
  /\ (exists p, V1.parseListings Samples.bare_link_page = Ok p
                /\ ~ In "0a1b2c3d-4e5f" (map V1.id (V1.listings p))).
Proof.
  assert (Hlinks : Dom.docQuerySelectorAll Patterns.detail_link Samples.two_cards_page <> [])
    by (vm_compute; discriminate).
  assert (Hbare : Dom.docQuerySelectorAll Patterns.detail_link Samples.bare_link_page <> [])
    by (vm_compute; discriminate).
  destruct (C5_identifiers_once_in_order Samples.two_cards_page Hlinks)
    as [(ix & Hix & _ & Hu & _) (p & Hp & _ & _ & _ & _ & _ & Hall & _)].
  destruct (C5_identifiers_once_in_order Samples.bare_link_page Hbare)
    as [_ (q & Hq & _ & _ & _ & _ & _ & _ & _ & Hnone & _)].
  split; [|split].
  - exists ix. split; [exact Hix|]. rewrite Hu. vm_compute. reflexivity.
  - exists p. split; [exact Hp|]. rewrite Hall; [vm_compute; reflexivity|].
    intros link Hin. vm_compute in Hin.
    repeat (destruct Hin as [<-|Hin]; [vm_compute; discriminate|]). contradiction.
  - exists q. split; [exact Hq|].
    apply (Hnone "0a1b2c3d-4e5f"
             (hd Samples.blank_card
                 (Dom.docQuerySelectorAll Patterns.detail_link Samples.bare_link_page)));
      vm_compute; reflexivity.
Defined.

(** An identifier of the index page for which [parseListings] builds no
    record. *)
Lemma C5_counterexample :
  Identifiers.identifiers Samples.bare_link_page = ["0a1b2c3d-4e5f"]
  /\ V1.parseListings Samples.bare_link_page = Ok (V1.mkParsed [] false).
Proof. split; vm_compute; reflexivity. Qed.

(* ================================================================== *)
(** * Further properties of the scripts *)

(* ------------------------------------------------------------------ *)
(** ** Fetching with retries *)

Module TransportFacts.
Import Transport.

Lemma attempts_until_success : forall fetch retries html d attempt,
  attempt + d <= retries ->
  (forall j, attempt <= j < attempt + d -> exists e, fetch j = Throw e) ->
  fetch (attempt + d) = Ok html ->
  attempts fetch retries attempt (S (retries - attempt))
  = (pauses attempt d, Ok (Some html)).
Proof.
  intros fetch retries html. induction d as [|d IH]; intros attempt Hle Hfail Hok.
  - rewrite Nat.add_0_r in Hok. simpl. rewrite Hok. reflexivity.
  - destruct (Hfail attempt) as [e He]; [lia|].
    cbn [attempts]. rewrite He.
    assert (Hlt : Nat.ltb attempt retries = true) by (apply Nat.ltb_lt; lia).
    rewrite Hlt.
    replace (retries - attempt) with (S (retries - S attempt)) by lia.
    rewrite (IH (S attempt)).
    + reflexivity.
    + lia.
    + intros j Hj. apply Hfail. lia.
    + replace (S attempt + d) with (attempt + S d) by lia. exact Hok.
Qed.

Lemma attempts_all_fail : forall fetch retries e d attempt,
  attempt + d = retries ->
  (forall j, attempt <= j < retries -> exists e', fetch j = Throw e') ->
  fetch retries = Throw e ->
  attempts fetch retries attempt (S (retries - attempt))
  = (pauses attempt d, Throw e).
Proof.
  intros fetch retries e. induction d as [|d IH]; intros attempt Hle Hfail Hlast.
  - rewrite Nat.add_0_r in Hle. subst attempt. simpl. rewrite Hlast.
    rewrite Nat.ltb_irrefl. reflexivity.
  - destruct (Hfail attempt) as [e' He]; [lia|].
    cbn [attempts]. rewrite He.
    assert (Hlt : Nat.ltb attempt retries = true) by (apply Nat.ltb_lt; lia).
    rewrite Hlt.
    replace (retries - attempt) with (S (retries - S attempt)) by lia.
    rewrite (IH (S attempt)).
    + reflexivity.
    + lia.
    + intros j Hj. apply Hfail. lia.
    + exact Hlast.
Qed.

End TransportFacts.

(** X1: [fetchWithRetry] returns the page of the first attempt that
    succeeds, if there is one within [retries] attempts, after pausing
    5000 ms times the attempt number after each failed attempt before
    it, and makes no further request. *)
Theorem X1_fetch_returns_first_success :
  forall (fetch : nat -> result string) (retries k : nat) (html : string),
    1 <= k <= retries ->
    (forall j, 1 <= j < k -> exists e, fetch j = Throw e) ->
    fetch k = Ok html ->
    Transport.fetchWithRetry fetch retries
    = (Transport.pauses 1 (k - 1), Ok (Some html)).
Proof.
  intros fetch retries k html Hk Hfail Hok. unfold Transport.fetchWithRetry.
  replace retries with (S (retries - 1)) at 2 by lia.
  apply TransportFacts.attempts_until_success.
  - lia.
  - intros j Hj. apply Hfail. lia.
  - replace (1 + (k - 1)) with k by lia. exact Hok.
Qed.

Lemma X1_fetch_returns_first_success_witness :
  Transport.fetchWithRetry Samples.flaky 3 = ([5000; 10000]%N, Ok (Some "<html></html>")).
Proof.
  apply (X1_fetch_returns_first_success Samples.flaky 3 3 "<html></html>").
  - lia.
  - intros j Hj. exists "HTTP 503: Service Unavailable".
    assert (H : j = 1 \/ j = 2) by lia. destruct H as [->| ->]; reflexivity.
  - reflexivity.
Defined.

(** X2: when every one of the [retries] attempts fails, [fetchWithRetry]
    raises the error of the last attempt, having paused after each
    attempt but the last. *)
Theorem X2_fetch_raises_last_error :
  forall (fetch : nat -> result string) (retries : nat) (e : string),
    1 <= retries ->
    (forall j, 1 <= j < retries -> exists e', fetch j = Throw e') ->
    fetch retries = Throw e ->
    Transport.fetchWithRetry fetch retries
    = (Transport.pauses 1 (retries - 1), Throw e).
Proof.
  intros fetch retries e Hr Hfail Hlast. unfold Transport.fetchWithRetry.
  replace retries with (S (retries - 1)) at 2 by lia.
  apply TransportFacts.attempts_all_fail.
  - lia.
  - intros j Hj. apply Hfail. lia.
  - exact Hlast.
Qed.

Lemma X2_fetch_raises_last_error_witness :
  Transport.fetchWithRetry Samples.down 3 = ([5000; 10000]%N, Throw "fetch failed").
Proof.
  apply (X2_fetch_raises_last_error Samples.down 3 "fetch failed").
  - lia.
  - intros j Hj. exists "fetch failed". reflexivity.
  - reflexivity.
Defined.

(** X3: with the default of three retries, whatever the network does,
    [fetchWithRetry] never pauses more than 15000 ms in all, never
    returns [undefined], returns only a page that one of the first three
    requests gave, and raises only the error of the third request. *)
Theorem X3_fetch_default_bounds : forall fetch : nat -> result string,
  let run := Transport.fetchWithRetry fetch Transport.MAX_RETRIES in
  (Transport.total (fst run) <= 15000)%N
  /\ snd run <> Ok None
  /\ (forall html, snd run = Ok (Some html) ->
        fetch 1 = Ok html \/ fetch 2 = Ok html \/ fetch 3 = Ok html)
  /\ (forall e, snd run = Throw e -> fetch 3 = Throw e).
Proof.
  intros fetch. unfold Transport.fetchWithRetry, Transport.MAX_RETRIES.
  cbn [Transport.attempts Nat.ltb Nat.leb].
  destruct (fetch 1) as [h1|e1] eqn:E1.
  { cbn. repeat split; try lia; try discriminate.
    intros html H. injection H as <-. left. reflexivity. }
  destruct (fetch 2) as [h2|e2] eqn:E2.
  { cbn. repeat split; try lia; try discriminate.
    intros html H. injection H as <-. right. left. reflexivity. }
  destruct (fetch 3) as [h3|e3] eqn:E3.
  { cbn. repeat split; try lia; try discriminate.
    intros html H. injection H as <-. right. right. reflexivity. }
  cbn. repeat split; try lia; try discriminate.
  intros e H. injection H as <-. reflexivity.
Qed.

(* ------------------------------------------------------------------ *)
(** ** Geocoding *)

Module GeocodeFacts.
Import JsString JsNum Geocode Shape.

Lemma lower_char_not_upper : forall c, Shape.not_upper (lower_char c) = true.
Proof. intros [[] [] [] [] [] [] [] []]; reflexivity. Qed.

Lemma toLowerCase_not_upper : forall s, all_chars Shape.not_upper (toLowerCase s) = true.
Proof.
  induction s as [|c s IH]; simpl; [reflexivity|].
  rewrite lower_char_not_upper, IH. reflexivity.
Qed.

Lemma trimStart_all : forall p s, all_chars p s = true -> all_chars p (trimStart s) = true.
Proof.
  intros p. induction s as [|c s IH]; intros H; simpl; [reflexivity|].
  destruct (is_space c); [|exact H].
  simpl in H. apply andb_true_iff in H. apply IH. apply H.
Qed.

Lemma trimEnd_all : forall p s, all_chars p s = true -> all_chars p (trimEnd s) = true.
Proof.
  intros p. induction s as [|c s IH]; intros H; simpl; [reflexivity|].
  simpl in H. apply andb_true_iff in H. destruct H as [Hc Hs].
  specialize (IH Hs). destruct (trimEnd s) as [|d t].
  - destruct (is_space c); simpl; [reflexivity|]. rewrite Hc. reflexivity.
  - simpl. rewrite Hc. exact IH.
Qed.

Lemma key_not_upper : forall city, all_chars Shape.not_upper (key_of city) = true.
Proof.
  intros city. unfold key_of, trim. apply trimEnd_all, trimStart_all.
  apply toLowerCase_not_upper.
Qed.

(** Of the inherited names only two are free of capital letters. *)
Lemma inherited_key : forall key,
  all_chars Shape.not_upper key = true ->
  existsb (String.eqb key) prototype_names = true ->
  key = "constructor" \/ key = "__proto__".
Proof.
  intros key Hk H. apply existsb_exists in H. destruct H as [name [Hin E]].
  apply String.eqb_eq in E. subst name. simpl in Hin.
  repeat (destruct Hin as [<-|Hin];
          [first [left; reflexivity | right; reflexivity | discriminate Hk]|]).
  contradiction.
Qed.

Lemma own_in_box : forall table key lat lng,
  forallb (fun kv => in_box (fst (snd kv)) (snd (snd kv))) table = true ->
  own key table = Some (lat, lng) -> in_box lat lng = true.
Proof.
  induction table as [|[k v] table IH]; intros key lat lng Hall H;
    cbn [own forallb] in *.
  - discriminate.
  - apply andb_true_iff in Hall. destruct Hall as [Hv Hall].
    destruct (String.eqb k key).
    + injection H as ->. exact Hv.
    + eapply IH; eassumption.
Qed.

Lemma default_in_box : in_box (fst default) (snd default) = true.
Proof. vm_compute. reflexivity. Qed.

Lemma geocode_in_box : forall table city,
  forallb (fun kv => in_box (fst (snd kv)) (snd (snd kv))) table = true ->
  match geocode table city with
  | Coords lat lng => in_box lat lng = true
  | Inherited name => name = "constructor" \/ name = "__proto__"
  end.
Proof.
  intros table city Hall. unfold geocode.
  destruct city as [[|c t]|]; try apply default_in_box.
  unfold get. destruct (own (key_of (String c t)) table) as [[lat lng]|] eqn:E.
  - eapply own_in_box; eassumption.
  - destruct (existsb _ prototype_names) eqn:P.
    + apply inherited_key; [apply key_not_upper|exact P].
    + apply default_in_box.
Qed.

Lemma own_missing : forall table key,
  ~ In key (map fst table) -> own key table = None.
Proof.
  induction table as [|[k v] table IH]; intros key H; simpl; [reflexivity|].
  destruct (String.eqb k key) eqn:E.
  - apply String.eqb_eq in E. exfalso. apply H. left. exact E.
  - apply IH. intros Hin. apply H. right. exact Hin.
Qed.

Lemma geocode_default : forall table c,
  ~ In (key_of c) (map fst table) ->
  key_of c <> "constructor" -> key_of c <> "__proto__" ->
  geocode table (Some c) = Coords (fst default) (snd default).
Proof.
  intros table c Hk H1 H2. unfold geocode. destruct c as [|a t]; [reflexivity|].
  unfold get. rewrite (own_missing _ _ Hk).
  destruct (existsb _ prototype_names) eqn:P; [|reflexivity].
  destruct (inherited_key _ (key_not_upper _) P); contradiction.
Qed.

Lemma geocode_found : forall table c v,
  own "" table = None ->
  own (key_of c) table = Some v ->
  geocode table (Some c) = Coords (fst v) (snd v).
Proof.
  intros table c v Hempty H. unfold geocode. destruct c as [|a t].
  - change (key_of "") with EmptyString in H. rewrite Hempty in H. discriminate.
  - unfold get. rewrite H. destruct v. reflexivity.
Qed.

Lemma own_v1 : forall k v,
  In (k, v) CHARLOTTE_METRO_COORDS -> own k CHARLOTTE_METRO_COORDS = Some v.
Proof.
  intros k v H. vm_compute in H.
  repeat (destruct H as [H|H]; [injection H as <- <-; vm_compute; reflexivity|]).
  contradiction.
Qed.

Lemma own_v2 : forall k v,
  In (k, v) NC_METRO_COORDS -> own k NC_METRO_COORDS = Some v.
Proof.
  intros k v H. vm_compute in H.
  repeat (destruct H as [H|H]; [injection H as <- <-; vm_compute; reflexivity|]).
  contradiction.
Qed.

End GeocodeFacts.

(** X4: whatever the city, [geocodeCity] returns coordinates inside the
    box that holds every entry of its table (latitude 34.0007 to 35.671,
    longitude -81.1873 to -80.4024), with one exception: a city whose
    lower-cased, trimmed name is [constructor] or [__proto__] finds the
    property that the table inherits, not coordinates. *)
Theorem X4_geocode_in_box : forall city : option string,
  match Geocode.geocodeCity_v1 city with
  | Geocode.Coords lat lng => Geocode.in_box lat lng = true
  | Geocode.Inherited name => name = "constructor" \/ name = "__proto__"
  end
  /\
  match Geocode.geocodeCity_v2 city with
  | Geocode.Coords lat lng => Geocode.in_box lat lng = true
  | Geocode.Inherited name => name = "constructor" \/ name = "__proto__"
  end.
Proof.
  intros city. split; apply GeocodeFacts.geocode_in_box; vm_compute; reflexivity.
Qed.

(** X5: the lookup ignores letter case and surrounding white space: a
    city whose lower-cased, trimmed name is a key of the table gets the
    coordinates of that entry; a city whose name is no key (and is not
    one of the two inherited names) gets the default coordinates, as a
    missing or empty city does. *)
Theorem X5_geocode_lookup :
  (forall c k v, In (k, v) Geocode.CHARLOTTE_METRO_COORDS -> Geocode.key_of c = k ->
     Geocode.geocodeCity_v1 (Some c) = Geocode.Coords (fst v) (snd v))
  /\ (forall c k v, In (k, v) Geocode.NC_METRO_COORDS -> Geocode.key_of c = k ->
        Geocode.geocodeCity_v2 (Some c) = Geocode.Coords (fst v) (snd v))
  /\ (forall c,
        ~ In (Geocode.key_of c) (map fst Geocode.CHARLOTTE_METRO_COORDS) ->
        Geocode.key_of c <> "constructor" -> Geocode.key_of c <> "__proto__" ->
        Geocode.geocodeCity_v1 (Some c) = Geocode.geocodeCity_v1 None)
  /\ (forall c,
        ~ In (Geocode.key_of c) (map fst Geocode.NC_METRO_COORDS) ->
        Geocode.key_of c <> "constructor" -> Geocode.key_of c <> "__proto__" ->
        Geocode.geocodeCity_v2 (Some c) = Geocode.geocodeCity_v2 None)
  /\ Geocode.geocodeCity_v1 None
     = Geocode.Coords (JsNum.parseFloat "35.32") (JsNum.parseFloat "-80.85")
  /\ Geocode.geocodeCity_v2 (Some "") = Geocode.geocodeCity_v2 None.
Proof.
  repeat match goal with |- _ /\ _ => split end.
  - intros c k v Hin Hk. apply GeocodeFacts.geocode_found; [reflexivity|].
    rewrite Hk. apply GeocodeFacts.own_v1. exact Hin.
  - intros c k v Hin Hk. apply GeocodeFacts.geocode_found; [reflexivity|].
    rewrite Hk. apply GeocodeFacts.own_v2. exact Hin.
  - intros c Hk H1 H2. apply GeocodeFacts.geocode_default; assumption.
  - intros c Hk H1 H2. apply GeocodeFacts.geocode_default; assumption.
  - reflexivity.
  - reflexivity.
Qed.

Lemma X5_geocode_lookup_witness :
  Geocode.geocodeCity_v1 (Some "  Rock HILL ")
  = Geocode.Coords (JsNum.parseFloat "34.9249") (JsNum.parseFloat "-81.0251")
  /\ Geocode.geocodeCity_v2 (Some "Asheville") = Geocode.geocodeCity_v2 None.
Proof.
  destruct X5_geocode_lookup as (F1 & _ & _ & D2 & _). split.
  - apply (F1 "  Rock HILL " "rock hill"
              (JsNum.parseFloat "34.9249", JsNum.parseFloat "-81.0251")).
    + vm_compute. do 13 right. left. reflexivity.
    + vm_compute. reflexivity.
  - apply (D2 "Asheville").
    + vm_compute. intros H.
      repeat (destruct H as [H|H]; [discriminate H|]). exact H.
    + discriminate.
    + discriminate.
Defined.

(** X6: the geocoding step of [main] gives a record whose city reads
    [constructor] or [__proto__] once lower-cased and trimmed the
    coordinates [NaN], whatever the random draws; [JSON.stringify] writes
    them as [null]. *)
Theorem X6_geocode_inherited_gives_nan :
  (forall (l : V1.listing) (c : string) (r1 r2 : JsNum.number),
     V1.city l = Some c ->
     Geocode.key_of c = "constructor" \/ Geocode.key_of c = "__proto__" ->
     let x := Geocode.locate_v1 l r1 r2 in
     V1.lat x = JsNum.nan /\ V1.lng x = JsNum.nan
     /\ Json.num (V1.lat x) = "null" /\ Json.num (V1.lng x) = "null")
  /\
  (forall (l : V2.listing) (c : string) (r1 r2 : JsNum.number),
     V2.city l = Some c ->
     Geocode.key_of c = "constructor" \/ Geocode.key_of c = "__proto__" ->
     let x := Geocode.locate_v2 l r1 r2 in
     V2.lat x = JsNum.nan /\ V2.lng x = JsNum.nan
     /\ Json.num (V2.lat x) = "null" /\ Json.num (V2.lng x) = "null").
Proof.
  split.
  - intros l c r1 r2 Hc Hk x.
    assert (Hg : exists name, Geocode.geocodeCity_v1 (Some c) = Geocode.Inherited name).
    { unfold Geocode.geocodeCity_v1, Geocode.geocode.
      destruct c as [|a t]; [destruct Hk as [Hk|Hk]; discriminate Hk|].
      unfold Geocode.get. destruct Hk as [Hk|Hk]; rewrite Hk; eexists; reflexivity. }
    destruct Hg as [name Hg].
    unfold x, Geocode.locate_v1. rewrite Hc, Hg.
    cbn [Geocode.plus Geocode.lat_of Geocode.lng_of V1.lat V1.lng].
    repeat split; vm_compute; reflexivity.
  - intros l c r1 r2 Hc Hk x.
    assert (Hg : exists name, Geocode.geocodeCity_v2 (Some c) = Geocode.Inherited name).
    { unfold Geocode.geocodeCity_v2, Geocode.geocode.
      destruct c as [|a t]; [destruct Hk as [Hk|Hk]; discriminate Hk|].
      unfold Geocode.get. destruct Hk as [Hk|Hk]; rewrite Hk; eexists; reflexivity. }
    destruct Hg as [name Hg].
    unfold x, Geocode.locate_v2. rewrite Hc, Hg.
    cbn [Geocode.plus Geocode.lat_of Geocode.lng_of V2.lat V2.lng].
    repeat split; vm_compute; reflexivity.
Qed.

Lemma X6_geocode_inherited_gives_nan_witness :
  V1.city Samples.constructor_listing = Some "Constructor"
  /\ V1.lat (Geocode.locate_v1 Samples.constructor_listing
               (JsNum.parseFloat "0.25") (JsNum.parseFloat "0.75")) = JsNum.nan.
Proof.
  split; [reflexivity|].
  apply (proj1 X6_geocode_inherited_gives_nan Samples.constructor_listing "Constructor"
           (JsNum.parseFloat "0.25") (JsNum.parseFloat "0.75")).
  - reflexivity.
  - left. reflexivity.
Defined.

(* ------------------------------------------------------------------ *)
(** ** The boundary of a card *)

Module CardFacts.
Import Dom.

Lemma walk_up_spec : forall hops chain,
  match V1.walk_up hops chain with
  | Some card =>
      exists i, i < hops /\ nth_error chain i = Some card
                /\ V1.is_card card = true
                /\ forall j a, j < i -> nth_error chain j = Some a -> V1.is_card a = false
  | None =>
      forall i a, i < hops -> nth_error chain i = Some a -> V1.is_card a = false
  end.
Proof.
  induction hops as [|hops IH]; intros chain.
  - simpl. intros i a Hi. inversion Hi.
  - destruct chain as [|current chain]; simpl.
    + intros i a _ H. destruct i; discriminate H.
    + destruct (V1.is_card current) eqn:E.
      * exists 0. split; [lia|]. split; [reflexivity|]. split; [exact E|].
        intros j a Hj. inversion Hj.
      * specialize (IH chain). destruct (V1.walk_up hops chain) as [card|].
        -- destruct IH as (i & Hi & Hn & Hc & Hmin).
           exists (S i). split; [lia|]. split; [exact Hn|]. split; [exact Hc|].
           intros [|j] a Hj Ha; simpl in Ha.
           ++ injection Ha as <-. exact E.
           ++ apply (Hmin j a); [lia|exact Ha].
        -- intros [|i] a Hi Ha; simpl in Ha.
           ++ injection Ha as <-. exact E.
           ++ apply (IH i a); [lia|exact Ha].
Qed.

Lemma walk_up_In : forall hops chain card,
  V1.walk_up hops chain = Some card -> In card chain /\ V1.is_card card = true.
Proof.
  intros hops chain card H. pose proof (walk_up_spec hops chain) as S.
  rewrite H in S. destruct S as (i & _ & Hn & Hc & _).
  split; [eapply nth_error_In; exact Hn|exact Hc].
Qed.

Lemma closest_In : forall sel e c,
  closest sel e = Some c ->
  In c (e :: lift (quirks e) (parents e)) /\ matches sel c = true.
Proof. intros sel e c H. apply find_some in H. exact H. Qed.

(** Induction on the tree. *)
Lemma node_induction (P : node -> Prop) :
  (forall s, P (Text s)) ->
  (forall t a kids, Forall P kids -> P (Elem t a kids)) ->
  forall n, P n.
Proof.
  intros HT HE. fix IH 1. intros [s|t a kids].
  - apply HT.
  - apply HE. induction kids as [|k kids IHk]; constructor; [apply IH|exact IHk].
Qed.

Lemma subtree_elem : forall mode above t a kids,
  subtree mode above (Elem t a kids)
  = mkElement (Elem t a kids) above mode
    :: flat_map (subtree mode (Elem t a kids :: above)) kids.
Proof. reflexivity. Qed.

Lemma lift_shorter : forall mode above a,
  In a (lift mode above) -> List.length (parents a) < List.length above.
Proof.
  intros mode.
  induction above as [|x above IH]; intros a H; simpl in H; [contradiction|].
  destruct H as [<-|H]; simpl; [lia|]. specialize (IH a H). lia.
Qed.

(** An element found below [n] has the mode of the tree and [n] in its
    chain, and lies in the subtree of every element of its chain from [n]
    downwards. *)
Lemma subtree_mode : forall mode n above e,
  In e (subtree mode above n) -> quirks e = mode.
Proof.
  intros mode n. induction n as [s|t at_ kids IH] using node_induction;
    intros above e He.
  - contradiction.
  - rewrite subtree_elem in He. destruct He as [<-|He]; [reflexivity|].
    apply in_flat_map in He. destruct He as (k & Hk & He).
    rewrite Forall_forall in IH. eapply IH; eassumption.
Qed.

Lemma subtree_chain : forall mode n above e,
  In e (subtree mode above n) ->
  forall a, In a (e :: lift mode (parents e)) ->
    (a = mkElement n above mode \/ List.length above < List.length (parents a)
     \/ In a (lift mode above))
    /\ (a = mkElement n above mode \/ List.length above < List.length (parents a) ->
        In e (subtree mode (parents a) (self a))).
Proof.
  intros mode n. induction n as [s|t at_ kids IH] using node_induction;
    intros above e He a Ha.
  - contradiction.
  - rewrite subtree_elem in He. destruct He as [<-|He].
    + simpl in Ha. destruct Ha as [<-|Ha].
      * split; [left; reflexivity|]. intros _. simpl parents. simpl self.
        rewrite subtree_elem. left. reflexivity.
      * split; [right; right; exact Ha|].
        apply lift_shorter in Ha. intros [->|H]; simpl in *; lia.
    + apply in_flat_map in He. destruct He as (k & Hk & He).
      rewrite Forall_forall in IH.
      destruct (IH k Hk (Elem t at_ kids :: above) e He a Ha) as [Hclass Hin].
      destruct Hclass as [->|[Hlen|Hlift]].
      * split; [right; left; simpl; lia|]. intros _. apply Hin. left. reflexivity.
      * split; [right; left; simpl in Hlen; lia|]. intros _. apply Hin. right. exact Hlen.
      * simpl in Hlift. destruct Hlift as [<-|Hlift].
        -- split; [left; reflexivity|]. intros _. simpl parents. simpl self.
           rewrite subtree_elem. right. apply in_flat_map. exists k. split; assumption.
        -- split; [right; right; exact Hlift|].
           apply lift_shorter in Hlift. intros [->|H]; simpl in *; lia.
Qed.

Lemma document_chain : forall doc e a,
  In e (subtree (quirks_mode doc) [] (documentElement doc)) ->
  In a (e :: lift (quirks e) (parents e)) ->
  In e (subtree (quirks a) (parents a) (self a)).
Proof.
  intros doc e a He Ha.
  pose proof (subtree_mode _ _ _ _ He) as Hm. rewrite Hm in Ha.
  assert (Hma : quirks a = quirks_mode doc).
  { destruct Ha as [<-|Ha]; [exact Hm|].
    clear - Ha. induction (parents e) as [|x l IH]; [contradiction|].
    destruct Ha as [<-|Ha]; [reflexivity|apply IH; exact Ha]. }
  rewrite Hma.
  destruct (subtree_chain _ _ _ _ He a Ha) as [Hclass Hin].
  apply Hin. destruct Hclass as [H|[H|H]]; [left; exact H|right; exact H|contradiction].
Qed.

Lemma find_card_In : forall link card,
  V1.find_card link = Some card ->
  In card (link :: lift (quirks link) (parents link))
  /\ (matches [Only (by_class "listing-item")] card = true
      \/ matches [Only (by_attr "class" "listing")] card = true
      \/ matches [Only (by_tag "li")] card = true
      \/ (In card (lift (quirks link) (parents link)) /\ V1.is_card card = true)).
Proof.
  intros link card H. unfold V1.find_card in H.
  destruct (closest [Only (by_class "listing-item")] link) as [c|] eqn:E1.
  { injection H as <-. apply closest_In in E1. split; [apply E1|left; apply E1]. }
  destruct (closest [Only (by_attr "class" "listing")] link) as [c|] eqn:E2.
  { injection H as <-. apply closest_In in E2. split; [apply E2|right; left; apply E2]. }
  destruct (closest [Only (by_tag "li")] link) as [c|] eqn:E3.
  { injection H as <-. apply closest_In in E3.
    split; [apply E3|right; right; left; apply E3]. }
  unfold V1.findCardContainer in H. apply walk_up_In in H.
  split; [right; apply H|right; right; right; exact H].
Qed.

End CardFacts.

(** X7: [findCardContainer] returns the nearest of the first ten
    ancestors of the element that has at least three child elements, at
    least two anchors below it and more than fifty code units of trimmed
    text; it returns [null] exactly when none of these ten ancestors
    qualifies, and never the element itself. *)
Theorem X7_findCardContainer_nearest : forall e : Dom.element,
  let chain := Dom.lift (Dom.quirks e) (Dom.parents e) in
  match V1.findCardContainer e with
  | Some card =>
      exists i, i < 10 /\ nth_error chain i = Some card
                /\ V1.is_card card = true
                /\ forall j a, j < i -> nth_error chain j = Some a ->
                               V1.is_card a = false
  | None =>
      forall i a, i < 10 -> nth_error chain i = Some a -> V1.is_card a = false
  end.
Proof. intros e. apply CardFacts.walk_up_spec. Qed.

(** X8: the card that [parseListings] takes for an anchor of the page is
    the anchor itself or one of its ancestors, and the anchor lies in the
    subtree of the card; the card carries the class [listing-item], or a
    class containing [listing], or is an [li], or is a proper ancestor
    accepted by [findCardContainer]. *)
Theorem X8_card_encloses_anchor : forall (doc : Dom.document) (link card : Dom.element),
  In link (Dom.docQuerySelectorAll Patterns.detail_link doc) ->
  V1.find_card link = Some card ->
  In card (link :: Dom.lift (Dom.quirks link) (Dom.parents link))
  /\ In link (Dom.subtree (Dom.quirks card) (Dom.parents card) (Dom.self card))
  /\ (Dom.matches [Dom.Only (Dom.by_class "listing-item")] card = true
      \/ Dom.matches [Dom.Only (Dom.by_attr "class" "listing")] card = true
      \/ Dom.matches [Dom.Only (Dom.by_tag "li")] card = true
      \/ (In card (Dom.lift (Dom.quirks link) (Dom.parents link))
          /\ V1.is_card card = true)).
Proof.
  intros doc link card Hlink Hcard.
  destruct (CardFacts.find_card_In link card Hcard) as [Hin Hkind].
  split; [exact Hin|]. split; [|exact Hkind].
  apply (CardFacts.document_chain doc).
  - apply filter_In in Hlink. apply Hlink.
  - exact Hin.
Qed.

Lemma X8_card_encloses_anchor_witness :
  In Samples.first_anchor
     (Dom.subtree (Dom.quirks Samples.first_anchor_card)
                  (Dom.parents Samples.first_anchor_card)
                  (Dom.self Samples.first_anchor_card))
  /\ Dom.tagName (Dom.self Samples.first_anchor_card) = "li"
  /\ In Samples.quirks_card
        (Samples.quirks_anchor
         :: Dom.lift (Dom.quirks Samples.quirks_anchor) (Dom.parents Samples.quirks_anchor))
  /\ Dom.classList (Dom.self Samples.quirks_card) = ["Listing-Item"].
Proof.
  split; [|split; [reflexivity|split; [|reflexivity]]].
  - apply (X8_card_encloses_anchor Samples.two_cards_page Samples.first_anchor
             Samples.first_anchor_card).
    + vm_compute. left. reflexivity.
    + vm_compute. reflexivity.
  - apply (X8_card_encloses_anchor Samples.quirks_page Samples.quirks_anchor
             Samples.quirks_card).
    + vm_compute. left. reflexivity.
    + vm_compute. reflexivity.
Defined.

(* ------------------------------------------------------------------ *)
(** ** What the index parsers return *)

Module ParseFacts.
Import Dom Patterns Identifiers SetFacts IdentifierFacts.

(** [parseListings] on a page with anchors. *)
Lemma v1_with_links : forall doc,
  docQuerySelectorAll detail_link doc <> [] ->
  exists ls,
    V1.parseListings doc = Ok (V1.mkParsed ls false)
    /\ subseq (map V1.id ls) (StrSet.of_list (identifiers doc)).
Proof.
  intros doc Hlinks.
  destruct (forEach_links (docQuerySelectorAll detail_link doc) [] []
              (detail_links_href doc)) as (ls & H1 & H2 & _).
  exists ls. split; [|apply H2; constructor].
  unfold V1.parseListings. cbv zeta. rewrite (length_zero _ _ Hlinks). unfold bind.
  match goal with
  | |- match ?x with _ => _ end = _ =>
      replace x with (Ok (StrSet.of_list (identifiers doc), ls)) by (symmetry; exact H1)
  end.
  reflexivity.
Qed.

Lemma v2_with_links : forall doc,
  docQuerySelectorAll detail_link doc <> [] ->
  V2.parseIndexPage doc = Ok (V2.mkIndex (StrSet.of_list (identifiers doc)) false).
Proof.
  intros doc Hlinks. unfold V2.parseIndexPage. cbv zeta.
  rewrite (length_zero _ _ Hlinks), filter_truthy_links. reflexivity.
Qed.

Lemma v1_without_links : forall doc,
  docQuerySelectorAll detail_link doc = [] ->
  V1.parseListings doc
  = if no_vacancies (textContent (self (body doc)))
    then Ok (V1.mkParsed [] true) else Throw structure_changed.
Proof.
  intros doc H. unfold V1.parseListings. cbv zeta. rewrite H. reflexivity.
Qed.

Lemma v2_without_links : forall doc,
  docQuerySelectorAll detail_link doc = [] ->
  V2.parseIndexPage doc
  = if no_vacancies (textContent (self (body doc)))
    then Ok (V2.mkIndex [] true) else Throw structure_changed.
Proof.
  intros doc H. unfold V2.parseIndexPage. cbv zeta. rewrite H. reflexivity.
Qed.

Lemma nil_or_not {A : Type} (l : list A) : l = [] \/ l <> [].
Proof. destruct l; [left; reflexivity|right; discriminate]. Qed.

Lemma subseq_length : forall a b, subseq a b -> List.length a <= List.length b.
Proof. intros a b H. induction H; simpl; lia. Qed.

Lemma of_list_length : forall l, List.length (StrSet.of_list l) <= List.length l.
Proof.
  induction l as [|x l IH] using rev_ind; [apply Nat.le_refl|].
  rewrite of_list_snoc, length_app. simpl. unfold StrSet.add.
  destruct (StrSet.has x (StrSet.of_list l)); [lia|].
  rewrite length_app. simpl. lia.
Qed.

Lemma of_links_length : forall links,
  List.length (of_links links) <= List.length links.
Proof.
  induction links as [|link links IH]; [apply Nat.le_refl|].
  unfold of_links in *. simpl. rewrite length_app.
  destruct (V2.link_uuid link); simpl; lia.
Qed.

End ParseFacts.

(** X9: an index parser raises exactly when the page has no detail
    anchor and no no-vacancies notice, and the only error it ever raises
    is the structure-changed one, whose text holds the words
    STRUCTURE_CHANGED; in particular no anchor and no address can make a
    parser raise a type error. *)
Theorem X9_index_parsers_raise_only_structure_changed :
  forall doc : Dom.document,
    let unreadable :=
      Dom.docQuerySelectorAll Patterns.detail_link doc = []
      /\ Patterns.no_vacancies (Dom.textContent (Dom.self (Dom.body doc))) = false in
    (V1.parseListings doc = Throw Patterns.structure_changed <-> unreadable)
    /\ (V2.parseIndexPage doc = Throw Patterns.structure_changed <-> unreadable)
    /\ (forall e, V1.parseListings doc = Throw e -> e = Patterns.structure_changed)
    /\ (forall e, V2.parseIndexPage doc = Throw e -> e = Patterns.structure_changed)
    /\ JsString.includes "STRUCTURE_CHANGED" Patterns.structure_changed = true.
Proof.
  intros doc unreadable. unfold unreadable. clear unreadable.
  assert (H1 : forall e, V1.parseListings doc = Throw e ->
                 e = Patterns.structure_changed
                 /\ Dom.docQuerySelectorAll Patterns.detail_link doc = []
                 /\ Patterns.no_vacancies
                      (Dom.textContent (Dom.self (Dom.body doc))) = false).
  { intros e H.
    destruct (ParseFacts.nil_or_not (Dom.docQuerySelectorAll Patterns.detail_link doc))
      as [Hn|Hn].
    - rewrite (ParseFacts.v1_without_links doc Hn) in H.
      destruct (Patterns.no_vacancies _); [discriminate|].
      injection H as <-. repeat split. exact Hn.
    - destruct (ParseFacts.v1_with_links doc Hn) as (ls & Hp & _).
      rewrite Hp in H. discriminate. }
  assert (H2 : forall e, V2.parseIndexPage doc = Throw e ->
                 e = Patterns.structure_changed
                 /\ Dom.docQuerySelectorAll Patterns.detail_link doc = []
                 /\ Patterns.no_vacancies
                      (Dom.textContent (Dom.self (Dom.body doc))) = false).
  { intros e H.
    destruct (ParseFacts.nil_or_not (Dom.docQuerySelectorAll Patterns.detail_link doc))
      as [Hn|Hn].
    - rewrite (ParseFacts.v2_without_links doc Hn) in H.
      destruct (Patterns.no_vacancies _); [discriminate|].
      injection H as <-. repeat split. exact Hn.
    - rewrite (ParseFacts.v2_with_links doc Hn) in H. discriminate. }
  split; [|split; [|split; [|split]]].
  - split.
    + intros H. apply (H1 _ H).
    + intros [Hn Hv]. rewrite (ParseFacts.v1_without_links doc Hn), Hv. reflexivity.
  - split.
    + intros H. apply (H2 _ H).
    + intros [Hn Hv]. rewrite (ParseFacts.v2_without_links doc Hn), Hv. reflexivity.
  - intros e H. apply (H1 e H).
  - intros e H. apply (H2 e H).
  - vm_compute. reflexivity.
Qed.

Lemma X9_index_parsers_raise_only_structure_changed_witness :
  V1.parseListings Samples.redesigned_page = Throw Patterns.structure_changed
  /\ V2.parseIndexPage Samples.redesigned_page = Throw Patterns.structure_changed
  /\ V1.parseListings Samples.vacant_page <> Throw Patterns.structure_changed.
Proof.
  destruct (X9_index_parsers_raise_only_structure_changed Samples.redesigned_page)
    as (A & B & _).
  destruct (X9_index_parsers_raise_only_structure_changed Samples.vacant_page)
    as (C & _).
  split; [|split].
  - apply A. split; vm_compute; reflexivity.
  - apply B. split; vm_compute; reflexivity.
  - intros H. apply C in H. destruct H as [_ H]. vm_compute in H. discriminate H.
Defined.

(** X10: the parsers never return more records or identifiers than the
    page has detail anchors; the no-vacancies flag is set only on an
    empty result, and a result with the flag cleared comes from a page
    that has at least one anchor. *)
Theorem X10_no_more_records_than_anchors : forall doc : Dom.document,
  let anchors := Dom.docQuerySelectorAll Patterns.detail_link doc in
  (forall p, V1.parseListings doc = Ok p ->
     List.length (V1.listings p) <= List.length (StrSet.of_list (Identifiers.identifiers doc))
     /\ List.length (StrSet.of_list (Identifiers.identifiers doc)) <= List.length anchors
     /\ (V1.noVacancies p = true -> V1.listings p = [] /\ anchors = [])
     /\ (V1.noVacancies p = false -> anchors <> []))
  /\
  (forall ix, V2.parseIndexPage doc = Ok ix ->
     List.length (V2.uuids ix) <= List.length anchors
     /\ (V2.noVacancies ix = true -> V2.uuids ix = [] /\ anchors = [])
     /\ (V2.noVacancies ix = false -> anchors <> [])).
Proof.
  intros doc anchors.
  assert (Hids : List.length (StrSet.of_list (Identifiers.identifiers doc))
                 <= List.length anchors).
  { etransitivity; [apply ParseFacts.of_list_length|apply ParseFacts.of_links_length]. }
  split.
  - intros p H. destruct (ParseFacts.nil_or_not anchors) as [Hn|Hn].
    + rewrite (ParseFacts.v1_without_links doc Hn) in H.
      destruct (Patterns.no_vacancies _); [|discriminate].
      injection H as <-. simpl. repeat split; try lia; try assumption; discriminate.
    + destruct (ParseFacts.v1_with_links doc Hn) as (ls & Hp & Hs).
      rewrite Hp in H. injection H as <-. simpl. split.
      * apply ParseFacts.subseq_length in Hs. rewrite length_map in Hs. exact Hs.
      * split; [exact Hids|]. split; [discriminate|intros _; exact Hn].
  - intros ix H. destruct (ParseFacts.nil_or_not anchors) as [Hn|Hn].
    + rewrite (ParseFacts.v2_without_links doc Hn) in H.
      destruct (Patterns.no_vacancies _); [|discriminate].
      injection H as <-. simpl. repeat split; try lia; try assumption; discriminate.
    + rewrite (ParseFacts.v2_with_links doc Hn) in H. injection H as <-. simpl.
      split; [exact Hids|]. split; [discriminate|intros _; exact Hn].
Qed.

Lemma X10_no_more_records_than_anchors_witness :
  List.length (V1.listings Samples.two_cards_parsed) <= 4
  /\ Dom.docQuerySelectorAll Patterns.detail_link Samples.two_cards_page <> [].
Proof.
  destruct (proj1 (X10_no_more_records_than_anchors Samples.two_cards_page)
              Samples.two_cards_parsed) as (H1 & H2 & _ & H4).
  - vm_compute. reflexivity.
  - split.
    + etransitivity; [exact H1|]. etransitivity; [exact H2|]. vm_compute. repeat constructor.
    + apply H4. reflexivity.
Defined.

(* ------------------------------------------------------------------ *)
(** ** The run of the detail-page script *)

Module DetailRunFacts.
Import Dom Patterns Shape.

Lemma fold_visit : forall fetch uuids acc,
  exists ls,
    fold_left (V2.visit_detail fetch) uuids acc = acc ++ ls
    /\ map V2.id ls = V2Run.reached fetch uuids.
Proof.
  intros fetch. induction uuids as [|u uuids IH]; intros acc.
  - exists []. split; [symmetry; apply app_nil_r|reflexivity].
  - cbn [fold_left]. unfold V2Run.reached. cbn [filter]. fold (V2Run.reached fetch uuids).
    unfold V2.visit_detail at 2.
    destruct (fetch (V2.BASE_URL ++ "/listings/detail/" ++ u)%string) as [d|e]; simpl.
    + destruct (ExtractFacts.v2_record d u)
        as (address & rent & sqft & rate & available & type & lease & utilities & city
            & _ & _ & _ & _ & _ & _ & _ & _ & _ & Hrec).
      rewrite Hrec.
      match goal with
      | |- context [fold_left _ uuids (acc ++ [?l])] =>
          destruct (IH (acc ++ [l])) as (ls & H1 & H2); exists (l :: ls)
      end.
      split; [rewrite H1, <- app_assoc; reflexivity|].
      simpl. rewrite H2. reflexivity.
    + destruct (IH acc) as (ls & H1 & H2). exists ls. split; assumption.
Qed.

Lemma flagged_empty : forall doc ix,
  V2.parseIndexPage doc = Ok ix -> V2.noVacancies ix = true -> V2.uuids ix = [].
Proof.
  intros doc ix H Hn.
  destruct (ParseFacts.nil_or_not (docQuerySelectorAll detail_link doc)) as [Hl|Hl].
  - rewrite (ParseFacts.v2_without_links doc Hl) in H.
    destruct (no_vacancies _); [|discriminate]. injection H as <-. reflexivity.
  - rewrite (ParseFacts.v2_with_links doc Hl) in H. injection H as <-. discriminate Hn.
Qed.

End DetailRunFacts.

(* ------------------------------------------------------------------ *)
(** ** The run, case by case *)

Module ExitFacts.
Import JsString Dom Patterns.


Lemma v1_parse_error : forall doc e,
  V1.parseListings doc = Throw e -> e = structure_changed.
Proof.
  intros doc e H.
  destruct (ParseFacts.nil_or_not (docQuerySelectorAll detail_link doc)) as [Hn|Hn].
  - rewrite (ParseFacts.v1_without_links doc Hn) in H.
    destruct (no_vacancies _); [discriminate|]. injection H as <-. reflexivity.
  - destruct (ParseFacts.v1_with_links doc Hn) as (ls & Hp & _).
    rewrite Hp in H. discriminate.
Qed.


(** How the [catch] block ends. *)
Lemma v1_failed_inv : forall h message,
  match V1.failed h message with
  | V1.Exit code => code = V1.exit_code message
  | V1.Uncaught _ => ~ Host.writes_succeed h
  | V1.Snapshot _ _ => False
  end.
Proof.
  intros h message. unfold V1.failed.
  destruct (Host.summary_file h) eqn:S; [|reflexivity].
  destruct (Host.write_failure h) eqn:W; [reflexivity|].
  intros [_ Hs]. destruct (Hs S) as [_ Hf]. rewrite Hf in W. discriminate W.
Qed.

Lemma v2_failed_inv : forall h message,
  match V2.failed h message with
  | V2.Exit code => code = V2.exit_code message
  | V2.Uncaught _ => ~ Host.writes_succeed h
  | V2.EmptySnapshot => False
  | V2.Snapshot _ _ => False
  end.
Proof.
  intros h message. unfold V2.failed.
  destruct (Host.summary_file h) eqn:S; [|reflexivity].
  destruct (Host.write_failure h) eqn:W; [reflexivity|].
  intros [_ Hs]. destruct (Hs S) as [_ Hf]. rewrite Hf in W. discriminate W.
Qed.

Lemma exit_code_range : forall message,
  V1.exit_code message = 1 \/ V1.exit_code message = 2.
Proof.
  intros message. unfold V1.exit_code.
  destruct (includes "STRUCTURE_CHANGED" message); auto.
Qed.

(** The run of the first script on any host. *)
Lemma v1_run : forall h,
  match Host.fetch h V1.APPFOLIO_URL with
  | Throw e => V1.main h = V1.failed h e
  | Ok doc =>
      match V1.parseListings doc with
      | Throw _ => V1.main h = V1.failed h structure_changed
      | Ok p =>
          V1.main h
          = if Nat.leb (List.length (V1.listings p)) 200
            then match V1.write_files h with
                 | Ok _ => V1.Snapshot p (V1.warnings (V1.validateListings (V1.listings p)))
                 | Throw message => V1.failed h message
                 end
            else V1.Exit 3
      end
  end.
Proof.
  intros h. unfold V1.main, bind.
  destruct (Host.fetch h V1.APPFOLIO_URL) as [doc|e]; [|reflexivity].
  destruct (V1.parseListings doc) as [p|e] eqn:E.
  - cbv zeta. rewrite ValidatorFacts.v1_valid.
    destruct (Nat.leb (List.length (V1.listings p)) 200); reflexivity.
  - rewrite (v1_parse_error doc e E). reflexivity.
Qed.

(** The run of the second script on any host, once the index page is
    fetched and parsed. *)
Lemma v2_run : forall h doc ix,
  Host.fetch h V2.APPFOLIO_URL = Ok doc ->
  V2.parseIndexPage doc = Ok ix ->
  match V2.uuids ix with
  | [] =>
      V2.main h = match Host.write_output h with
                  | Ok _ => V2.EmptySnapshot
                  | Throw message => V2.failed h message
                  end
  | _ :: _ =>
      exists ls,
        map V2.id ls = V2Run.reached (Host.fetch h) (V2.uuids ix)
        /\ V2.main h
           = match ls with
             | [] => V2.failed h "No listings could be parsed from detail pages"
             | _ :: _ =>
                 if Nat.leb (List.length ls) 200
                 then match V2.write_files h with
                      | Ok _ => V2.Snapshot ls (V2.warnings (V2.validateListings ls))
                      | Throw message => V2.failed h message
                      end
                 else V2.Exit 3
             end
  end.
Proof.
  intros h doc ix Hf Hp. unfold V2.main, bind. rewrite Hf, Hp.
  destruct (V2.noVacancies ix) eqn:En.
  { rewrite (DetailRunFacts.flagged_empty doc ix Hp En). reflexivity. }
  simpl orb. destruct (V2.uuids ix) as [|u uuids]; [reflexivity|].
  cbn [List.length Nat.eqb]. cbv zeta.
  destruct (DetailRunFacts.fold_visit (Host.fetch h) (u :: uuids) []) as (ls & H1 & H2).
  exists ls. split; [exact H2|]. rewrite H1. simpl app.
  destruct ls as [|l ls]; [reflexivity|].
  cbn [List.length Nat.eqb]. rewrite ValidatorFacts.v2_valid.
  cbn [List.length]. destruct (Nat.leb (S (List.length ls)) 200); reflexivity.
Qed.



End ExitFacts.

(** X11: once the index page is fetched and parsed, the run of the
    detail-page script writes the empty snapshot only when the page gave
    no identifier; the records it writes otherwise are those of the
    identifiers whose detail page could be fetched, one each and in the
    order of the index page, a failed page being skipped.  When no write
    fails it ends with exit code 1 only if no page could be fetched and
    with exit code 3 only if more than 200 could, and no error leaves
    [main]. *)
Theorem X11_detail_run_keeps_fetched_pages :
  forall (h : Host.t) (doc : Dom.document) (ix : V2.index),
    Host.fetch h V2.APPFOLIO_URL = Ok doc ->
    V2.parseIndexPage doc = Ok ix ->
    let reached := V2Run.reached (Host.fetch h) (V2.uuids ix) in
    match V2.main h with
    | V2.EmptySnapshot => V2.uuids ix = []
    | V2.Snapshot ls w =>
        map V2.id ls = reached /\ reached <> [] /\ List.length reached <= 200
        /\ w = V2.warnings (V2.validateListings ls)
    | V2.Exit code =>
        Host.writes_succeed h ->
        V2.uuids ix <> []
        /\ ((code = 1 /\ reached = []) \/ (code = 3 /\ 200 < List.length reached))
    | V2.Uncaught _ => ~ Host.writes_succeed h
    end.
Proof.
  intros h doc ix Hf Hp reached.
  assert (F : forall message,
            match V2.failed h message with
            | V2.Exit code => Host.writes_succeed h -> code = V2.exit_code message
            | V2.Uncaught _ => ~ Host.writes_succeed h
            | _ => False
            end).
  { intros message. pose proof (ExitFacts.v2_failed_inv h message) as I.
    destruct (V2.failed h message); auto. }
  assert (Fw : forall message,
            ~ Host.writes_succeed h ->
            match V2.failed h message with
            | V2.EmptySnapshot => V2.uuids ix = []
            | V2.Snapshot ls w =>
                map V2.id ls = reached /\ reached <> [] /\ List.length reached <= 200
                /\ w = V2.warnings (V2.validateListings ls)
            | V2.Exit code =>
                Host.writes_succeed h ->
                V2.uuids ix <> []
                /\ ((code = 1 /\ reached = []) \/ (code = 3 /\ 200 < List.length reached))
            | V2.Uncaught _ => ~ Host.writes_succeed h
            end).
  { intros message Hn. pose proof (F message) as I.
    destruct (V2.failed h message);
      first [contradiction | exact I | intros Hw; contradiction]. }
  pose proof (ExitFacts.v2_run h doc ix Hf Hp) as R.
  destruct (V2.uuids ix) as [|u uuids] eqn:Eu.
  - rewrite R. destruct (Host.write_output h) as [u|message] eqn:W; [reflexivity|].
    apply Fw. intros [Ho _]. rewrite Ho in W. discriminate W.
  - destruct R as (ls & Hids & R). rewrite R. fold reached in Hids.
    assert (Hlen : List.length ls = List.length reached)
      by (rewrite <- Hids; symmetry; apply length_map).
    destruct ls as [|l ls].
    + pose proof (F "No listings could be parsed from detail pages") as I.
      destruct (V2.failed h "No listings could be parsed from detail pages");
        try contradiction.
      * intros Hw. split; [discriminate|]. left.
        split; [rewrite (I Hw); reflexivity|symmetry; exact Hids].
      * exact I.
    + destruct (Nat.leb (List.length (l :: ls)) 200) eqn:E.
      * apply Nat.leb_le in E.
        destruct (V2.write_files h) as [u0|message] eqn:W.
        -- split; [exact Hids|]. split; [rewrite <- Hids; discriminate|].
           split; [rewrite <- Hlen; exact E|reflexivity].
        -- apply Fw. intros Hw. rewrite (HostFacts.v2_write_files h Hw) in W.
           discriminate W.
      * apply Nat.leb_gt in E. intros _. split; [discriminate|]. right.
        split; [reflexivity|rewrite <- Hlen; exact E].
Qed.

Lemma X11_detail_run_keeps_fetched_pages_witness :
  V2Run.reached Samples.partial_site ["aaa-1"; "bbb-2"] = ["bbb-2"]
  /\ match V2.main (Host.quiet Samples.partial_site) with
     | V2.Snapshot ls _ => map V2.id ls = ["bbb-2"]
     | _ => False
     end.
Proof.
  split; [vm_compute; reflexivity|].
  pose proof (X11_detail_run_keeps_fetched_pages (Host.quiet Samples.partial_site)
                Samples.two_cards_page (V2.mkIndex ["aaa-1"; "bbb-2"] false)
                eq_refl eq_refl) as H.
  destruct (V2.main (Host.quiet Samples.partial_site)) as [code|message| |ls w] eqn:E.
  - vm_compute in E. discriminate E.
  - vm_compute in E. discriminate E.
  - vm_compute in E. discriminate E.
  - destruct H as (H & _). rewrite H. vm_compute. reflexivity.
Defined.

(* ------------------------------------------------------------------ *)
(** ** The size and the form of the warnings *)

Module WarningFacts.
Import JsString JsNum ValidatorFacts.

Lemma v1_push_length : forall c m w,
  List.length (V1.push_if c m w) = List.length w + (if c then 1 else 0).
Proof. intros [|] m w; simpl; [rewrite length_app; reflexivity|lia]. Qed.

Lemma v2_push_length : forall c m w,
  List.length (V2.push_if c m w) = List.length w + (if c then 1 else 0).
Proof. intros [|] m w; simpl; [rewrite length_app; reflexivity|lia]. Qed.

Lemma v1_push_In : forall c m w x,
  In x (V1.push_if c m w) -> In x w \/ x = m.
Proof.
  intros [|] m w x H; simpl in H; [|left; exact H].
  apply in_app_or in H. destruct H as [H|[H|[]]]; [left; exact H|right; symmetry; exact H].
Qed.

Lemma v2_push_In : forall c m w x,
  In x (V2.push_if c m w) -> In x w \/ x = m.
Proof.
  intros [|] m w x H; simpl in H; [|left; exact H].
  apply in_app_or in H. destruct H as [H|[H|[]]]; [left; exact H|right; symmetry; exact H].
Qed.

(** A value above a million is present. *)
Lemma v1_high_present : forall o,
  V1.above_million o = true -> truthy_opt o = true /\ V1.absent_not_zero o = false.
Proof.
  intros [x|] H; unfold V1.above_million in H; [|discriminate].
  apply andb_true_iff in H. destruct H as [H _].
  unfold V1.absent_not_zero. simpl. rewrite H. split; reflexivity.
Qed.

Lemma v2_high_present : forall o,
  V2.above_million o = true -> truthy_opt o = true /\ V2.absent_not_zero o = false.
Proof.
  intros [x|] H; unfold V2.above_million in H; [|discriminate].
  apply andb_true_iff in H. destruct H as [H _].
  unfold V2.absent_not_zero. simpl. rewrite H. split; reflexivity.
Qed.

Lemma v1_record_count : forall l,
  List.length (V1.check_fields [] l) + List.length (V1.check_sanity [] l) <= 3.
Proof.
  intros l. unfold V1.check_fields, V1.check_sanity. cbv zeta.
  rewrite !v1_push_length. cbn [List.length].
  pose proof (v1_high_present (V1.rent l)) as Hr.
  pose proof (v1_high_present (V1.sqft l)) as Hs.
  destruct (V1.above_million (V1.rent l)).
  - destruct (Hr eq_refl) as [_ ->].
    destruct (V1.above_million (V1.sqft l)).
    + destruct (Hs eq_refl) as [-> _]. simpl negb.
      destruct (negb (truthy_str (V1.address l))); lia.
    + destruct (negb (truthy_str (V1.address l))), (negb (truthy_opt (V1.sqft l))); lia.
  - destruct (V1.above_million (V1.sqft l)).
    + destruct (Hs eq_refl) as [-> _]. simpl negb.
      destruct (negb (truthy_str (V1.address l))), (V1.absent_not_zero (V1.rent l)); lia.
    + destruct (negb (truthy_str (V1.address l))), (V1.absent_not_zero (V1.rent l)),
        (negb (truthy_opt (V1.sqft l))); lia.
Qed.

Lemma v2_record_count : forall l,
  List.length (V2.check_fields [] l) + List.length (V2.check_sanity [] l) <= 4.
Proof.
  intros l. unfold V2.check_fields, V2.check_sanity. cbv zeta.
  rewrite !v2_push_length. cbn [List.length].
  pose proof (v2_high_present (V2.rent l)) as Hr.
  pose proof (v2_high_present (V2.sqft l)) as Hs.
  destruct (negb (truthy_str (V2.imageUrl l)));
  destruct (V2.above_million (V2.rent l)).
  - destruct (Hr eq_refl) as [_ ->].
    destruct (V2.above_million (V2.sqft l)).
    + destruct (Hs eq_refl) as [-> _]. simpl negb.
      destruct (negb (truthy_str (V2.address l))); lia.
    + destruct (negb (truthy_str (V2.address l))), (negb (truthy_opt (V2.sqft l))); lia.
  - destruct (V2.above_million (V2.sqft l)).
    + destruct (Hs eq_refl) as [-> _]. simpl negb.
      destruct (negb (truthy_str (V2.address l))), (V2.absent_not_zero (V2.rent l)); lia.
    + destruct (negb (truthy_str (V2.address l))), (V2.absent_not_zero (V2.rent l)),
        (negb (truthy_opt (V2.sqft l))); lia.
  - destruct (Hr eq_refl) as [_ ->].
    destruct (V2.above_million (V2.sqft l)).
    + destruct (Hs eq_refl) as [-> _]. simpl negb.
      destruct (negb (truthy_str (V2.address l))); lia.
    + destruct (negb (truthy_str (V2.address l))), (negb (truthy_opt (V2.sqft l))); lia.
  - destruct (V2.above_million (V2.sqft l)).
    + destruct (Hs eq_refl) as [-> _]. simpl negb.
      destruct (negb (truthy_str (V2.address l))), (V2.absent_not_zero (V2.rent l)); lia.
    + destruct (negb (truthy_str (V2.address l))), (V2.absent_not_zero (V2.rent l)),
        (negb (truthy_opt (V2.sqft l))); lia.
Qed.

Lemma two_loops_count {A : Type} (f g : A -> list string) (k : nat) :
  (forall a, List.length (f a) + List.length (g a) <= k) ->
  forall l, List.length (flat_map f l ++ flat_map g l) <= k * List.length l.
Proof.
  intros H l. rewrite length_app.
  induction l as [|a l IH]; simpl; [lia|].
  rewrite !length_app. specialize (H a). lia.
Qed.

Lemma v1_record_form : forall l w,
  In w (V1.check_fields [] l) \/ In w (V1.check_sanity [] l) ->
  exists what, w = ("Listing " ++ V1.id l ++ ": " ++ what)%string.
Proof.
  intros l w [H|H].
  - unfold V1.check_fields in H. cbv zeta in H.
    repeat (apply v1_push_In in H; destruct H as [H| ->];
            [|eexists; reflexivity]).
    contradiction.
  - unfold V1.check_sanity in H. cbv zeta in H.
    repeat (apply v1_push_In in H; destruct H as [H| ->];
            [|eexists; reflexivity]).
    contradiction.
Qed.

Lemma v2_record_form : forall l w,
  In w (V2.check_fields [] l) \/ In w (V2.check_sanity [] l) ->
  exists what, w = ("Listing " ++ V2.id l ++ ": " ++ what)%string.
Proof.
  intros l w [H|H].
  - unfold V2.check_fields in H. cbv zeta in H.
    repeat (apply v2_push_In in H; destruct H as [H| ->];
            [|eexists; reflexivity]).
    contradiction.
  - unfold V2.check_sanity in H. cbv zeta in H.
    repeat (apply v2_push_In in H; destruct H as [H| ->];
            [|eexists; reflexivity]).
    contradiction.
Qed.

End WarningFacts.

(** X13: the validator of the first script gives at most three warnings
    per record and that of the second at most four, since a value that is
    reported missing cannot be reported as suspiciously high; every
    warning reads [Listing <id>: ...] with the identifier of a record of
    the set. *)
Theorem X13_warnings_bounded_and_attributed :
  (forall ls : list V1.listing,
     List.length (V1.warnings (V1.validateListings ls)) <= 3 * List.length ls
     /\ forall w, In w (V1.warnings (V1.validateListings ls)) ->
          exists l what, In l ls /\ w = ("Listing " ++ V1.id l ++ ": " ++ what)%string)
  /\
  (forall ls : list V2.listing,
     List.length (V2.warnings (V2.validateListings ls)) <= 4 * List.length ls
     /\ forall w, In w (V2.warnings (V2.validateListings ls)) ->
          exists l what, In l ls /\ w = ("Listing " ++ V2.id l ++ ": " ++ what)%string).
Proof.
  split; intros ls.
  - rewrite ValidatorFacts.v1_warnings. split.
    + apply WarningFacts.two_loops_count. apply WarningFacts.v1_record_count.
    + intros w H. apply in_app_or in H.
      assert (Hl : exists l, In l ls
                             /\ (In w (V1.check_fields [] l) \/ In w (V1.check_sanity [] l))).
      { destruct H as [H|H]; apply in_flat_map in H; destruct H as (l & Hl & Hw);
          exists l; auto. }
      destruct Hl as (l & Hl & Hw).
      destruct (WarningFacts.v1_record_form l w Hw) as [what E].
      exists l, what. split; assumption.
  - rewrite ValidatorFacts.v2_warnings. split.
    + apply WarningFacts.two_loops_count. apply WarningFacts.v2_record_count.
    + intros w H. apply in_app_or in H.
      assert (Hl : exists l, In l ls
                             /\ (In w (V2.check_fields [] l) \/ In w (V2.check_sanity [] l))).
      { destruct H as [H|H]; apply in_flat_map in H; destruct H as (l & Hl & Hw);
          exists l; auto. }
      destruct Hl as (l & Hl & Hw).
      destruct (WarningFacts.v2_record_form l w Hw) as [what E].
      exists l, what. split; assumption.
Qed.

(* ------------------------------------------------------------------ *)
(** ** The fingerprint *)

Module FingerprintFacts.
Import Hash HashFacts Shape.
Local Open Scope Z_scope.

Lemma digit36_shape : forall d, 0 <= d < 36 -> is_digit36 (digit36 d) = true.
Proof.
  intros d Hd. pose proof (digit36_code d Hd) as E.
  unfold is_digit36, JsString.is_digit, JsString.is_lower, JsString.in_range,
    JsString.code.
  destruct (d <? 10) eqn:C; [apply Z.ltb_lt in C|apply Z.ltb_ge in C].
  - apply orb_true_iff. left. apply andb_true_iff. split; apply N.leb_le; lia.
  - apply orb_true_iff. right. apply andb_true_iff. split; apply N.leb_le; lia.
Qed.

(** The digits of a number below [36 ^ k]: at least one and at most [k]
    are put before [acc]. *)
Lemma digits36_shape : forall fuel k n acc,
  (1 <= k <= fuel)%nat -> 0 <= n < 36 ^ Z.of_nat k ->
  exists body,
    digits36 fuel n acc = (body ++ acc)%string
    /\ (1 <= String.length body <= k)%nat
    /\ all_chars is_digit36 body = true.
Proof.
  induction fuel as [|fuel IH]; intros k n acc Hk Hn; [lia|].
  cbn [digits36]. cbv zeta.
  assert (Hd : is_digit36 (digit36 (n mod 36)) = true)
    by (apply digit36_shape; apply Z.mod_pos_bound; lia).
  destruct (n / 36 =? 0) eqn:E.
  - exists (String (digit36 (n mod 36)) EmptyString). split; [reflexivity|].
    split; [simpl; lia|]. simpl. rewrite Hd. reflexivity.
  - apply Z.eqb_neq in E.
    assert (Hq : 0 < n / 36).
    { pose proof (Z.div_pos n 36 ltac:(lia) ltac:(lia)). lia. }
    assert (Hk2 : (2 <= k)%nat).
    { destruct k as [|[|k]]; [lia| |lia]. exfalso.
      change (36 ^ Z.of_nat 1) with 36 in Hn.
      rewrite Z.div_small in Hq; lia. }
    destruct k as [|k]; [lia|].
    assert (Hn' : 0 <= n / 36 < 36 ^ Z.of_nat k).
    { split; [lia|]. apply Z.div_lt_upper_bound; [lia|].
      rewrite Nat2Z.inj_succ, Z.pow_succ_r in Hn; lia. }
    destruct (IH k (n / 36) (String (digit36 (n mod 36)) acc) ltac:(lia) Hn')
      as (body & Hb & Hlen & Hall).
    exists (body ++ String (digit36 (n mod 36)) EmptyString)%string.
    split; [|split].
    + rewrite Hb. clear. induction body as [|c body IHb]; [reflexivity|].
      simpl. rewrite IHb. reflexivity.
    + assert (L : String.length (body ++ String (digit36 (n mod 36)) EmptyString)
                  = S (String.length body)).
      { clear. induction body as [|c body IHb]; [reflexivity|].
        simpl. rewrite IHb. reflexivity. }
      rewrite L. lia.
    + clear - Hall Hd. induction body as [|c body IHb]; simpl.
      * rewrite Hd. reflexivity.
      * simpl in Hall. apply andb_true_iff in Hall. destruct Hall as [-> Hall].
        simpl. apply IHb. exact Hall.
Qed.

Lemma toString36_shape : forall n, int32 n ->
  exists body,
    ((0 <= n /\ toString36 n = body) \/ (n < 0 /\ toString36 n = String "-" body))
    /\ (1 <= String.length body <= 6)%nat
    /\ all_chars is_digit36 body = true.
Proof.
  intros n Hn. unfold int32 in Hn. unfold toString36.
  assert (P : 36 ^ Z.of_nat 6 = 2176782336) by reflexivity.
  destruct (n <? 0) eqn:E; [apply Z.ltb_lt in E|apply Z.ltb_ge in E].
  - destruct (digits36_shape 7 6 (- n) EmptyString ltac:(lia) ltac:(lia))
      as (body & Hb & Hlen & Hall).
    exists body. split; [right; split; [exact E|]|split; assumption].
    rewrite Hb. f_equal. clear. induction body as [|c b IH]; [reflexivity|].
    simpl. rewrite IH. reflexivity.
  - destruct (digits36_shape 7 6 n EmptyString ltac:(lia) ltac:(lia))
      as (body & Hb & Hlen & Hall).
    exists body. split; [left; split; [exact E|]|split; assumption].
    rewrite Hb. clear. induction body as [|c b IH]; [reflexivity|].
    simpl. rewrite IH. reflexivity.
Qed.

Lemma hash32_append : forall a b s,
  hash32 (a ++ s) = hash32 (b ++ s) <-> hash32 a = hash32 b.
Proof.
  intros a b s. unfold hash32. rewrite !loop_app. split.
  - apply loop_inj; apply hash32_int32.
  - intros ->. reflexivity.
Qed.

End FingerprintFacts.

(** X14: appending the same text to two strings neither creates nor
    removes a collision of [simpleHash]: the fingerprints of [a ++ s] and
    [b ++ s] agree exactly when those of [a] and [b] do. *)
Theorem X14_fingerprint_append : forall a b s : string,
  Hash.simpleHash (a ++ s) = Hash.simpleHash (b ++ s)
  <-> Hash.simpleHash a = Hash.simpleHash b.
Proof.
  intros a b s. unfold Hash.simpleHash. split; intros H.
  - f_equal. apply (FingerprintFacts.hash32_append a b s).
    apply HashFacts.toString36_inj; [apply HashFacts.hash32_int32 ..|exact H].
  - f_equal. apply (FingerprintFacts.hash32_append a b s).
    apply HashFacts.toString36_inj; [apply HashFacts.hash32_int32 ..|exact H].
Qed.

(** X15: the fingerprint of any string is one to six digits of base 36
    ([0] to [9], [a] to [z]), preceded by a minus sign exactly when the
    32-bit hash is negative. *)
Theorem X15_fingerprint_shape : forall s : string,
  exists body : string,
    (((0 <= Hash.hash32 s)%Z /\ Hash.simpleHash s = body)
     \/ ((Hash.hash32 s < 0)%Z /\ Hash.simpleHash s = String "-" body))
    /\ 1 <= String.length body <= 6
    /\ Shape.all_chars Shape.is_digit36 body = true.
Proof.
  intros s. apply FingerprintFacts.toString36_shape. apply HashFacts.hash32_int32.
Qed.

(* ------------------------------------------------------------------ *)
(** ** The characters of an identifier *)

Module SpanFacts.
Import JsString Regex RegexFacts Patterns Shape.

Lemma all_chars_app : forall p a b,
  all_chars p (a ++ b) = (all_chars p a && all_chars p b)%bool.
Proof.
  intros p. induction a as [|c a IH]; intros b; simpl; [reflexivity|].
  rewrite IH. apply andb_assoc.
Qed.

Lemma append_assoc : forall a b c : string, ((a ++ b) ++ c = a ++ (b ++ c))%string.
Proof.
  induction a as [|x a IH]; intros b c; simpl; [reflexivity|].
  rewrite IH. reflexivity.
Qed.

Lemma length_append : forall a b : string,
  String.length (a ++ b) = String.length a + String.length b.
Proof.
  induction a as [|x a IH]; intros b; simpl; [reflexivity|].
  rewrite IH. reflexivity.
Qed.

Lemma take_append : forall w r : string,
  take (String.length (w ++ r) - String.length r) (w ++ r) = w.
Proof.
  intros w r. rewrite length_append.
  replace (String.length w + String.length r - String.length r) with (String.length w)
    by lia.
  induction w as [|c w IH]; simpl.
  - destruct r; reflexivity.
  - rewrite IH. reflexivity.
Qed.

(** What [[...]+] consumes belongs to the class. *)
Lemma plus_span : forall ic p s s',
  In s' (run ic (plus (one_of p)) s) ->
  exists w, rest s = (w ++ rest s')%string
            /\ w <> EmptyString /\ all_chars (cls_hit ic p) w = true.
Proof.
  intros ic p s s' Hin. unfold plus, one_of in Hin.
  cbn [run] in Hin. rewrite Nat.add_1_r in Hin. cbn [rep_loop exhausted] in Hin.
  apply in_flat_map in Hin. destruct Hin as [s1 [H1 H2]].
  apply (rep_loop_respects
           (fun a b => exists w, rest a = (w ++ rest b)%string
                                 /\ all_chars (cls_hit ic p) w = true)) in H2.
  - cbn [run] in H1. destruct (rest s) as [|c t] eqn:E; [contradiction|].
    destruct (cls_hit ic p c) eqn:C; simpl xorb in H1; [|contradiction].
    destruct H1 as [<-|[]]. simpl in H2. destruct H2 as (w & Hw & Hall).
    exists (String c w). split; [simpl; rewrite Hw; reflexivity|].
    split; [discriminate|]. simpl. rewrite C, Hall. reflexivity.
  - intros a. exists EmptyString. split; reflexivity.
  - intros a b c (w1 & E1 & A1) (w2 & E2 & A2). exists (w1 ++ w2)%string.
    split; [rewrite E1, E2; symmetry; apply append_assoc|].
    rewrite all_chars_app, A1, A2. reflexivity.
  - intros a b Hb. cbn [run] in Hb. destruct (rest a) as [|c t] eqn:E; [contradiction|].
    destruct (cls_hit ic p c) eqn:C; simpl xorb in Hb; [|contradiction].
    destruct Hb as [<-|[]]. simpl. exists (String c EmptyString).
    split; [reflexivity|]. simpl. rewrite C. reflexivity.
Qed.

(** A group around [[...]+] at the end of a pattern captures code units
    of the class, and at least one. *)
Lemma last_group_span : forall ic a g p text m,
  exec ic (Seq a (Grp g (plus (one_of p)))) text = Some m ->
  exists u, group g m = Some u /\ u <> EmptyString
            /\ all_chars (cls_hit ic p) u = true.
Proof.
  intros ic a g p text m H. unfold exec in H.
  apply (exec_from_property
           (fun m => exists u, group g m = Some u /\ u <> EmptyString
                               /\ all_chars (cls_hit ic p) u = true)) in H; [exact H|].
  clear. intros p0 t m H. unfold match_at in H.
  destruct (run ic (Seq a (Grp g (plus (one_of p)))) (mkState p0 t [])) as [|s' l] eqn:E;
    [discriminate|].
  injection H as <-.
  assert (Hin : In s' (run ic (Seq a (Grp g (plus (one_of p)))) (mkState p0 t [])))
    by (rewrite E; left; reflexivity).
  cbn [run] in Hin. apply in_flat_map in Hin. destruct Hin as [s1 [_ H2]].
  apply in_map_iff in H2. destruct H2 as [s2 [<- H2]].
  apply plus_span in H2. destruct H2 as (w & Hw & Hne & Hall).
  exists w. unfold group. simpl. rewrite Nat.eqb_refl.
  split; [|split; assumption].
  unfold consumed. rewrite Hw. rewrite take_append. reflexivity.
Qed.

Lemma link_uuid_span : forall link u,
  V2.link_uuid link = Some u ->
  u <> EmptyString /\ all_chars uuid_char u = true.
Proof.
  intros link u H. unfold V2.link_uuid in H.
  destruct (Dom.getAttribute "href" link) as [href|]; [|discriminate].
  destruct (exec false uuid_re href) as [m|] eqn:E; [|discriminate].
  destruct (last_group_span false (lit "/listings/detail/") 1 uuid_char href m E)
    as (u' & Hu & Hne & Hall).
  rewrite Hu in H. injection H as <-. split; assumption.
Qed.

Lemma identifiers_span : forall doc u,
  In u (StrSet.of_list (Identifiers.identifiers doc)) ->
  u <> EmptyString /\ all_chars uuid_char u = true.
Proof.
  intros doc u H. apply (proj1 (SetFacts.of_list_In _ _)) in H.
  unfold Identifiers.identifiers, Identifiers.of_links in H.
  apply in_flat_map in H. destruct H as (link & _ & H).
  destruct (V2.link_uuid link) as [v|] eqn:E; [|contradiction].
  destruct H as [<-|[]]. eapply link_uuid_span. exact E.
Qed.

End SpanFacts.

(** X16: every identifier that an index parser returns is a non-empty
    string of the characters [a] to [f], [0] to [9] and [-]: the
    identifiers of [parseIndexPage] and the [id] of every record of
    [parseListings]. *)
Theorem X16_identifier_characters : forall doc : Dom.document,
  (forall ix u, V2.parseIndexPage doc = Ok ix -> In u (V2.uuids ix) ->
     u <> EmptyString /\ Shape.all_chars Patterns.uuid_char u = true)
  /\
  (forall p l, V1.parseListings doc = Ok p -> In l (V1.listings p) ->
     V1.id l <> EmptyString /\ Shape.all_chars Patterns.uuid_char (V1.id l) = true).
Proof.
  intros doc. split.
  - intros ix u H Hu.
    destruct (ParseFacts.nil_or_not (Dom.docQuerySelectorAll Patterns.detail_link doc))
      as [Hn|Hn].
    + rewrite (ParseFacts.v2_without_links doc Hn) in H.
      destruct (Patterns.no_vacancies _); [|discriminate].
      injection H as <-. contradiction.
    + rewrite (ParseFacts.v2_with_links doc Hn) in H. injection H as <-.
      apply (SpanFacts.identifiers_span doc). exact Hu.
  - intros p l H Hl.
    destruct (ParseFacts.nil_or_not (Dom.docQuerySelectorAll Patterns.detail_link doc))
      as [Hn|Hn].
    + rewrite (ParseFacts.v1_without_links doc Hn) in H.
      destruct (Patterns.no_vacancies _); [|discriminate].
      injection H as <-. contradiction.
    + destruct (ParseFacts.v1_with_links doc Hn) as (ls & Hp & Hs).
      rewrite Hp in H. injection H as <-.
      apply (SpanFacts.identifiers_span doc).
      eapply SetFacts.subseq_In; [exact Hs|]. apply in_map. exact Hl.
Qed.

Lemma X16_identifier_characters_witness :
  Shape.all_chars Patterns.uuid_char "aaa-1" = true
  /\ Shape.all_chars Patterns.uuid_char "bbb-2" = true.
Proof.
  pose proof (proj1 (X16_identifier_characters Samples.two_cards_page)
                (V2.mkIndex ["aaa-1"; "bbb-2"] false)) as H.
  split.
  - apply (H "aaa-1" eq_refl). left. reflexivity.
  - apply (H "bbb-2" eq_refl). right. left. reflexivity.
Defined.

(* ------------------------------------------------------------------ *)
(** ** From the detail URL back to the identifier *)

Module RoundTripFacts.
Import JsString Regex RegexFacts Patterns Shape.

(** [[...]*], greedy, on a text of the class: the first result has
    consumed it all. *)
Lemma star_greedy_head : forall (p : ascii -> bool) (step : state -> list state),
  (forall s, step s = run false (Cls false p) s) ->
  forall w fuel before captured,
    all_chars p w = true -> String.length w <= fuel ->
    exists s' l,
      rep_loop step true fuel 0 None (mkState before w captured) = s' :: l
      /\ rest s' = EmptyString /\ caps s' = captured.
Proof.
  intros p step Hstep.
  induction w as [|c t IH]; intros fuel before captured Hall Hlen.
  - destruct fuel as [|fuel]; cbn [rep_loop exhausted].
    + eexists; eexists. split; [reflexivity|]. split; reflexivity.
    + rewrite Hstep. cbn [run rest flat_map app].
      eexists; eexists. split; [reflexivity|]. split; reflexivity.
  - destruct fuel as [|fuel]; [simpl in Hlen; lia|].
    simpl in Hall. apply andb_true_iff in Hall. destruct Hall as [Hc Hall].
    cbn [rep_loop exhausted dec_max]. rewrite Hstep.
    cbn [run rest cls_hit caps]. rewrite Hc.
    cbn [xorb flat_map]. unfold progress. cbn [rest String.length].
    replace (Nat.ltb (String.length t) (S (String.length t))) with true
      by (symmetry; apply Nat.ltb_lt; lia).
    simpl in Hlen.
    destruct (IH fuel (Some c) captured Hall ltac:(lia)) as (s' & l & E & Hr & Hk).
    rewrite E. eexists; eexists. split; [reflexivity|]. split; assumption.
Qed.

Lemma plus_greedy_head : forall p w before captured,
  w <> EmptyString -> all_chars p w = true ->
  exists s' l,
    run false (plus (one_of p)) (mkState before w captured) = s' :: l
    /\ rest s' = EmptyString /\ caps s' = captured.
Proof.
  intros p [|c t] before captured Hne Hall; [contradiction Hne; reflexivity|].
  simpl in Hall. apply andb_true_iff in Hall. destruct Hall as [Hc Hall].
  assert (Hs : run false (Cls false p) (mkState before (String c t) captured)
               = [mkState (Some c) t captured])
    by (cbn [run rest cls_hit caps]; rewrite Hc; reflexivity).
  change (run false (plus (one_of p)) (mkState before (String c t) captured))
    with (flat_map (rep_loop (run false (Cls false p)) true
                      (String.length (String c t) + 1) 0 None)
                   (run false (Cls false p) (mkState before (String c t) captured))).
  rewrite Hs. cbn [flat_map].
  destruct (star_greedy_head p (run false (Cls false p)) (fun s => eq_refl) t
              (String.length (String c t) + 1) (Some c) captured Hall)
    as (s' & l & E & Hr & Hk); [simpl; lia|].
  rewrite E. eexists; eexists. split; [reflexivity|]. split; assumption.
Qed.

Lemma take_all : forall s, take (String.length s) s = s.
Proof. induction s as [|c s IH]; simpl; [reflexivity|rewrite IH; reflexivity]. Qed.

(** The pattern of the identifier at the start of [/listings/detail/u]. *)
Lemma uuid_match_at : forall u before,
  u <> EmptyString -> all_chars uuid_char u = true ->
  exists m,
    match_at false uuid_re before ("/listings/detail/" ++ u) = Some m
    /\ group 1 m = Some u.
Proof.
  intros u before Hne Hall. unfold match_at, uuid_re. cbn [seq]. cbv zeta.
  change (run false (Seq (lit "/listings/detail/") (Grp 1 (plus (one_of uuid_char))))
              (mkState before ("/listings/detail/" ++ u) []))
    with (run false (Grp 1 (plus (one_of uuid_char))) (mkState (Some "/"%char) u [])
          ++ [])%list.
  cbn [run].
  destruct (plus_greedy_head uuid_char u (Some "/"%char) [] Hne Hall)
    as (s' & l & E & Hr & Hk).
  rewrite E. cbn [map app]. eexists. split; [reflexivity|].
  unfold group. cbn [groups caps lookup Nat.eqb]. f_equal.
  unfold consumed. cbn [rest]. rewrite Hr. cbn [String.length].
  rewrite Nat.sub_0_r. apply take_all.
Qed.

Lemma exec_from_skip : forall ic r before c t,
  match_at ic r before (String c t) = None ->
  exec_from ic r before (String c t) = exec_from ic r (Some c) t.
Proof. intros ic r before c t H. cbn [exec_from]. rewrite H. reflexivity. Qed.

Lemma exec_from_hit : forall ic r before t m,
  match_at ic r before t = Some m -> exec_from ic r before t = Some m.
Proof. intros ic r before t m H. destruct t; cbn [exec_from]; rewrite H; reflexivity. Qed.

Lemma detail_url_uuid : forall u,
  u <> EmptyString -> all_chars uuid_char u = true ->
  exists m,
    exec false uuid_re (V2.BASE_URL ++ "/listings/detail/" ++ u) = Some m
    /\ group 1 m = Some u.
Proof.
  intros u Hne Hall.
  destruct (uuid_match_at u (Some "m"%char) Hne Hall) as (m & Hm & Hg).
  exists m. split; [|exact Hg]. unfold exec.
  change (V2.BASE_URL ++ "/listings/detail/" ++ u)%string
    with ("https://greyrockcommercial.appfolio.com" ++ ("/listings/detail/" ++ u))%string.
  set (tail := ("/listings/detail/" ++ u)%string) in *.
  cbn [String.append].
  do 39 (rewrite exec_from_skip by (subst tail; reflexivity)).
  apply exec_from_hit. exact Hm.
Qed.

End RoundTripFacts.

(** X17: the detail URL of a record leads back to its identifier.  For an
    identifier as the index parsers return them (non-empty, of the
    characters [a] to [f], [0] to [9] and [-]), the pattern with which
    the index page is read finds in the [detailUrl] of the record built
    for it exactly the [id] of that record, in both scripts. *)
Theorem X17_detail_url_leads_back : forall u : string,
  u <> EmptyString ->
  Shape.all_chars Patterns.uuid_char u = true ->
  (forall doc l link,
     V2.parseDetailPage doc u = Ok l ->
     Dom.getAttribute "href" link = Some (V2.detailUrl l) ->
     V2.link_uuid link = Some (V2.id l))
  /\
  (forall card l,
     V1.extractListingData card u = Ok l ->
     exists m, Regex.exec false Patterns.uuid_re (V1.detailUrl l) = Some m
               /\ Regex.group 1 m = Some (V1.id l)).
Proof.
  intros u Hne Hall.
  destruct (RoundTripFacts.detail_url_uuid u Hne Hall) as (m & Hm & Hg).
  split.
  - intros doc l link Hl Hhref.
    destruct (ExtractFacts.v2_record doc u)
      as (address & rent & sqft & rate & available & type & lease & utilities & city
          & _ & _ & _ & _ & _ & _ & _ & _ & _ & Hrec).
    assert (Hl' : V2.detailUrl l = (V2.BASE_URL ++ "/listings/detail/" ++ u)%string
                  /\ V2.id l = u)
      by (rewrite Hrec in Hl; injection Hl as <-; split; reflexivity).
    destruct Hl' as [Hurl Hid].
    unfold V2.link_uuid. rewrite Hhref, Hurl, Hm, Hid. exact Hg.
  - intros card l Hl.
    destruct (ExtractFacts.v1_record card u)
      as (sqft & address & available & type & rate & city & _ & _ & _ & _ & _ & _ & Hrec).
    assert (Hl' : V1.detailUrl l = (V2.BASE_URL ++ "/listings/detail/" ++ u)%string
                  /\ V1.id l = u)
      by (rewrite Hrec in Hl; injection Hl as <-; split; reflexivity).
    destruct Hl' as [Hurl Hid].
    rewrite Hurl, Hid. exists m. split; [exact Hm|exact Hg].
Qed.

Lemma X17_detail_url_leads_back_witness :
  exists m,
    Regex.exec false Patterns.uuid_re (V1.detailUrl Samples.constructor_listing) = Some m
    /\ Regex.group 1 m = Some "0a1b2c3d-4e5f".
Proof.
  apply (proj2 (X17_detail_url_leads_back "0a1b2c3d-4e5f"
                  ltac:(discriminate) eq_refl)
           Samples.constructor_card Samples.constructor_listing).
  vm_compute. reflexivity.
Defined.

(* ------------------------------------------------------------------ *)
(** ** The images of a record *)

Module ImageFacts.
Import JsString Dom Patterns SetFacts.

Lemma gallery_kept : forall s, V2.gallery_image (Some s) = true -> Shape.kept s.
Proof.
  intros s H. unfold V2.gallery_image in H.
  apply andb_true_iff in H. destruct H as [Ht H].
  apply andb_true_iff in H. destruct H as [Hl Hp].
  apply negb_true_iff in Hl. apply negb_true_iff in Hp.
  split; [intros ->; discriminate Ht|]. split; [exact Hl|left; exact Hp].
Qed.

Lemma cdn_kept : forall s, V2.cdn_image (Some s) = true -> Shape.kept s.
Proof.
  intros s H. unfold V2.cdn_image in H.
  apply andb_true_iff in H. destruct H as [Ht H].
  apply andb_true_iff in H. destruct H as [Hc Hl].
  apply negb_true_iff in Hl.
  split; [intros ->; discriminate Ht|]. split; [exact Hl|right; exact Hc].
Qed.

Lemma extract_images_kept : forall doc,
  NoDup (V2.extract_images doc) /\ forall s, In s (V2.extract_images doc) -> Shape.kept s.
Proof.
  intros doc. unfold V2.extract_images. cbv zeta.
  set (gallery_urls :=
         StrSet.of_list
           (V2.filter_truthy
              (filter V2.gallery_image
                 (map V2.image_src (docQuerySelectorAll V2.gallery doc))))).
  assert (Hg : NoDup gallery_urls /\ forall s, In s gallery_urls -> Shape.kept s).
  { split; [apply of_list_NoDup|].
    intros s H. apply (proj1 (of_list_In _ _)) in H.
    unfold V2.filter_truthy in H. apply in_flat_map in H.
    destruct H as (o & Ho & Hs). apply filter_In in Ho. destruct Ho as [_ Ho].
    destruct o as [[|c t]|]; try contradiction.
    destruct Hs as [<-|[]]. apply gallery_kept. exact Ho. }
  destruct (Nat.eqb (List.length gallery_urls) 0); [|exact Hg].
  apply (RunFacts.fold_left_invariant _
           (fun urls => NoDup urls /\ forall s, In s urls -> Shape.kept s)); [|exact Hg].
  intros urls img [Hn Hk].
  destruct (V2.cdn_image (V2.image_src img)) eqn:C; [|split; assumption].
  destruct (V2.image_src img) as [s|]; [|split; assumption].
  change (if StrSet.has s urls then urls else (urls ++ [s])%list)
    with (StrSet.add s urls).
  split; [apply add_NoDup; exact Hn|].
  intros x Hx. apply add_In in Hx. destruct Hx as [->|Hx].
  - apply cdn_kept. exact C.
  - apply Hk. exact Hx.
Qed.

End ImageFacts.

(** X18: the images of a record.  [parseDetailPage] returns image
    addresses without repeats, none of them empty and none containing
    [large.png]; one that contains [place_holder] comes from the image
    server (the fallback search does not filter placeholders); and
    [imageUrl] is the first of [imageUrls].  The [imageUrl] of the card
    reader is never empty and never contains [place_holder]. *)
Theorem X18_images_of_a_record :
  (forall doc uuid l,
     V2.parseDetailPage doc uuid = Ok l ->
     NoDup (V2.imageUrls l)
     /\ (forall s, In s (V2.imageUrls l) -> Shape.kept s)
     /\ V2.imageUrl l = hd_error (V2.imageUrls l))
  /\
  (forall card uuid l s,
     V1.extractListingData card uuid = Ok l ->
     V1.imageUrl l = Some s ->
     s <> EmptyString /\ JsString.includes "place_holder" s = false).
Proof.
  split.
  - intros doc uuid l Hl.
    destruct (ExtractFacts.v2_record doc uuid)
      as (address & rent & sqft & rate & available & type & lease & utilities & city
          & _ & _ & _ & _ & _ & _ & _ & _ & _ & Hrec).
    rewrite Hrec in Hl. injection Hl as <-. cbn [V2.imageUrls V2.imageUrl].
    destruct (ImageFacts.extract_images_kept doc) as [Hn Hk].
    split; [exact Hn|]. split; [exact Hk|reflexivity].
  - intros card uuid l s Hl Hs.
    destruct (ExtractFacts.v1_record card uuid)
      as (sqft & address & available & type & rate & city & _ & _ & _ & _ & _ & _ & Hrec).
    rewrite Hrec in Hl. injection Hl as <-. cbn [V1.imageUrl] in Hs.
    unfold V1.extract_imageUrl in Hs.
    destruct (Dom.querySelector _ card) as [img|]; [|discriminate].
    destruct (or_else _ _) as [[|c t]|]; try discriminate.
    destruct (JsString.includes "place_holder" (String c t)) eqn:E; [discriminate|].
    injection Hs as <-. split; [discriminate|exact E].
Qed.

Lemma X18_images_of_a_record_witness :
  Shape.kept "https://images.cdn.appfolio.com/a/1.jpg"
  /\ JsString.includes "place_holder" "https://images.cdn.appfolio.com/a/1.jpg" = false.
Proof.
  destruct X18_images_of_a_record as [H2 H1]. split.
  - destruct (H2 Samples.warehouse_page "aaa-1" (hd Samples.bare_listing_v2 Samples.site_listings)
                ltac:(vm_compute; reflexivity)) as (_ & Hk & _).
    apply Hk. vm_compute. left. reflexivity.
  - apply (H1 Samples.office_card "0a1b2c3d-4e5f"
              (match V1.extractListingData Samples.office_card "0a1b2c3d-4e5f" with
               | Ok l => l
               | Throw _ => Samples.bare_listing_v1
               end)).
    + vm_compute. reflexivity.
    + vm_compute. reflexivity.
Defined.

(* ------------------------------------------------------------------ *)
(** ** The description of a record *)

Module DescriptionFacts.
Import JsString Regex Dom Patterns.

(** The loop that keeps the longest candidate. *)
Lemma longest_fold {A : Type} (T : A -> string) (ok : string -> bool) :
  forall l init,
    let d := fold_left (fun longest p =>
                          if (Nat.ltb (String.length longest) (String.length (T p))
                              && ok (T p))%bool
                          then T p else longest) l init in
    String.length init <= String.length d
    /\ (forall p, In p l -> ok (T p) = true -> String.length (T p) <= String.length d)
    /\ (d = init \/ exists p, In p l /\ d = T p /\ ok (T p) = true).
Proof.
  induction l as [|a l IH]; intros init; cbn [fold_left]; cbv zeta.
  - split; [apply Nat.le_refl|]. split; [intros p []|left; reflexivity].
  - match goal with
    | |- context [fold_left ?f l ?i] => specialize (IH i); cbv zeta in IH; set (i0 := i) in *
    end.
    destruct IH as (Hlen & Hall & Hor).
    assert (Hi : String.length init <= String.length i0
                 /\ (ok (T a) = true -> String.length (T a) <= String.length i0)
                 /\ (i0 = init \/ (i0 = T a /\ ok (T a) = true))).
    { unfold i0.
      destruct (Nat.ltb (String.length init) (String.length (T a))) eqn:L;
        [apply Nat.ltb_lt in L|apply Nat.ltb_ge in L];
        destruct (ok (T a)) eqn:O; simpl andb; cbv iota.
      - split; [lia|]. split; [intros _; lia|right; split; reflexivity].
      - split; [lia|]. split; [discriminate|left; reflexivity].
      - split; [lia|]. split; [intros _; exact L|left; reflexivity].
      - split; [lia|]. split; [discriminate|left; reflexivity]. }
    destruct Hi as (Hi1 & Hi2 & Hi3).
    split; [lia|]. split.
    + intros p [<-|Hp] Hok; [specialize (Hi2 Hok); lia|apply Hall; assumption].
    + destruct Hor as [Hd|(p & Hp & Hd & Hok)].
      * destruct Hi3 as [Hi3|[Hi3 Hok]].
        -- left. rewrite Hd. exact Hi3.
        -- right. exists a. split; [left; reflexivity|]. split; [rewrite Hd; exact Hi3|exact Hok].
      * right. exists p. split; [right; exact Hp|]. split; assumption.
Qed.

Lemma first_some_In {A B : Type} (f : A -> option B) : forall l b,
  first_some f l = Some b -> exists a, In a l /\ f a = Some b.
Proof.
  induction l as [|a l IH]; intros b H; simpl in H; [discriminate|].
  destruct (f a) as [b'|] eqn:E.
  - injection H as <-. exists a. split; [left; reflexivity|exact E].
  - destruct (IH b H) as (a' & Hin & Ha). exists a'. split; [right; exact Hin|exact Ha].
Qed.

Lemma take_length : forall n s, String.length (take n s) <= n.
Proof.
  induction n as [|n IH]; intros s; [destruct s; simpl; lia|].
  destruct s as [|c s]; simpl; [lia|]. specialize (IH s). lia.
Qed.

Lemma v1_description : forall card,
  let d := V1.extract_description card in
  (exists p, In p (querySelectorAll V1.paragraphs card)
             /\ d = trim (textContent (self p))
             /\ 30 < String.length d
             /\ includes "Privacy Policy" d = false)
  \/ String.length d <= 300.
Proof.
  intros card d. unfold d, V1.extract_description. cbv zeta.
  destruct (first_some _ (querySelectorAll V1.paragraphs card)) as [[|c t]|] eqn:E.
  - apply first_some_In in E. destruct E as (p & _ & E). exfalso.
    destruct (_ && _)%bool eqn:C; [|discriminate].
    injection E as E. rewrite E in C. discriminate C.
  - left. apply first_some_In in E. destruct E as (p & Hp & E).
    destruct (_ && _)%bool eqn:C; [|discriminate].
    injection E as E. rewrite E in C.
    apply andb_true_iff in C. destruct C as [C1 C2].
    apply Nat.ltb_lt in C1. apply negb_true_iff in C2.
    exists p. split; [exact Hp|]. split; [symmetry; exact E|]. split; assumption.
  - right. destruct (exec false V1.sentence_re _) as [m|]; [|simpl; lia].
    cbv zeta. destruct (Nat.ltb 300 (String.length (trim (matched m)))) eqn:L.
    + rewrite SpanFacts.length_append. pose proof (take_length 297 (trim (matched m))).
      simpl String.length at 2. lia.
    + apply Nat.ltb_ge in L. exact L.
Qed.

End DescriptionFacts.

(** X19: the description of a detail page.  When the description element
    of the page gives no text, [parseDetailPage] returns the trimmed text
    of a paragraph that does not contain [Privacy Policy] and is at least
    as long as every other such paragraph, or the empty string when
    there is none; otherwise it returns the text of that element. *)
Theorem X19_description_is_the_longest_paragraph :
  forall (doc : Dom.document) (uuid : string) (l : V2.listing),
    V2.parseDetailPage doc uuid = Ok l ->
    let marked :=
      match Dom.docQuerySelector V2.description_marker doc with
      | Some descEl => JsString.trim (Dom.textContent (Dom.self descEl))
      | None => EmptyString
      end in
    let texts :=
      map (fun p => JsString.trim (Dom.textContent (Dom.self p)))
          (Dom.docQuerySelectorAll [Dom.Only (Dom.by_tag "p")] doc) in
    (marked <> EmptyString -> V2.description l = marked)
    /\ (marked = EmptyString ->
        (forall t, In t texts -> JsString.includes "Privacy Policy" t = false ->
           String.length t <= String.length (V2.description l))
        /\ (V2.description l = EmptyString
            \/ (In (V2.description l) texts
                /\ JsString.includes "Privacy Policy" (V2.description l) = false))).
Proof.
  intros doc uuid l Hl marked texts.
  destruct (ExtractFacts.v2_record doc uuid)
    as (address & rent & sqft & rate & available & type & lease & utilities & city
        & _ & _ & _ & _ & _ & _ & _ & _ & _ & Hrec).
  rewrite Hrec in Hl. injection Hl as <-. cbn [V2.description].
  unfold V2.extract_description. cbv zeta. fold marked.
  split.
  - intros Hm. destruct marked; [contradiction Hm; reflexivity|reflexivity].
  - intros ->. unfold V2.longest_paragraph.
    pose proof (DescriptionFacts.longest_fold
                  (fun p => JsString.trim (Dom.textContent (Dom.self p)))
                  (fun t => negb (JsString.includes "Privacy Policy" t))
                  (Dom.docQuerySelectorAll [Dom.Only (Dom.by_tag "p")] doc)
                  EmptyString) as H.
    cbv zeta in H. destruct H as (_ & Hall & Hor). split.
    + intros t Ht Hpp. unfold texts in Ht. apply in_map_iff in Ht.
      destruct Ht as (p & <- & Hp). apply Hall; [exact Hp|].
      rewrite Hpp. reflexivity.
    + destruct Hor as [Hd|(p & Hp & Hd & Hok)]; [left; exact Hd|right].
      rewrite Hd. split.
      * unfold texts. apply in_map_iff. exists p. split; [reflexivity|exact Hp].
      * apply negb_true_iff in Hok. exact Hok.
Qed.

Lemma X19_description_is_the_longest_paragraph_witness :
  String.length "500 Fifth Ave, Rock Hill, SC 29730"
  <= String.length (V2.description (hd Samples.bare_listing_v2 Samples.site_listings))
  /\ match V2.parseDetailPage Samples.quirks_detail_page "0a1b2c3d-4e5f" with
     | Ok l => V2.description l = "Corner unit."
     | Throw _ => False
     end.
Proof.
  split.
  - destruct (X19_description_is_the_longest_paragraph
                Samples.warehouse_page "aaa-1"
                (hd Samples.bare_listing_v2 Samples.site_listings)
                ltac:(vm_compute; reflexivity)) as [_ H].
    destruct (H ltac:(vm_compute; reflexivity)) as [Hall _].
    apply Hall.
    + vm_compute. right. left. reflexivity.
    + vm_compute. reflexivity.
  - destruct (V2.parseDetailPage Samples.quirks_detail_page "0a1b2c3d-4e5f")
      as [l|e] eqn:Hl; [|vm_compute in Hl; discriminate Hl].
    destruct (X19_description_is_the_longest_paragraph
                Samples.quirks_detail_page "0a1b2c3d-4e5f" l Hl) as [H _].
    rewrite H; [vm_compute; reflexivity|vm_compute; discriminate].
Defined.

(** X20: the description of a card is the trimmed text of a paragraph of
    the card that is longer than thirty code units and does not contain
    [Privacy Policy], or else it has at most three hundred code units
    (the fallback is cut to 297 and three dots). *)
Theorem X20_card_description_bounded :
  forall (card : Dom.element) (uuid : string) (l : V1.listing),
    V1.extractListingData card uuid = Ok l ->
    (exists p, In p (Dom.querySelectorAll V1.paragraphs card)
               /\ V1.description l = JsString.trim (Dom.textContent (Dom.self p))
               /\ 30 < String.length (V1.description l)
               /\ JsString.includes "Privacy Policy" (V1.description l) = false)
    \/ String.length (V1.description l) <= 300.
Proof.
  intros card uuid l Hl.
  destruct (ExtractFacts.v1_record card uuid)
    as (sqft & address & available & type & rate & city & _ & _ & _ & _ & _ & _ & Hrec).
  rewrite Hrec in Hl. injection Hl as <-. cbn [V1.description].
  apply DescriptionFacts.v1_description.
Qed.

Lemma X20_card_description_bounded_witness :
  (exists p, In p (Dom.querySelectorAll V1.paragraphs Samples.office_card)
             /\ "123 Main St, Charlotte, NC 28202"
                = JsString.trim (Dom.textContent (Dom.self p)))
  \/ String.length "123 Main St, Charlotte, NC 28202" <= 300.
Proof.
  destruct (X20_card_description_bounded Samples.office_card "0a1b2c3d-4e5f"
              (match V1.extractListingData Samples.office_card "0a1b2c3d-4e5f" with
               | Ok l => l
               | Throw _ => Samples.bare_listing_v1
               end)
              ltac:(vm_compute; reflexivity)) as [(p & Hp & Hd & _)|H].
  - left. exists p. split; [exact Hp|]. rewrite <- Hd. vm_compute. reflexivity.
  - right. vm_compute in H. vm_compute. exact H.
Defined.

(* ------------------------------------------------------------------ *)
(** ** From the address to the pin *)

(** X21: a record for which no address was found has no city, so the
    geocoding step of [main] pins it at the default coordinates (35.32,
    -80.85) plus the jitter, in both scripts. *)
Theorem X21_no_address_default_pin :
  (forall card uuid l r1 r2,
     V1.extractListingData card uuid = Ok l ->
     V1.address l = None ->
     V1.city l = None
     /\ Geocode.locate_v1 l r1 r2
        = V1.mkLocated l
            (Geocode.plus (Some (JsNum.parseFloat "35.32")) (Geocode.jitter "0.01" r1))
            (Geocode.plus (Some (JsNum.parseFloat "-80.85")) (Geocode.jitter "0.01" r2)))
  /\
  (forall doc uuid l r1 r2,
     V2.parseDetailPage doc uuid = Ok l ->
     V2.address l = None ->
     V2.city l = None
     /\ Geocode.locate_v2 l r1 r2
        = V2.mkLocated l
            (Geocode.plus (Some (JsNum.parseFloat "35.32")) (Geocode.jitter "0.005" r1))
            (Geocode.plus (Some (JsNum.parseFloat "-80.85")) (Geocode.jitter "0.005" r2))).
Proof.
  split.
  - intros card uuid l r1 r2 Hl Ha.
    destruct (ExtractFacts.v1_record card uuid)
      as (sqft & address & available & type & rate & city
          & _ & _ & _ & _ & _ & Hcity & Hrec).
    rewrite Hrec in Hl.
    assert (Hc : V1.city l = None).
    { injection Hl as <-. cbn [V1.address V1.city] in *. subst address.
      cbn [V1.extract_city] in Hcity. injection Hcity as <-. reflexivity. }
    split; [exact Hc|]. unfold Geocode.locate_v1. rewrite Hc. reflexivity.
  - intros doc uuid l r1 r2 Hl Ha.
    destruct (ExtractFacts.v2_record doc uuid)
      as (address & rent & sqft & rate & available & type & lease & utilities & city
          & _ & _ & _ & _ & _ & _ & _ & _ & Hcity & Hrec).
    rewrite Hrec in Hl.
    assert (Hc : V2.city l = None).
    { injection Hl as <-. cbn [V2.address V2.city] in *. subst address.
      cbn [V2.extract_city] in Hcity. injection Hcity as <-. reflexivity. }
    split; [exact Hc|]. unfold Geocode.locate_v2. rewrite Hc. reflexivity.
Qed.

Lemma X21_no_address_default_pin_witness :
  V2.lat (Geocode.locate_v2 (nth 1 Samples.site_listings Samples.bare_listing_v2)
            (JsNum.parseFloat "0.5") (JsNum.parseFloat "0.5"))
  = Geocode.plus (Some (JsNum.parseFloat "35.32"))
      (Geocode.jitter "0.005" (JsNum.parseFloat "0.5")).
Proof.
  destruct (proj2 X21_no_address_default_pin Samples.blank_page "bbb-2"
              (nth 1 Samples.site_listings Samples.bare_listing_v2)
              (JsNum.parseFloat "0.5") (JsNum.parseFloat "0.5")
              ltac:(vm_compute; reflexivity) ltac:(vm_compute; reflexivity))
    as [_ H].
  rewrite H. reflexivity.
Defined.

(* ------------------------------------------------------------------ *)
(** ** The ceiling of the validator and the index page *)

Module CeilingFacts.
Import Dom Patterns.

Lemma v1_count : forall doc p,
  V1.parseListings doc = Ok p ->
  List.length (V1.listings p) <= List.length (docQuerySelectorAll detail_link doc).
Proof.
  intros doc p H.
  destruct (ParseFacts.nil_or_not (docQuerySelectorAll detail_link doc)) as [Hn|Hn].
  - rewrite (ParseFacts.v1_without_links doc Hn) in H.
    destruct (no_vacancies _); [|discriminate]. injection H as <-. simpl. lia.
  - destruct (ParseFacts.v1_with_links doc Hn) as (ls & Hp & Hs).
    rewrite Hp in H. injection H as <-. cbn [V1.listings].
    apply ParseFacts.subseq_length in Hs. rewrite length_map in Hs.
    etransitivity; [exact Hs|].
    etransitivity; [apply ParseFacts.of_list_length|apply ParseFacts.of_links_length].
Qed.

Lemma v2_count : forall doc ix,
  V2.parseIndexPage doc = Ok ix ->
  List.length (V2.uuids ix) <= List.length (docQuerySelectorAll detail_link doc).
Proof.
  intros doc ix H.
  destruct (ParseFacts.nil_or_not (docQuerySelectorAll detail_link doc)) as [Hn|Hn].
  - rewrite (ParseFacts.v2_without_links doc Hn) in H.
    destruct (no_vacancies _); [|discriminate]. injection H as <-. simpl. lia.
  - rewrite (ParseFacts.v2_with_links doc Hn) in H. injection H as <-. cbn [V2.uuids].
    etransitivity; [apply ParseFacts.of_list_length|apply ParseFacts.of_links_length].
Qed.

Lemma reached_length : forall fetch uuids,
  List.length (V2Run.reached fetch uuids) <= List.length uuids.
Proof. intros fetch uuids. apply filter_length_le. Qed.

Lemma v1_failed_not_3 : forall h message, V1.failed h message <> V1.Exit 3.
Proof.
  intros h message H. pose proof (ExitFacts.v1_failed_inv h message) as I.
  rewrite H in I. destruct (ExitFacts.exit_code_range message) as [E|E];
    rewrite E in I; discriminate I.
Qed.

Lemma v2_failed_not_3 : forall h message, V2.failed h message <> V2.Exit 3.
Proof.
  intros h message H. pose proof (ExitFacts.v2_failed_inv h message) as I.
  rewrite H in I. change (V2.exit_code message) with (V1.exit_code message) in I.
  destruct (ExitFacts.exit_code_range message) as [E|E];
    rewrite E in I; discriminate I.
Qed.

End CeilingFacts.

(** X22: the ceiling of the validator cannot be hit by a small index
    page: when the index page has at most 200 detail anchors, neither
    script ends with exit code 3, on any host. *)
Theorem X22_small_index_never_fails_validation :
  forall (h : Host.t) (doc : Dom.document),
    List.length (Dom.docQuerySelectorAll Patterns.detail_link doc) <= 200 ->
    (Host.fetch h V1.APPFOLIO_URL = Ok doc -> V1.main h <> V1.Exit 3)
    /\ (Host.fetch h V2.APPFOLIO_URL = Ok doc -> V2.main h <> V2.Exit 3).
Proof.
  intros h doc Hsmall. split; intros Hf.
  - pose proof (ExitFacts.v1_run h) as H. rewrite Hf in H.
    destruct (V1.parseListings doc) as [p|e] eqn:E.
    + pose proof (CeilingFacts.v1_count doc p E) as Hc.
      replace (Nat.leb (List.length (V1.listings p)) 200) with true in H
        by (symmetry; apply Nat.leb_le; lia).
      rewrite H. destruct (V1.write_files h);
        [discriminate|apply CeilingFacts.v1_failed_not_3].
    + rewrite H. apply CeilingFacts.v1_failed_not_3.
  - destruct (V2.parseIndexPage doc) as [ix|e] eqn:E.
    + pose proof (ExitFacts.v2_run h doc ix Hf E) as H.
      pose proof (CeilingFacts.v2_count doc ix E) as Hc.
      pose proof (CeilingFacts.reached_length (Host.fetch h) (V2.uuids ix)) as Hr.
      destruct (V2.uuids ix) as [|u uuids] eqn:U.
      * rewrite H. destruct (Host.write_output h);
          [discriminate|apply CeilingFacts.v2_failed_not_3].
      * destruct H as (ls & Hids & Hmain). rewrite Hmain.
        assert (Hlen : List.length ls <= 200).
        { rewrite <- (length_map V2.id ls), Hids. lia. }
        destruct ls as [|l ls]; [apply CeilingFacts.v2_failed_not_3|].
        replace (Nat.leb (List.length (l :: ls)) 200) with true
          by (symmetry; apply Nat.leb_le; exact Hlen).
        destruct (V2.write_files h);
          [discriminate|apply CeilingFacts.v2_failed_not_3].
    + unfold V2.main, bind. rewrite Hf, E. apply CeilingFacts.v2_failed_not_3.
Qed.

Lemma X22_small_index_never_fails_validation_witness :
  V1.main (Host.quiet Samples.site) <> V1.Exit 3
  /\ V2.main (Host.quiet Samples.site) <> V2.Exit 3.
Proof.
  destruct (X22_small_index_never_fails_validation (Host.quiet Samples.site)
              Samples.two_cards_page ltac:(vm_compute; lia)) as [H1 H2].
  split; [apply H1|apply H2]; vm_compute; reflexivity.
Defined.
